(** * XNATFetch: the multi-echo concatenation engine

    A shallow embedding of [old/me_concat/concatenate_multiecho.py] and the
    properties of its slice-indexing and completeness-checking code.

    Conventions of the embedding:
    - Python [int] is [Z]; [len] is [Z.of_nat (length _)]; [//] and [%] are
      [Z.div] and [Z.modulo] (both floor towards minus infinity, as Python's)
      guarded by the [ZeroDivisionError] test.
    - Python [str] is [string] (byte strings; text outside ASCII is outside
      the model).
    - The dict [index_mapping] is a [gmap Z (list string)].
    - Exceptions are values of [exn]; code that can raise lives in the error
      monad [res], code that also touches the file system or processes in
      the state-and-error monad [M].
    - [logging] calls are left out: they neither raise nor change anything
      the program reads back. *)

From Stdlib Require Import ZArith Lia Ascii.
From stdpp Require Import gmap strings list fin_maps sorting pretty.

Open Scope Z_scope.

(** ** Exceptions *)

Inductive exn : Type :=
  | IndexError_not_divisible (nSlices nEchoes : Z)
      (* line 391: '# of dicom files ... is not divisible by the # of echoes' *)
  | IndexError_list_index        (* list index out of range *)
  | ZeroDivisionError            (* integer division or modulo by zero *)
  | ValueError_range_step        (* range() arg 3 must not be zero *)
  | ValueError_int (s : string)  (* invalid literal for int() *)
  | AttributeError_NoneType (attr : string)
      (* 'NoneType' object has no attribute ... *)
  | TypeError_NoneType           (* None used where a str is required *)
  | KeyError_int (k : Z)         (* missing dict key *)
  | KeyError_tag (group element : Z)  (* missing DICOM tag *)
  | NameError (name : string)    (* name ... is not defined *)
  | InvalidDicomError (path : string)
  | Exception_msg (msg : string).

Global Instance exn_eq_dec : EqDecision exn.
Proof. solve_decision. Defined.

(** ** The error monad *)

Inductive res (A : Type) : Type :=
  | Ok (a : A)
  | Raise (e : exn).
Arguments Ok {A} a.
Arguments Raise {A} e.

Global Instance res_ret : MRet res := λ A a, Ok a.
Global Instance res_bind : MBind res := λ A B f r,
  match r with Ok a => f a | Raise e => Raise e end.
Global Instance res_fmap : FMap res := λ A B f r,
  match r with Ok a => Ok (f a) | Raise e => Raise e end.

Definition is_Ok {A} (r : res A) : Prop := ∃ a, r = Ok a.
Definition is_Raise {A} (r : res A) : Prop := ∃ e, r = Raise e.

(** [for x in l: s = body x s], stopping at the first exception. *)
Fixpoint for_res {A S : Type} (l : list A) (body : A → S → res S) (s : S)
    : res S :=
  match l with
  | [] => Ok s
  | x :: l' => s' ← body x s; for_res l' body s'
  end.

(** [[f x for x in l]], stopping at the first exception. *)
Fixpoint comp_res {A B : Type} (f : A → res B) (l : list A) : res (list B) :=
  match l with
  | [] => Ok []
  | x :: l' => y ← f x; ys ← comp_res f l'; Ok (y :: ys)
  end.

(** ** Python built-ins used by the program *)

Module Py.

Definition len {A} (l : list A) : Z := Z.of_nat (length l).

(** [a // b] *)
Definition floordiv (a b : Z) : res Z :=
  if decide (b = 0) then Raise ZeroDivisionError else Ok (a / b).

(** [a % b] *)
Definition mod_ (a b : Z) : res Z :=
  if decide (b = 0) then Raise ZeroDivisionError else Ok (a mod b).

(** Number of elements of [range(start, stop, step)] for [step ≠ 0]. *)
Definition range_len (start stop step : Z) : nat :=
  if decide (0 < step) then Z.to_nat ((stop - start + step - 1) / step)
  else Z.to_nat ((start - stop - step - 1) / (- step)).

(** [range(start, stop, step)] *)
Definition range3 (start stop step : Z) : res (list Z) :=
  if decide (step = 0) then Raise ValueError_range_step
  else Ok ((λ i : nat, start + Z.of_nat i * step)
             <$> seq 0 (range_len start stop step)).

(** [range(n)]; never raises. *)
Definition range (n : Z) : list Z :=
  (λ i : nat, Z.of_nat i) <$> seq 0 (Z.to_nat n).

(** Index normalisation of [l[i]]: a negative index counts from the end. *)
Definition norm_index {A} (l : list A) (i : Z) : Z :=
  if decide (i < 0) then i + len l else i.

(** [l[i]] *)
Definition getitem {A} (l : list A) (i : Z) : res A :=
  let j := norm_index l i in
  if decide (0 ≤ j) then
    match l !! Z.to_nat j with
    | Some x => Ok x
    | None => Raise IndexError_list_index
    end
  else Raise IndexError_list_index.

(** [l[i] = v] *)
Definition setitem {A} (l : list A) (i : Z) (v : A) : res (list A) :=
  let j := norm_index l i in
  if decide (0 ≤ j < len l) then Ok (<[Z.to_nat j := v]> l)
  else Raise IndexError_list_index.

(** Bound normalisation of a slice [l[a:b]]: clamped into [0, len l]. *)
Definition clamp {A} (l : list A) (i : Z) : Z :=
  if decide (i < 0) then Z.max (i + len l) 0 else Z.min i (len l).

(** [l[a:b]]; never raises. *)
Definition slice {A} (l : list A) (a b : Z) : list A :=
  let lo := clamp l a in
  let hi := clamp l b in
  take (Z.to_nat (hi - lo)) (drop (Z.to_nat lo) l).

(** [sep.join(l)] *)
Fixpoint join (sep : string) (l : list string) : string :=
  match l with
  | [] => ""
  | [s] => s
  | s :: l' => s +:+ sep +:+ join sep l'
  end.

(** Insertion into a list sorted for [key]; equal keys keep the new
    element in front, so that [sorted] below is stable. *)
Fixpoint insert_by {A} (key : A → Z) (x : A) (l : list A) : list A :=
  match l with
  | [] => [x]
  | y :: l' =>
      if decide (key x ≤ key y) then x :: y :: l'
      else y :: insert_by key x l'
  end.

(** [sorted(l, key=key)] for a key that cannot raise: a stable sort. *)
Definition sorted_by {A} (key : A → Z) (l : list A) : list A :=
  foldr (insert_by key) [] l.

(** [sorted(l)] on integers. *)
Definition sorted (l : list Z) : list Z := sorted_by id l.

(** [sorted(l, key=key)] for a key that can raise: all the keys are
    computed first, in list order, then the decorated list is sorted. *)
Definition sorted_key {A} (key : A → res Z) (l : list A) : res (list A) :=
  ks ← comp_res key l;
  Ok ((sorted_by fst (zip ks l)).*2).

End Py.

(** ** Strings: [int], [str.isdigit], [str.format], [os.path] *)

Module Str.

Abbreviation chars := String.list_ascii_of_string.
Abbreviation of_chars := String.string_of_list_ascii.

Definition newline : ascii := "010"%char.

(** [[0-9]] *)
Definition is_digit (c : ascii) : bool :=
  let n := N_of_ascii c in ((48 <=? n) && (n <=? 57))%N.

(** [[0-9a-zA-Z]] *)
Definition is_alnum (c : ascii) : bool :=
  let n := N_of_ascii c in
  (((48 <=? n) && (n <=? 57)) || ((97 <=? n) && (n <=? 122))
   || ((65 <=? n) && (n <=? 90)))%N.

Definition digit_val (c : ascii) : Z := Z.of_N (N_of_ascii c) - 48.

(** [s.isdigit()] *)
Definition isdigit (s : string) : bool :=
  match chars s with
  | [] => false
  | cs => forallb is_digit cs
  end.

(** [(p1, p2)] with [p1] the longest prefix of [l] satisfying [p]. *)
Fixpoint span {A} (p : A → bool) (l : list A) : list A * list A :=
  match l with
  | [] => ([], [])
  | x :: l' =>
      if p x then let '(a, b) := span p l' in (x :: a, b) else ([], l)
  end.

(** Digits with single underscores between them, as [int] accepts. *)
Fixpoint int_digits (acc : Z) (after_digit : bool) (l : list ascii)
    : option Z :=
  match l with
  | [] => if after_digit then Some acc else None
  | c :: l' =>
      if is_digit c then int_digits (10 * acc + digit_val c) true l'
      else if decide (c = "_"%char ∧ after_digit = true)
           then int_digits acc false l'
           else None
  end.

Definition strip (l : list ascii) : list ascii :=
  let l1 := (span Ascii.is_space l).2 in
  reverse (span Ascii.is_space (reverse l1)).2.

(** [int(s)] in base 10: surrounding white space, an optional sign, then
    digits.  (Interpreter limits on the number of digits are not
    modelled.) *)
Definition int (s : string) : res Z :=
  let '(sign, body) :=
    match strip (chars s) with
    | "-"%char :: r => (-1, r)
    | "+"%char :: r => (1, r)
    | cs => (1, cs)
    end in
  match int_digits 0 false body with
  | Some n => Ok (sign * n)
  | None => Raise (ValueError_int s)
  end.

(** [str(n)] *)
Definition str (n : Z) : string := pretty n.

(** ['{:0wd}'.format(n)]: sign first, then zeros up to width [w]. *)
Definition format_0d (w : nat) (n : Z) : string :=
  let sign := if decide (n < 0) then "-" else "" in
  let digits := pretty (Z.abs n) in
  let pad := (w - String.length sign - String.length digits)%nat in
  sign +:+ of_chars (replicate pad "0"%char) +:+ digits.

Definition ends_with_slash (s : string) : bool :=
  match reverse (chars s) with
  | "/"%char :: _ => true
  | _ => false
  end.

(** [os.path.join(a, b)] (POSIX) *)
Definition path_join (a b : string) : string :=
  match chars b with
  | "/"%char :: _ => b
  | _ => if decide (a = "") then b
         else if ends_with_slash a then a +:+ b
         else a +:+ "/" +:+ b
  end.

(** [os.path.basename(p)] (POSIX): what follows the last slash. *)
Definition basename (p : string) : string :=
  of_chars (reverse (span (λ c, bool_decide (c ≠ "/"%char))
                          (reverse (chars p))).1).

End Str.

(** ** The file-number regular expression (lines 403-404)

    [fileNumbering = re.compile('.*-([0-9]+)-[0-9a-zA-Z]+\.[Dd][Cc][Mm]$')],
    used through [fileNumbering.match(f).group(1)].  [match] anchors at the
    start of [f]; [.] is any character but a line feed; [$] is the end of
    [f] or the position before a line feed that ends [f]. *)

Module FileNumbering.
Import Str.

Definition is_d (c : ascii) : bool :=
  bool_decide (c = "d"%char ∨ c = "D"%char).
Definition is_c (c : ascii) : bool :=
  bool_decide (c = "c"%char ∨ c = "C"%char).
Definition is_m (c : ascii) : bool :=
  bool_decide (c = "m"%char ∨ c = "M"%char).

(** The matcher reads [f] from its end: the tail of the pattern leaves no
    choice, and the two dashes have to be the last two of [f]. It takes
    the characters of [f] reversed and gives group 1 reversed. *)
Definition match_rev (r : list ascii) : option (list ascii) :=
  let r := match r with
           | c :: r' => if decide (c = newline) then r' else r
           | [] => r
           end in
  match r with
  | m :: c :: d :: "."%char :: r1 =>
      if is_m m && is_c c && is_d d then
        match span is_alnum r1 with
        | (_ :: _, "-"%char :: r2) =>
            match span is_digit r2 with
            | ((_ :: _) as digits, "-"%char :: r3) =>
                if forallb (λ c, bool_decide (c ≠ newline)) r3
                then Some digits else None
            | _ => None
            end
        | _ => None
        end
      else None
  | _ => None
  end.

(** [fileNumbering.match(f)], reduced to its group 1 ([None] when [f]
    does not match). *)
Definition match_ (f : string) : option string :=
  (λ d, of_chars (reverse d)) <$> match_rev (reverse (chars f)).

(** [fileNumberExtractor = lambda f: int(fileNumbering.match(f).group(1))] *)
Definition fileNumberExtractor (f : string) : res Z :=
  match match_ f with
  | Some d => Str.int d
  | None => Raise (AttributeError_NoneType "group")
  end.

(** The pattern read as a regular expression: [f] matches with group 1
    equal to [d]. *)
Definition matches (f d : list ascii) : Prop :=
  ∃ pre al e1 e2 e3 nl,
    f = pre ++ ["-"%char] ++ d ++ ["-"%char] ++ al
            ++ ["."%char; e1; e2; e3] ++ nl
    ∧ Forall (λ c, c ≠ newline) pre
    ∧ d ≠ [] ∧ Forall (λ c, is_digit c = true) d
    ∧ al ≠ [] ∧ Forall (λ c, is_alnum c = true) al
    ∧ is_d e1 = true ∧ is_c e2 = true ∧ is_m e3 = true
    ∧ (nl = [] ∨ nl = [newline]).

End FileNumbering.

(** ** What the program reads: DICOM headers and directory listings

    The DICOM tree is read, never written, by this program; what it reads
    is gathered in an environment of oracles. *)

(** The header fields of one DICOM file the program looks at. *)
Record Dataset : Type := {
  tag_0019_109c : option string;  (* pulse sequence name *)
  tag_0019_10a2 : option Z;       (* slice index ("RawDataRunNumber") *)
  tag_0020_1002 : option Z;       (* declared number of slices *)
  tag_0020_0105 : option Z        (* declared number of volumes *)
}.

Record Env : Type := {
  (** [glob.glob(pattern)], in the order the file system lists them *)
  glob : string → list string;
  (** the parsed header of a file, [None] when it cannot be parsed *)
  dcmread : string → option Dataset;
  (** [os.walk(top, topdown=True)]: the [(dirpath, dirnames)] it yields *)
  os_walk : string → list (string * list string);
  (** [os.path.normpath(os.path.abspath(p))] *)
  abs_norm : string → string;
  (** the worker pool's scheduler: among the pending tasks, the position
      of the one that completes next (taken modulo their number) *)
  pool_pick : list nat → nat
}.

(** ** What the program changes: directories, manifests, processes *)

Inductive event : Type :=
  | EvMkdir (path : string)
  | EvPoolMap (paths : list string)
  | EvWrite (path content : string)
  | EvPopen (pid : nat) (command : list string) (cwd : string)
  | EvCommunicate (pid : nat)
  | EvRmtree (path : string).

Global Instance event_eq_dec : EqDecision event.
Proof. solve_decision. Defined.

Record Proc : Type := {
  proc_command : list string;
  proc_cwd : string;
  proc_terminated : bool
}.

Record World : Type := {
  dirs : gset string;          (* directories that exist *)
  files : gmap string string;  (* text files and their contents *)
  procs : list Proc;           (* child processes, by pid *)
  trace : list event           (* what was done so far, oldest first *)
}.

Definition log_event (ev : event) (w : World) : World :=
  {| dirs := dirs w; files := files w; procs := procs w;
     trace := trace w ++ [ev] |}.

(** ** The state-and-error monad *)

Definition M (A : Type) : Type := World → res A * World.

Global Instance M_ret : MRet M := λ A a w, (Ok a, w).
Global Instance M_bind : MBind M := λ A B f m w,
  match m w with
  | (Ok a, w') => f a w'
  | (Raise e, w') => (Raise e, w')
  end.

Definition lift {A} (r : res A) : M A := λ w, (r, w).
Definition raise {A} (e : exn) : M A := λ w, (Raise e, w).

(** [for x in l: s = body x s] with effects. *)
Fixpoint for_M {A S : Type} (l : list A) (body : A → S → M S) (s : S)
    : M S :=
  match l with
  | [] => mret s
  | x :: l' => s' ← body x s; for_M l' body s'
  end.

Inductive mkdir_result : Type := Created | FileExists.

(** [os.mkdir(path)] inside [try: ... except FileExistsError: ...]: the
    outcome is returned instead of raised, for the handler to look at. *)
Definition os_mkdir (path : string) : M mkdir_result := λ w,
  if decide (path ∈ dirs w) then (Ok FileExists, w)
  else (Ok Created,
        log_event (EvMkdir path)
          {| dirs := {[path]} ∪ dirs w; files := files w;
             procs := procs w; trace := trace w |}).

(** [p] lies under directory [dir]. *)
Definition is_under (dir p : string) : bool :=
  String.prefix (dir +:+ "/") p.

(** [shutil.rmtree(path)]; a missing directory is an error. *)
Definition rmtree (path : string) : M unit := λ w,
  if decide (path ∈ dirs w) then
    (Ok (),
     log_event (EvRmtree path)
       {| dirs := filter (λ d, d ≠ path ∧ is_under path d = false) (dirs w);
          files := filter (λ kv, is_under path kv.1 = false) (files w);
          procs := procs w; trace := trace w |})
  else (Raise (Exception_msg "FileNotFoundError"), w).

(** [with open(path, 'w') as f: f.write(content)] *)
Definition write_file (path content : string) : M unit := λ w,
  (Ok (),
   log_event (EvWrite path content)
     {| dirs := dirs w; files := <[path := content]> (files w);
        procs := procs w; trace := trace w |}).

(** [subprocess.Popen(command, cwd=cwd, stdout=PIPE)]; the pid is the
    position in the process table. *)
Definition popen (command : list string) (cwd : string) : M nat := λ w,
  let pid := length (procs w) in
  (Ok pid,
   log_event (EvPopen pid command cwd)
     {| dirs := dirs w; files := files w;
        procs := procs w ++ [{| proc_command := command; proc_cwd := cwd;
                                proc_terminated := false |}];
        trace := trace w |}).

(** [proc.communicate()]: returns once the process has terminated. *)
Definition communicate (pid : nat) : M unit := λ w,
  (Ok (),
   log_event (EvCommunicate pid)
     {| dirs := dirs w; files := files w;
        procs := alter (λ p, {| proc_command := proc_command p;
                                proc_cwd := proc_cwd p;
                                proc_terminated := true |}) pid (procs w);
        trace := trace w |}).

(** ** [multiprocessing.Pool.map]

    The tasks complete in an order chosen by the scheduler; each result is
    stored in the slot of its task; the exception re-raised, if any, is
    that of the failing task that completed first. *)

Module Pool.

(** The order in which the [pending] tasks complete under [pick]. *)
Fixpoint completion (pick : list nat → nat) (fuel : nat)
    (pending : list nat) : list nat :=
  match fuel with
  | O => []
  | S fuel' =>
      match pending !! (pick pending `mod` length pending)%nat with
      | Some i =>
          i :: completion pick fuel'
                 (delete (pick pending `mod` length pending)%nat pending)
      | None => []
      end
  end.

Record state (B : Type) : Type := {
  slots : list (option B);
  failure : option exn
}.
Arguments slots {B} _.
Arguments failure {B} _.

(** Task [i] completes. *)
Definition complete {A B} (f : A → res B) (xs : list A)
    (st : state B) (i : nat) : state B :=
  match xs !! i with
  | None => st
  | Some x =>
      match f x with
      | Ok y => {| slots := <[i := Some y]> (slots st);
                   failure := failure st |}
      | Raise e => {| slots := slots st;
                      failure := Some (default e (failure st)) |}
      end
  end.

Definition map {A B} (pick : list nat → nat) (f : A → res B)
    (xs : list A) : res (list B) :=
  let n := length xs in
  let st := foldl (complete f xs)
              {| slots := replicate n None; failure := None |}
              (completion pick n (seq 0 n)) in
  match failure st with
  | Some e => Raise e
  | None =>
      match mapM id (slots st) with
      | Some ys => Ok ys
      | None => Raise (Exception_msg "pool: missing result")
      end
  end.

End Pool.

(** ** The program: [concatenate_multiecho.py] *)

Definition ME_HEADER_CODE : string := "epiRTme".
Definition ME_SUBDIR : string := "medata".

(** [d[k]] on the dict [index_mapping] *)
Definition dict_get (d : gmap Z (list string)) (k : Z) : res (list string) :=
  match d !! k with
  | Some v => Ok v
  | None => Raise (KeyError_int k)
  end.

(** A generator that only reads: what it yields, then the exception that
    ends it, if any. *)
Definition gen (A : Type) : Type := list A * option exn.

(** [list(g)] *)
Definition list_of_gen {A} (g : gen A) : res (list A) :=
  match g.2 with
  | None => Ok g.1
  | Some e => Raise e
  end.

Section program.
Context (env : Env).

(** [dicom.read_file(path, force=True)] and [dicom.dcmread(path, ...)] *)
Definition read_file (path : string) : res Dataset :=
  match dcmread env path with
  | Some ds => Ok ds
  | None => Raise (InvalidDicomError path)
  end.

(** lines 130-159 *)
Definition is_scan_ME (scan_dir : string) : res bool :=
  let files := glob env (Str.path_join scan_dir "*.dcm") in
  if decide (Py.len files = 0) then Ok false
  else
    file0 ← Py.getitem files 0;
    dcm_info ← read_file file0;
    match tag_0019_109c dcm_info with
    | None => Raise (KeyError_tag 0x0019 0x109c)
    | Some v => Ok (bool_decide (v = ME_HEADER_CODE))
    end.

(** lines 99-128; the inner [for dir_ in dirnames] *)
Fixpoint find_scans_in (dirpath : string) (dirnames : list string)
    : gen string :=
  match dirnames with
  | [] => ([], None)
  | dir_ :: rest =>
      if negb (Str.isdigit dir_) then find_scans_in dirpath rest
      else
        let scan_dir := Str.path_join dirpath dir_ in
        match is_scan_ME scan_dir with
        | Raise e => ([], Some e)
        | Ok true =>
            let '(ys, e) := find_scans_in dirpath rest in
            (scan_dir :: ys, e)
        | Ok false => find_scans_in dirpath rest
        end
  end.

(** lines 99-128; the outer [for ... in os.walk(exam_dir)] *)
Fixpoint find_scans_walk (walk : list (string * list string))
    : gen string :=
  match walk with
  | [] => ([], None)
  | (dirpath, dirnames) :: rest =>
      match find_scans_in dirpath dirnames with
      | (ys, Some e) => (ys, Some e)
      | (ys, None) =>
          let '(zs, e) := find_scans_walk rest in (ys ++ zs, e)
      end
  end.

Definition find_scans (exam_dir : string) : gen string :=
  find_scans_walk (os_walk env exam_dir).

(** [[scan_dir for scan_dir in scan_dirs if is_scan_ME(scan_dir)]] *)
Fixpoint filter_ME (scan_dirs : list string) : res (list string) :=
  match scan_dirs with
  | [] => Ok []
  | scan_dir :: rest =>
      b ← is_scan_ME scan_dir;
      ys ← filter_ME rest;
      Ok (if b : bool then scan_dir :: ys else ys)
  end.

(** lines 61-97; [sorted] on strings is by code point *)
Definition get_scan_dirs (exam_dir : option string)
    (scan_dirs : list string) (filter_scan_dirs : bool)
    : res (list string) :=
  if decide (Py.len scan_dirs = 0) then
    match exam_dir with
    | None =>
        Raise (Exception_msg
          "Either an exam_dir to search for scans, or a list of scan_dirs is required.")
    | Some exam_dir =>
        found ← list_of_gen (find_scans exam_dir);
        Ok (merge_sort String.le found)
    end
  else if filter_scan_dirs then filter_ME scan_dirs
  else Ok scan_dirs.

(** lines 216-224; the loop of [find_incomplete_dicom_sets].  Line 224
    reads [yield scan], and no name [scan] is bound there. *)
Fixpoint incomplete_among (scan_dirs : list string) : gen string :=
  match scan_dirs with
  | [] => ([], None)
  | scan_dir :: rest =>
      let files := glob env (Str.path_join scan_dir "*dcm") in
      let check : res bool :=
        file0 ← Py.getitem files 0;
        dcm_info ← read_file file0;
        slice_num ← match tag_0020_1002 dcm_info with
                    | Some v => Ok v
                    | None => Raise (KeyError_tag 0x0020 0x1002)
                    end;
        vol_num ← match tag_0020_0105 dcm_info with
                  | Some v => Ok v
                  | None => Raise (KeyError_tag 0x0020 0x0105)
                  end;
        Ok (bool_decide (vol_num * slice_num ≠ Py.len files)) in
      match check with
      | Raise e => ([], Some e)
      | Ok true => ([], Some (NameError "scan"))
      | Ok false => incomplete_among rest
      end
  end.

(** lines 195-224 *)
Definition find_incomplete_dicom_sets (exam_dir : option string)
    (scan_dirs : list string) : gen string :=
  match get_scan_dirs exam_dir scan_dirs true with
  | Raise e => ([], Some e)
  | Ok scan_dirs => incomplete_among scan_dirs
  end.

(** lines 161-193.  The loop body at lines 191-193 reads the unbound
    names [scan] and [exam]: its first iteration raises. *)
Definition find_incomplete_concatenations (exam_dir : option string)
    (scan_dirs : list string) (echoes : Z) : gen string :=
  match get_scan_dirs exam_dir scan_dirs true with
  | Raise e => ([], Some e)
  | Ok _ =>
      match list_of_gen (find_incomplete_dicom_sets exam_dir []) with
      | Raise e => ([], Some e)
      | Ok _ =>
          match exam_dir with
          | None => ([], Some TypeError_NoneType)
          | Some exam_dir =>
              match find_scans exam_dir with
              | (_ :: _, _) => ([], Some (NameError "scan"))
              | ([], e) => ([], e)
              end
          end
      end
  end.

(** lines 226-261 *)
Definition make_complete (exam_dir : string) (echoes : Z) : M unit :=
  incomplete ← lift (list_of_gen
                       (find_incomplete_dicom_sets (Some exam_dir) []));
  missed ← lift (list_of_gen
                   (find_incomplete_concatenations (Some exam_dir) []
                                                   echoes));
  mret ().

End program.

(** ** [concatenate_scan] (lines 335-487) *)

Section concatenate.
Context (env : Env).

(** line 332-333 *)
Definition get_slice_index (dcm_file : string) : res Z :=
  match dcmread env dcm_file with
  | None => Raise (InvalidDicomError dcm_file)
  | Some ds =>
      match tag_0019_10a2 ds with
      | Some v => Ok v
      | None => Raise (AttributeError_NoneType "value")
      end
  end.

(** lines 381-382: [pool.map(get_slice_index, dicom_list)] *)
Definition extract_indices (dicom_list : list string) : res (list Z) :=
  Pool.map (pool_pick env) get_slice_index dicom_list.

(** lines 396-400, one iteration *)
Definition add_file (index_mapping : gmap Z (list string))
    (fi : string * Z) : gmap Z (list string) :=
  match index_mapping !! fi.2 with
  | Some fs => <[fi.2 := fs ++ [fi.1]]> index_mapping
  | None => <[fi.2 := [fi.1]]> index_mapping
  end.

(** lines 395-400 *)
Definition build_index_mapping (dicom_list : list string)
    (index_list : list Z) : gmap Z (list string) :=
  foldl add_file ∅ (zip dicom_list index_list).

(** lines 407-408.  The keys are visited in the map's own order: the
    order cannot be observed, every failure being the same exception. *)
Definition sort_index_mapping (index_mapping : gmap Z (list string))
    : res (gmap Z (list string)) :=
  for_res (map_to_list index_mapping).*1
    (λ index m,
       fs ← dict_get m index;
       sorted ← Py.sorted_key FileNumbering.fileNumberExtractor fs;
       Ok (<[index := sorted]> m))
    index_mapping.

(** The local variables of lines 411-418. *)
Record Geometry : Type := {
  nTotalSlices : Z;
  nSpatialSlices : Z;
  nSpaceTimeSlices : Z;
  nTimePoints : Z;
  slice_indices : list Z;
  slice_indices_by_echo : list (list Z)
}.

(** lines 411-418 *)
Definition resolve_geometry (index_list : list Z)
    (index_mapping : gmap Z (list string)) (echoes : Z) : res Geometry :=
  let nTotalSlices := Py.len index_list in
  nSpatialSlices ← Py.floordiv (Z.of_nat (size index_mapping)) echoes;
  nSpaceTimeSlices ← Py.floordiv nTotalSlices echoes;
  nTimePoints ← Py.floordiv nTotalSlices (echoes * nSpatialSlices);
  let slice_indices := Py.sorted (map_to_list index_mapping).*1 in
  ks ← Py.range3 0 (nSpatialSlices * echoes) nSpatialSlices;
  Ok {| nTotalSlices := nTotalSlices;
        nSpatialSlices := nSpatialSlices;
        nSpaceTimeSlices := nSpaceTimeSlices;
        nTimePoints := nTimePoints;
        slice_indices := slice_indices;
        slice_indices_by_echo :=
          (λ k, Py.slice slice_indices k (k + nSpatialSlices)) <$> ks |}.

(** lines 426-428: [concat_file_list[nEcho][t][x] = file] *)
Definition place_file (g : Geometry)
    (index_mapping : gmap Z (list string)) (nEcho t x : Z)
    (concat_file_list : list (list (list string)))
    : res (list (list (list string))) :=
  block ← Py.getitem (slice_indices_by_echo g) nEcho;
  index ← Py.getitem block x;
  fs ← dict_get index_mapping index;
  file ← Py.getitem fs t;
  plane ← Py.getitem concat_file_list nEcho;
  row ← Py.getitem plane t;
  row' ← Py.setitem row x file;
  plane' ← Py.setitem plane t row';
  Py.setitem concat_file_list nEcho plane'.

(** line 429: the text of echo [nEcho]'s manifest *)
Definition manifest_text (g : Geometry) (nEcho : Z)
    (concat_file_list : list (list (list string))) : res string :=
  rows ← comp_res
    (λ t, cells ← comp_res
            (λ x, plane ← Py.getitem concat_file_list nEcho;
                  row ← Py.getitem plane t;
                  Py.getitem row x)
            (Py.range (nSpatialSlices g));
          Ok (Py.join " " cells))
    (Py.range (nTimePoints g));
  Ok (Py.join (String Str.newline EmptyString) rows).

(** The lists filled by the loop of lines 423-430. *)
Record Ordering : Type := {
  concat_file_list : list (list (list string));
  concat_files : list (option string);
  infile_lists : list (option string)
}.

Definition infile_list_path (me_dir : string) (nEcho : Z) : string :=
  Str.path_join me_dir ("_me" +:+ Str.str nEcho +:+ "_infilelist").

(** lines 424-428 *)
Definition fill_echo (g : Geometry)
    (index_mapping : gmap Z (list string)) (nEcho : Z)
    (concat_file_list : list (list (list string)))
    : res (list (list (list string))) :=
  for_res (Py.range (nTimePoints g))
    (λ t cfl,
       for_res (Py.range (nSpatialSlices g))
         (λ x cfl, place_file g index_mapping nEcho t x cfl) cfl)
    concat_file_list.

(** lines 424-430: the body of [for nEcho in range(echoes)] *)
Definition echo_step (g : Geometry)
    (index_mapping : gmap Z (list string)) (me_dir : string)
    (nEcho : Z) (o : Ordering) : res Ordering :=
  cfl ← fill_echo g index_mapping nEcho (concat_file_list o);
  text ← manifest_text g nEcho cfl;
  cf ← Py.setitem (concat_files o) nEcho (Some text);
  il ← Py.setitem (infile_lists o) nEcho
         (Some (infile_list_path me_dir nEcho));
  Ok {| concat_file_list := cfl; concat_files := cf;
        infile_lists := il |}.

(** lines 420-430 *)
Definition build_ordering (g : Geometry)
    (index_mapping : gmap Z (list string)) (echoes : Z) (me_dir : string)
    : res Ordering :=
  let nSp := length (Py.range (nSpatialSlices g)) in
  let nT := length (Py.range (nTimePoints g)) in
  let nE := length (Py.range echoes) in
  for_res (Py.range echoes) (echo_step g index_mapping me_dir)
    {| concat_file_list := replicate nE (replicate nT (replicate nSp ""));
       concat_files := replicate nE None;
       infile_lists := replicate nE None |}.

(** lines 389-430: everything between the header reads and the first
    write. *)
Definition arrange (dicom_list : list string) (index_list : list Z)
    (echoes : Z) (me_dir : string) : res (Geometry * Ordering) :=
  r ← Py.mod_ (Py.len index_list) echoes;
  if decide (r ≠ 0) then
    Raise (IndexError_not_divisible (Py.len index_list) echoes)
  else
    let index_mapping := build_index_mapping dicom_list index_list in
    index_mapping ← sort_index_mapping index_mapping;
    g ← resolve_geometry index_list index_mapping echoes;
    o ← build_ordering g index_mapping echoes me_dir;
    Ok (g, o).

Definition from_str (o : option string) : res string :=
  match o with
  | Some s => Ok s
  | None => Raise TypeError_NoneType
  end.

(** lines 432-434 *)
Definition write_manifests (o : Ordering) (echoes : Z) : M unit :=
  for_M (Py.range echoes)
    (λ nEcho _,
       path ← lift (Py.getitem (infile_lists o) nEcho ≫= from_str);
       text ← lift (Py.getitem (concat_files o) nEcho ≫= from_str);
       write_file path text)
    ().

Definition temp_dir_of (me_dir : string) (nEcho : Z) : string :=
  Str.path_join me_dir ("temp_" +:+ Str.str nEcho).

(** line 464 *)
Definition dimon_command (infile_list gert_filename me_dir
    output_filename : string) : list string :=
  ["Dimon"; "-infile_list"; infile_list; "-GERT_Reco"; "-gert_filename";
   gert_filename; "-gert_create_dataset"; "-gert_outdir"; me_dir;
   "-gert_to3d_prefix"; output_filename; "-gert_write_as_nifti"; "-quit"].

(** lines 448-468 *)
Definition dispatch (o : Ordering) (scan_name me_dir : string)
    (echoes : Z) : M (list (option nat)) :=
  for_M (Py.range echoes)
    (λ nEcho dimon_proc,
       n ← lift (Str.int scan_name);
       let output_filename :=
         "run" +:+ Str.format_0d 4 n +:+ ".e" +:+ Str.format_0d 2 nEcho in
       n ← lift (Str.int scan_name);
       let gert_filename :=
         "GERT_Reco_dicom_" +:+ Str.format_0d 3 n +:+ "_e"
           +:+ Str.format_0d 2 nEcho in
       let temp_dir := temp_dir_of me_dir nEcho in
       os_mkdir temp_dir;;
       infile_list ← lift (Py.getitem (infile_lists o) nEcho ≫= from_str);
       pid ← popen (dimon_command infile_list gert_filename me_dir
                      output_filename) temp_dir;
       lift (Py.setitem dimon_proc nEcho (Some pid)))
    (replicate (length (Py.range echoes)) None).

(** lines 473-485 *)
Definition wait_all (dimon_proc : list (option nat)) (me_dir : string)
    (echoes : Z) : M unit :=
  for_M (Py.range echoes)
    (λ nEcho _,
       p ← lift (Py.getitem dimon_proc nEcho);
       match p with
       | None => raise (AttributeError_NoneType "communicate")
       | Some pid =>
           communicate pid;;
           rmtree (temp_dir_of me_dir nEcho)
       end)
    ().

(** lines 357-434: up to and including the manifests *)
Definition order_files (scan_dir : string) (echoes : Z) : M Ordering :=
  let me_dir := Str.path_join scan_dir ME_SUBDIR in
  os_mkdir me_dir;;
  let dicom_list := glob env (Str.path_join scan_dir "*.dcm") in
  (λ w, (Ok (), log_event (EvPoolMap dicom_list) w));;
  index_list ← lift (extract_indices dicom_list);
  go ← lift (arrange dicom_list index_list echoes me_dir);
  write_manifests go.2 echoes;;
  mret go.2.

(** lines 445-485: one reconstructor process per echo *)
Definition run_dimon (o : Ordering) (scan_dir : string) (echoes : Z)
    : M unit :=
  let scan_name := Str.basename (abs_norm env scan_dir) in
  let me_dir := Str.path_join scan_dir ME_SUBDIR in
  dimon_proc ← dispatch o scan_name me_dir echoes;
  wait_all dimon_proc me_dir echoes.

(** lines 335-487 *)
Definition concatenate_scan (scan_dir : string) (echoes : Z) : M unit :=
  o ← order_files scan_dir echoes;
  run_dimon o scan_dir echoes.

(** lines 322-329 *)
Definition concatenate_scans (scan_dirs : list string) (echoes : Z)
    : M unit :=
  for_M scan_dirs (λ scan_dir _, concatenate_scan scan_dir echoes) ();;
  for_M scan_dirs (λ scan_dir _, make_complete env scan_dir echoes) ().

(** lines 318-320 *)
Definition concatenate_subject (subject_dir : string) (echoes : Z)
    : M unit :=
  scan_dirs ← lift (get_scan_dirs env (Some subject_dir) [] true);
  concatenate_scans scan_dirs echoes.

End concatenate.

(** ** The ordering as comprehensions

    What the loops of lines 423-429 compute, written without assignment;
    [build_ordering_comprehension] below shows the two agree. *)

Section table.
Context (g : Geometry) (index_mapping : gmap Z (list string)).

(** lines 426-427: the file of echo [nEcho] at time [t], position [x] *)
Definition cell (nEcho t x : Z) : res string :=
  block ← Py.getitem (slice_indices_by_echo g) nEcho;
  index ← Py.getitem block x;
  fs ← dict_get index_mapping index;
  Py.getitem fs t.

Definition table_row (nEcho t : Z) : res (list string) :=
  comp_res (cell nEcho t) (Py.range (nSpatialSlices g)).

Definition table (nEcho : Z) : res (list (list string)) :=
  comp_res (table_row nEcho) (Py.range (nTimePoints g)).

End table.

(** The text of a manifest: one line per row, paths separated by spaces. *)
Definition manifest_of (rows : list (list string)) : string :=
  Py.join (String Str.newline EmptyString) (Py.join " " <$> rows).


(** The lists of lines 420-421 and 422 once every echo is done. *)
Definition ordering_of (me_dir : string) (es : list Z)
    (tabs : list (list (list string))) : Ordering :=
  {| concat_file_list := tabs;
     concat_files := (λ tab, Some (manifest_of tab)) <$> tabs;
     infile_lists := (λ e, Some (infile_list_path me_dir e)) <$> es |}.

(** ** The index mapping as a function of the scan

    What lines 395-408 compute when every file name matches. *)

(** The sort key as a total function ([0] where line 404 would raise). *)
Definition file_number (f : string) : Z :=
  match FileNumbering.fileNumberExtractor f with
  | Ok n => n
  | Raise _ => 0
  end.

(** The files whose slice index is [i], in the order of [dicom_list]. *)
Definition files_of (dicom_list : list string) (index_list : list Z)
    (i : Z) : list string :=
  (filter (λ fi, fi.2 = i) (zip dicom_list index_list)).*1.

(** [index_mapping] after line 408: each slice index with its files
    ordered by file number. *)
Definition index_mapping_of (dicom_list : list string)
    (index_list : list Z) : gmap Z (list string) :=
  Py.sorted_by file_number <$> build_index_mapping dicom_list index_list.


(** Every path of [fs] matches the pattern of line 403. *)
Definition all_match (fs : list string) : Prop :=
  Forall (λ f, is_Some (FileNumbering.match_ f)) fs.

Global Instance all_match_dec (fs : list string) : Decision (all_match fs).
Proof. unfold all_match. apply _. Defined.

(** Every file of the mapping matches the pattern. *)
Definition good_mapping (m : gmap Z (list string)) : Prop :=
  map_Forall (λ _ fs, all_match fs) m.

Global Instance good_mapping_dec m : Decision (good_mapping m).
Proof. unfold good_mapping. apply _. Defined.


(** ** The geometry as a function of the mapping *)

(** The distinct slice indices in ascending order (line 416). *)
Definition sorted_keys (m : gmap Z (list string)) : list Z :=
  Py.sorted (map_to_list m).*1.

(** Echo [k]'s contiguous block of [nSp] slice indices (line 418). *)
Definition block (S : list Z) (nSp k : nat) : list Z :=
  take nSp (drop (k * nSp) S).

(** The geometry of lines 411-418 for a positive echo count. *)
Definition geometry_of (index_list : list Z) (m : gmap Z (list string))
    (echoes : Z) : Geometry :=
  let nSp := Z.of_nat (size m) / echoes in
  {| nTotalSlices := Py.len index_list;
     nSpatialSlices := nSp;
     nSpaceTimeSlices := Py.len index_list / echoes;
     nTimePoints := Py.len index_list / (echoes * nSp);
     slice_indices := sorted_keys m;
     slice_indices_by_echo :=
       block (sorted_keys m) (Z.to_nat nSp) <$> seq 0 (Z.to_nat echoes) |}.

(** The path placed at echo [e], time [t], position [x], if any. *)
Definition entry (m : gmap Z (list string)) (nSp e t x : nat)
    : option string :=
  i ← sorted_keys m !! (e * nSp + x)%nat;
  fs ← m !! i;
  fs !! t.


(** ** The manifests as a function of the tables *)

(** The world after [write_file] was called on each pair in turn. *)
Definition write_all (l : list (string * string)) (w : World) : World :=
  foldl (λ w pc, (write_file pc.1 pc.2 w).2) w l.

(** Echo by echo, the manifest path and the text written to it. *)
Definition manifests_of (me_dir : string) (echoes : Z)
    (tabs : list (list (list string))) : list (string * string) :=
  zip (infile_list_path me_dir <$> Py.range echoes) (manifest_of <$> tabs).


(** What [os.path.join(a, b)] puts in front of a relative [b]. *)
Definition dir_prefix (a : string) : string :=
  if decide (a = "") then ""
  else if Str.ends_with_slash a then a else a +:+ "/".


(** ** Reading the trace *)

(** Between [w0] and [w] the events [evs] with [P evs] were added. *)
Definition since (w0 w : World) (P : list event → Prop) : Prop :=
  ∃ evs, trace w = trace w0 ++ evs ∧ P evs.

(** Every removal of a directory comes after a [communicate] on a process
    that was started in that directory. *)
Definition waited_before_removal (evs : list event) : Prop :=
  ∀ (j : nat) (path : string),
    evs !! j = Some (EvRmtree path) →
    ∃ (h i pid : nat) (command : list string),
      (h < i < j)%nat
      ∧ evs !! h = Some (EvPopen pid command path)
      ∧ evs !! i = Some (EvCommunicate pid).

Definition is_rmtree (ev : event) : bool :=
  match ev with EvRmtree _ => true | _ => false end.

Definition is_write (ev : event) : bool :=
  match ev with EvWrite _ _ => true | _ => false end.

Definition is_popen (ev : event) : bool :=
  match ev with EvPopen _ _ _ => true | _ => false end.

(** [dimon_proc] holds, echo by echo, a process started in that echo's
    temporary directory. *)
Definition started_in (me_dir : string) (evs : list event)
    (dimon_proc : list (option nat)) : Prop :=
  ∀ (k pid : nat),
    dimon_proc !! k = Some (Some pid) →
    ∃ (h : nat) (command : list string),
      evs !! h = Some (EvPopen pid command
                         (temp_dir_of me_dir (Z.of_nat k))).


(** The manifests a run on [scan_dir] writes, path and text, as the
    headers and file names determine them; none when an exception comes
    before line 432. *)
Definition planned_manifests (env : Env) (scan_dir : string) (echoes : Z)
    : list (string * string) :=
  let me_dir := Str.path_join scan_dir ME_SUBDIR in
  let dicom_list := glob env (Str.path_join scan_dir "*.dcm") in
  match extract_indices env dicom_list with
  | Raise _ => []
  | Ok index_list =>
      match arrange dicom_list index_list echoes me_dir with
      | Raise _ => []
      | Ok go => manifests_of me_dir echoes (concat_file_list go.2)
      end
  end.


(** ** Sample scans *)

Module Sample.

(** The header of a multi-echo file with slice index [i] in a scan
    declared with [slices] slices and [vols] volumes. *)
Definition header (slices vols i : Z) : Dataset :=
  {| tag_0019_109c := Some ME_HEADER_CODE;
     tag_0019_10a2 := Some i;
     tag_0020_1002 := Some slices;
     tag_0020_0105 := Some vols |}.

(** A file system holding one scan directory [scan_dir] with the files
    [scan], each given with its slice index. *)
Definition env (scan_dir : string) (scan : list (string * Z))
    (slices vols : Z) : Env :=
  {| glob := λ pattern,
       if decide (pattern = Str.path_join scan_dir "*.dcm"
                  ∨ pattern = Str.path_join scan_dir "*dcm")
       then scan.*1 else [];
     dcmread := λ path,
       header slices vols <$> (list_to_map scan : gmap string Z) !! path;
     os_walk := λ _, [];
     abs_norm := λ path, path;
     pool_pick := λ pending, length pending |}.

Definition world0 : World :=
  {| dirs := ∅; files := ∅; procs := []; trace := [] |}.

(** Two echoes, two positions, two time points. *)
Definition scan_2x2x2 : list (string * Z) :=
  [("/exam/7/i-1-a.dcm", 1); ("/exam/7/i-2-a.dcm", 2);
   ("/exam/7/i-3-a.dcm", 3); ("/exam/7/i-4-a.dcm", 4);
   ("/exam/7/i-5-a.dcm", 1); ("/exam/7/i-6-a.dcm", 2);
   ("/exam/7/i-7-a.dcm", 3); ("/exam/7/i-8-a.dcm", 4)].

(** Six files with five distinct slice indices. *)
Definition scan_5_indices : list (string * Z) :=
  [("/exam/7/i-1-a.dcm", 1); ("/exam/7/i-2-a.dcm", 2);
   ("/exam/7/i-3-a.dcm", 3); ("/exam/7/i-4-a.dcm", 4);
   ("/exam/7/i-5-a.dcm", 5); ("/exam/7/i-6-a.dcm", 5)].

(** Six files, four slice indices, the last with three files. *)
Definition scan_repeats : list (string * Z) :=
  [("/exam/7/i-1-a.dcm", 1); ("/exam/7/i-2-a.dcm", 2);
   ("/exam/7/i-3-a.dcm", 3); ("/exam/7/i-4-a.dcm", 4);
   ("/exam/7/i-5-a.dcm", 4); ("/exam/7/i-6-a.dcm", 4)].

(** Four files, the first slice index with three of them. *)
Definition scan_short : list (string * Z) :=
  [("/exam/7/i-1-a.dcm", 1); ("/exam/7/i-2-a.dcm", 1);
   ("/exam/7/i-3-a.dcm", 1); ("/exam/7/i-4-a.dcm", 2)].

(** Three files. *)
Definition scan_3_files : list (string * Z) :=
  [("/exam/7/i-1-a.dcm", 1); ("/exam/7/i-2-a.dcm", 2);
   ("/exam/7/i-3-a.dcm", 3)].

(** Four files of a scan declared with 2 slices and 3 volumes. *)
Definition scan_aborted : list (string * Z) :=
  [("/exam/7/i-1-a.dcm", 1); ("/exam/7/i-2-a.dcm", 2);
   ("/exam/7/i-3-a.dcm", 3); ("/exam/7/i-4-a.dcm", 4)].

(** A directory whose name holds a line feed. *)
Definition line_feed_dir : string :=
  "/exam/" +:+ String Str.newline "7".

Definition scan_line_feed : list (string * Z) :=
  [(line_feed_dir +:+ "/i-1-a.dcm", 1);
   (line_feed_dir +:+ "/i-2-a.dcm", 2)].

(** One file whose name has no file number. *)
Definition scan_bad_name : list (string * Z) :=
  [("/exam/7/i-1-a.dcm", 1); ("/exam/7/image.dcm", 2)].

End Sample.


(** The number of distinct slice indices of a scan. *)
Definition distinct_count (index_list : list Z) : nat :=
  size (list_to_set index_list : gset Z).


(** ** Coordinates in the ordering *)

(** [concat_file_list[e][t][x]] *)
Definition cell_at (o : Ordering) (e t x : nat) : option string :=
  rows ← concat_file_list o !! e; row ← rows !! t; row !! x.

(** The column of the first cell of [row] that holds [p]. *)
Fixpoint find_in_row (p : string) (row : list string) : option nat :=
  match row with
  | [] => None
  | c :: row' =>
      if decide (c = p) then Some 0%nat else S <$> find_in_row p row'
  end.

(** The line and column of the first cell of [rows] that holds [p]. *)
Fixpoint find_in_rows (p : string) (rows : list (list string))
    : option (nat * nat) :=
  match rows with
  | [] => None
  | row :: rows' =>
      match find_in_row p row with
      | Some x => Some (0%nat, x)
      | None => (λ tx, (S tx.1, tx.2)) <$> find_in_rows p rows'
      end
  end.

(** The manifest, line and column of the first cell that holds [p]. *)
Fixpoint find_in_tables (p : string) (tabs : list (list (list string)))
    : option (nat * nat * nat) :=
  match tabs with
  | [] => None
  | rows :: tabs' =>
      match find_in_rows p rows with
      | Some tx => Some (0%nat, tx.1, tx.2)
      | None => (λ etx, (S etx.1.1, etx.1.2, etx.2)) <$> find_in_tables p tabs'
      end
  end.

(** The coordinates (echo, time point, position) of path [p], read off
    the layout of the manifests. *)
Definition coordinates_of (o : Ordering) (p : string)
    : option (nat * nat * nat) :=
  find_in_tables p (concat_file_list o).


(** ** Schedulers and completeness *)

(** The same files and headers under another pool scheduler. *)
Definition with_scheduler (env : Env) (pick : list nat → nat) : Env :=
  {| glob := glob env; dcmread := dcmread env; os_walk := os_walk env;
     abs_norm := abs_norm env; pool_pick := pick |}.

(** The scan in [scan_dir] has as many files as its first header
    declares: slices times volumes (lines 217-223). *)
Definition complete (env : Env) (scan_dir : string) : Prop :=
  ∃ file0 dcm_info slice_num vol_num,
    glob env (Str.path_join scan_dir "*dcm") !! 0%nat = Some file0
    ∧ dcmread env file0 = Some dcm_info
    ∧ tag_0020_1002 dcm_info = Some slice_num
    ∧ tag_0020_0105 dcm_info = Some vol_num
    ∧ vol_num * slice_num
      = Py.len (glob env (Str.path_join scan_dir "*dcm")).

(** As [complete], with a file count that differs from the product. *)
Definition incomplete (env : Env) (scan_dir : string) : Prop :=
  ∃ file0 dcm_info slice_num vol_num,
    glob env (Str.path_join scan_dir "*dcm") !! 0%nat = Some file0
    ∧ dcmread env file0 = Some dcm_info
    ∧ tag_0020_1002 dcm_info = Some slice_num
    ∧ tag_0020_0105 dcm_info = Some vol_num
    ∧ vol_num * slice_num
      ≠ Py.len (glob env (Str.path_join scan_dir "*dcm")).


(** ** Discovery read as a comprehension *)

Global Instance res_eq_dec {A} `{EqDecision A} : EqDecision (res A).
Proof. solve_decision. Defined.

(** The directories [find_scans] looks into, in the order it does: for
    each directory of the walk, its subdirectories with an all-digit name
    (lines 116-123). *)
Definition numbered_dirs (walk : list (string * list string)) : list string :=
  walk ≫= λ dd, Str.path_join dd.1 <$> filter (λ d, Str.isdigit d = true) dd.2.

(** [is_scan_ME] returned [True]. *)
Definition is_ME (env : Env) (scan_dir : string) : Prop :=
  is_scan_ME env scan_dir = Ok true.

(** The generator of lines 116-128 over the directories it looks into:
    what it yields before the first header it cannot read. *)
Fixpoint scan_among (env : Env) (cands : list string) : gen string :=
  match cands with
  | [] => ([], None)
  | scan_dir :: rest =>
      match is_scan_ME env scan_dir with
      | Raise e => ([], Some e)
      | Ok true =>
          let '(ys, e) := scan_among env rest in (scan_dir :: ys, e)
      | Ok false => scan_among env rest
      end
  end.

Global Instance is_ME_dec (env : Env) (scan_dir : string) :
  Decision (is_ME env scan_dir).
Proof. unfold is_ME. apply _. Defined.

(** An exam directory [/exam] holding a multi-echo scan [7] of eight
    files (declared: 4 slices, 2 volumes), an empty numbered directory
    [12] and a directory of notes. *)
Module SampleExam.

Definition env : Env :=
  {| glob := λ pattern,
       if decide (pattern = "/exam/7/*.dcm" ∨ pattern = "/exam/7/*dcm")
       then Sample.scan_2x2x2.*1 else [];
     dcmread := λ path,
       Sample.header 4 2
         <$> (list_to_map Sample.scan_2x2x2 : gmap string Z) !! path;
     os_walk := λ top,
       if decide (top = "/exam")
       then [("/exam", ["12"; "7"; "notes"]); ("/exam/12", []);
             ("/exam/7", []); ("/exam/notes", [])]
       else [];
     abs_norm := λ path, path;
     pool_pick := λ pending, 0%nat |}.

End SampleExam.

(** ** What a run starts and leaves behind *)

(** The reconstructor process of echo [nEcho] for scan number [n], as
    lines 452-468 start it. *)
Definition reconstructor (n : Z) (me_dir : string) (terminated : bool)
    (nEcho : Z) : Proc :=
  {| proc_command :=
       dimon_command (infile_list_path me_dir nEcho)
         ("GERT_Reco_dicom_" +:+ Str.format_0d 3 n +:+ "_e"
            +:+ Str.format_0d 2 nEcho)
         me_dir
         ("run" +:+ Str.format_0d 4 n +:+ ".e" +:+ Str.format_0d 2 nEcho);
     proc_cwd := temp_dir_of me_dir nEcho;
     proc_terminated := terminated |}.

(** The events of the three phases of a run: preparing the manifests,
    starting the reconstructors, waiting for them. *)
Definition is_setup (ev : event) : bool :=
  match ev with
  | EvMkdir _ | EvPoolMap _ | EvWrite _ _ => true
  | _ => false
  end.

Definition is_start (ev : event) : bool :=
  match ev with EvMkdir _ | EvPopen _ _ _ => true | _ => false end.

Definition is_wait (ev : event) : bool :=
  match ev with EvCommunicate _ | EvRmtree _ => true | _ => false end.

(** ** Reading a manifest back *)

(** [s.split(sep)] for a one-character separator, on character lists. *)
Fixpoint split_on (sep : ascii) (l : list ascii) : list (list ascii) :=
  match l with
  | [] => [[]]
  | c :: l' =>
      if decide (c = sep) then [] :: split_on sep l'
      else match split_on sep l' with
           | [] => [[c]]
           | p :: ps => (c :: p) :: ps
           end
  end.

(** A path a manifest can hold: not empty, without space or line feed. *)
Definition plain_path (p : string) : Prop :=
  p ≠ ""
  ∧ Forall (λ c, c ≠ " "%char ∧ c ≠ Str.newline) (Str.chars p).

(** A table of such paths without an empty row. *)
Definition plain_table (rows : list (list string)) : Prop :=
  Forall (λ row, row ≠ [] ∧ Forall plain_path row) rows.

Global Instance plain_path_dec (p : string) : Decision (plain_path p).
Proof. unfold plain_path. apply _. Defined.

Global Instance plain_table_dec (rows : list (list string)) :
  Decision (plain_table rows).
Proof. unfold plain_table. apply _. Defined.

(** * Properties *)

(** ** The error monad and its loops *)

Lemma res_bind_Ok {A B} (f : A → res B) (r : res A) (b : B) :
  r ≫= f = Ok b ↔ ∃ a, r = Ok a ∧ f a = Ok b.
Proof. destruct r; simpl; split; [eauto|intros (?&[=]&?); by subst|done|intros (?&[=]&?)]. Qed.

Lemma comp_res_Ok {A B} (f : A → res B) (l : list A) (ys : list B) :
  comp_res f l = Ok ys ↔ Forall2 (λ x y, f x = Ok y) l ys.
Proof.
  revert ys. induction l as [|x l IH]; intros ys; simpl.
  - split; [intros [= <-]; constructor | by inversion 1].
  - split.
    + destruct (f x) eqn:Hx; simpl; [|done].
      destruct (comp_res f l) eqn:Hl; simpl; [|done].
      intros [= <-]. constructor; [done|]. by apply IH.
    + inversion 1 as [|? y ? ys' Hx Hl]; subst. rewrite Hx. simpl.
      apply IH in Hl. by rewrite Hl.
Qed.

Lemma comp_res_fmap {A B} (f : A → B) (l : list A) :
  comp_res (λ x, Ok (f x)) l = Ok (f <$> l).
Proof. induction l as [|x l IH]; simpl; [done|]. by rewrite IH. Qed.

Lemma comp_res_ext {A B} (f g : A → res B) (l : list A) :
  (∀ x, x ∈ l → f x = g x) → comp_res f l = comp_res g l.
Proof.
  induction l as [|x l IH]; intros H; simpl; [done|].
  rewrite (H x) by left. rewrite IH; [done|]. intros. apply H. by right.
Qed.

Lemma comp_res_length {A B} (f : A → res B) (l : list A) (ys : list B) :
  comp_res f l = Ok ys → length ys = length l.
Proof. intros H%comp_res_Ok. symmetry. by eapply Forall2_length. Qed.

(** A comprehension fails exactly when [f] fails on an element, and then
    with the exception of the first such element. *)
Lemma comp_res_Raise {A B} (f : A → res B) (l : list A) (e : exn) :
  comp_res f l = Raise e ↔
  ∃ l1 x l2, l = l1 ++ x :: l2 ∧ f x = Raise e
             ∧ Forall (λ y, is_Ok (f y)) l1.
Proof.
  split.
  - induction l as [|x l IH]; simpl; [done|].
    destruct (f x) as [y|e'] eqn:Hx; simpl.
    + destruct (comp_res f l) as [ys|e''] eqn:Hl; simpl; [done|].
      intros [= ->]. destruct IH as (l1&x'&l2&->&Hx'&Hok); [done|].
      exists (x :: l1), x', l2. split_and!; [done..|].
      constructor; [by eexists|done].
    + intros [= ->]. exists [], x, l. by split_and!.
  - intros (l1&x&l2&->&Hx&Hok).
    induction Hok as [|z l1 [y Hz] _ IH]; simpl.
    + by rewrite Hx.
    + by rewrite Hz, IH.
Qed.

Lemma comp_res_total {A B} (f : A → res B) (l : list A) :
  Forall (λ x, is_Ok (f x)) l → is_Ok (comp_res f l).
Proof.
  induction 1 as [|x l [y Hy] _ [ys IH]]; simpl; [by eexists|].
  rewrite Hy, IH. by eexists.
Qed.

Lemma for_res_fmap {A A' S} (h : A' → A) (body : A → S → res S)
    (l : list A') (s : S) :
  for_res (h <$> l) body s = for_res l (λ x, body (h x)) s.
Proof.
  revert s. induction l as [|x l IH]; intros s; simpl; [done|].
  destruct (body (h x) s); simpl; [apply IH|done].
Qed.

(** A loop on a part [t] of the state, embedded by [emb], is the loop on
    that part alone. *)
Lemma for_res_embed {A S T} (emb : T → S) (P : T → Prop)
    (body : A → S → res S) (body' : A → T → res T) (l : list A) (t : T) :
  (∀ a t, a ∈ l → P t → body a (emb t) = emb <$> body' a t) →
  (∀ a t t', a ∈ l → P t → body' a t = Ok t' → P t') →
  P t →
  for_res l body (emb t) = emb <$> for_res l body' t.
Proof.
  revert t. induction l as [|a l IH]; intros t Hb HP Ht; simpl; [done|].
  rewrite Hb by (done || left). destruct (body' a t) as [t'|e] eqn:Ha; simpl; [|done].
  apply IH.
  - intros. apply Hb; [by right|done].
  - intros ????. apply HP. by right.
  - eapply HP; [left|done..].
Qed.

(** ** Python built-ins on indices in range *)

Lemma len_nonneg {A} (l : list A) : 0 ≤ Py.len l.
Proof. unfold Py.len. lia. Qed.

Lemma range_length n : length (Py.range n) = Z.to_nat n.
Proof. unfold Py.range. by rewrite length_fmap, length_seq. Qed.

Lemma range_lookup n (i : nat) :
  (i < Z.to_nat n)%nat → Py.range n !! i = Some (Z.of_nat i).
Proof.
  intros Hi. unfold Py.range. rewrite list_lookup_fmap, lookup_seq_lt by done.
  done.
Qed.

Lemma elem_of_range n x : x ∈ Py.range n ↔ 0 ≤ x < n.
Proof.
  unfold Py.range. rewrite list_elem_of_fmap. setoid_rewrite elem_of_seq.
  split.
  - intros (i&->&Hi). lia.
  - intros Hx. exists (Z.to_nat x). lia.
Qed.

Lemma getitem_nat {A} (l : list A) (i : nat) :
  Py.getitem l (Z.of_nat i) =
  match l !! i with Some x => Ok x | None => Raise IndexError_list_index end.
Proof.
  unfold Py.getitem, Py.norm_index.
  destruct (decide (Z.of_nat i < 0)) as [|_]; [lia|].
  destruct (decide (0 ≤ Z.of_nat i)) as [_|]; [|lia].
  by rewrite Nat2Z.id.
Qed.

Lemma getitem_Ok {A} (l : list A) (i : Z) (x : A) :
  0 ≤ i → l !! Z.to_nat i = Some x → Py.getitem l i = Ok x.
Proof.
  intros Hi Hx. rewrite <-(Z2Nat.id i) by done. by rewrite getitem_nat, Hx.
Qed.

Lemma getitem_short {A} (l : list A) (i : Z) :
  Py.len l ≤ i → Py.getitem l i = Raise IndexError_list_index.
Proof.
  intros Hi. pose proof (len_nonneg l).
  rewrite <-(Z2Nat.id i) by lia. rewrite getitem_nat.
  rewrite (proj2 (lookup_ge_None _ _)); [done|]. unfold Py.len in Hi. lia.
Qed.

Lemma setitem_nat {A} (l : list A) (i : nat) (v : A) :
  (i < length l)%nat → Py.setitem l (Z.of_nat i) v = Ok (<[i := v]> l).
Proof.
  intros Hi. unfold Py.setitem, Py.norm_index, Py.len.
  destruct (decide (Z.of_nat i < 0)) as [|_]; [lia|].
  rewrite decide_True by lia. by rewrite Nat2Z.id.
Qed.

(** [for x in range(n): row[x] = f(x)] fills [row] with the values of
    [f], as the comprehension [[f(x) for x in range(n)]] does. *)
Lemma for_res_fill_from {B} (f : Z → res B) (pre suf : list B) :
  for_res (Z.of_nat <$> seq (length pre) (length suf))
    (λ x row, v ← f x; Py.setitem row x v) (pre ++ suf)
  = ys ← comp_res f (Z.of_nat <$> seq (length pre) (length suf));
    Ok (pre ++ ys).
Proof.
  revert pre. induction suf as [|b suf IH]; intros pre; simpl.
  - by rewrite app_nil_r.
  - destruct (f (Z.of_nat (length pre))) as [v|e] eqn:Hv; simpl; [|done].
    rewrite setitem_nat by (rewrite length_app; simpl; lia). simpl.
    replace (<[length pre := v]> (pre ++ b :: suf)) with ((pre ++ [v]) ++ suf).
    2:{ rewrite insert_app_r_alt by lia. rewrite Nat.sub_diag. simpl.
        by rewrite <-app_assoc. }
    specialize (IH (pre ++ [v])). rewrite length_app in IH. simpl in IH.
    rewrite Nat.add_1_r in IH. unfold fmap in IH. rewrite IH.
    destruct (comp_res f _); simpl; [|done]. by rewrite <-app_assoc.
Qed.

Lemma for_res_fill {B} (f : Z → res B) (n : Z) (row : list B) :
  length row = Z.to_nat n →
  for_res (Py.range n) (λ x row, v ← f x; Py.setitem row x v) row
  = comp_res f (Py.range n).
Proof.
  intros Hn. unfold Py.range. rewrite <-Hn.
  etrans; [exact (for_res_fill_from f [] row)|].
  simpl. by destruct (comp_res f _).
Qed.

(** ** The loops of [build_ordering] are comprehensions *)

Section ordering_loops.
Context (g : Geometry) (index_mapping : gmap Z (list string)).

Lemma place_file_spec (e t x : Z) cfl plane row :
  0 ≤ e → 0 ≤ t → 0 ≤ x →
  cfl !! Z.to_nat e = Some plane →
  plane !! Z.to_nat t = Some row →
  (Z.to_nat x < length row)%nat →
  place_file g index_mapping e t x cfl =
  file ← cell g index_mapping e t x;
  Ok (<[Z.to_nat e := <[Z.to_nat t := <[Z.to_nat x := file]> row]> plane]> cfl).
Proof.
  intros He Ht Hx Hplane Hrow Hlen. unfold place_file, cell.
  destruct (Py.getitem (slice_indices_by_echo g) e) as [block|]; simpl; [|done].
  destruct (Py.getitem block x) as [index|]; simpl; [|done].
  destruct (dict_get index_mapping index) as [fs|]; simpl; [|done].
  destruct (Py.getitem fs t) as [file|]; simpl; [|done].
  rewrite (getitem_Ok _ _ _ He Hplane). simpl.
  rewrite (getitem_Ok _ _ _ Ht Hrow). simpl.
  rewrite <-(Z2Nat.id x) at 1 by done. rewrite setitem_nat by done. simpl.
  rewrite <-(Z2Nat.id t) at 1 by done.
  rewrite setitem_nat by (by eapply lookup_lt_Some). simpl.
  rewrite <-(Z2Nat.id e) at 1 by done.
  by rewrite setitem_nat by (by eapply lookup_lt_Some).
Qed.

(** lines 425-428 *)
Lemma x_loop_spec (e t : Z) cfl plane row :
  0 ≤ e → 0 ≤ t →
  cfl !! Z.to_nat e = Some plane →
  plane !! Z.to_nat t = Some row →
  length row = Z.to_nat (nSpatialSlices g) →
  for_res (Py.range (nSpatialSlices g))
    (λ x cfl, place_file g index_mapping e t x cfl) cfl =
  row' ← table_row g index_mapping e t;
  Ok (<[Z.to_nat e := <[Z.to_nat t := row']> plane]> cfl).
Proof.
  intros He Ht Hplane Hrow Hlen.
  set (emb := λ r : list string,
         <[Z.to_nat e := <[Z.to_nat t := r]> plane]> cfl).
  assert (cfl = emb row) as Hcfl.
  { unfold emb. by rewrite (list_insert_id plane), (list_insert_id cfl). }
  rewrite Hcfl at 1.
  rewrite (for_res_embed emb (λ r, length r = Z.to_nat (nSpatialSlices g))
             _ (λ x r, v ← cell g index_mapping e t x; Py.setitem r x v)).
  - rewrite for_res_fill by done. unfold table_row.
    by destruct (comp_res _ _).
  - intros x r [Hx0 Hx1]%elem_of_range Hr.
    rewrite (place_file_spec e t x (emb r) (<[Z.to_nat t := r]> plane) r);
      [|done..| | |lia].
    + destruct (cell g index_mapping e t x) as [file|]; simpl; [|done].
      rewrite <-(Z2Nat.id x) at 2 by done. rewrite setitem_nat by lia.
      simpl. unfold emb.
      by rewrite !list_insert_insert_eq.
    + unfold emb. apply list_lookup_insert_eq. by eapply lookup_lt_Some.
    + apply list_lookup_insert_eq. by eapply lookup_lt_Some.
  - intros x r r' [Hx0 Hx1]%elem_of_range Hr.
    destruct (cell g index_mapping e t x) as [file|]; simpl; [|done].
    rewrite <-(Z2Nat.id x) by done. rewrite setitem_nat by lia.
    intros [= <-]. by rewrite length_insert.
  - done.
Qed.

(** lines 424-428 *)
Lemma t_loop_spec (e : Z) cfl plane :
  0 ≤ e →
  cfl !! Z.to_nat e = Some plane →
  length plane = Z.to_nat (nTimePoints g) →
  Forall (λ r, length r = Z.to_nat (nSpatialSlices g)) plane →
  fill_echo g index_mapping e cfl =
  tab ← table g index_mapping e;
  Ok (<[Z.to_nat e := tab]> cfl).
Proof.
  intros He Hplane Hlen Hrows. unfold fill_echo.
  set (emb := λ p : list (list string), <[Z.to_nat e := p]> cfl).
  set (P := λ p : list (list string),
         length p = Z.to_nat (nTimePoints g)
         ∧ Forall (λ r, length r = Z.to_nat (nSpatialSlices g)) p).
  assert (cfl = emb plane) as Hcfl.
  { unfold emb. by rewrite list_insert_id. }
  rewrite Hcfl at 1.
  rewrite (for_res_embed emb P _
             (λ t p, v ← table_row g index_mapping e t; Py.setitem p t v)).
  - rewrite for_res_fill by done. unfold table.
    by destruct (comp_res _ _).
  - intros t p [Ht0 Ht1]%elem_of_range [Hp1 Hp2].
    assert (Z.to_nat t < length p)%nat as Htp by lia.
    destruct (lookup_lt_is_Some_2 p _ Htp) as [row Hrow].
    rewrite (x_loop_spec e t (emb p) p row); [|done..| |done|].
    + destruct (table_row g index_mapping e t) as [row'|]; simpl; [|done].
      rewrite <-(Z2Nat.id t) at 2 by done. rewrite setitem_nat by lia.
      simpl. unfold emb. by rewrite list_insert_insert_eq.
    + unfold emb. apply list_lookup_insert_eq. by eapply lookup_lt_Some.
    + by eapply (Forall_lookup_1 _ _ _ _ Hp2).
  - intros t p p' [Ht0 Ht1]%elem_of_range [Hp1 Hp2].
    destruct (table_row g index_mapping e t) as [row'|] eqn:Hr; simpl; [|done].
    rewrite <-(Z2Nat.id t) by done. rewrite setitem_nat by lia.
    intros [= <-]. split; [by rewrite length_insert|].
    apply Forall_insert; [done|].
    apply comp_res_length in Hr. by rewrite Hr, range_length.
  - done.
Qed.

End ordering_loops.

Lemma comp_res_indexed {A B} (f : Z → res B) (h : A → B) (n : Z)
    (l : list A) :
  length l = Z.to_nat n →
  (∀ (i : nat) a, l !! i = Some a → f (Z.of_nat i) = Ok (h a)) →
  comp_res f (Py.range n) = Ok (h <$> l).
Proof.
  intros Hlen Hf. apply comp_res_Ok.
  apply Forall2_same_length_lookup_2.
  - by rewrite range_length, length_fmap.
  - intros i x y Hx Hy.
    assert (i < Z.to_nat n)%nat as Hi.
    { apply lookup_lt_Some in Hx. by rewrite range_length in Hx. }
    rewrite range_lookup in Hx by done. simplify_eq.
    rewrite list_lookup_fmap in Hy.
    destruct (l !! i) as [a|] eqn:Ha; simplify_eq/=. by apply Hf.
Qed.

Section ordering_outer.
Context (g : Geometry) (index_mapping : gmap Z (list string)).

(** line 429 *)
Lemma manifest_text_spec (e : Z) cfl tab :
  0 ≤ e →
  cfl !! Z.to_nat e = Some tab →
  length tab = Z.to_nat (nTimePoints g) →
  Forall (λ r, length r = Z.to_nat (nSpatialSlices g)) tab →
  manifest_text g e cfl = Ok (manifest_of tab).
Proof.
  intros He Htab Hlen Hrows. unfold manifest_text, manifest_of.
  rewrite (comp_res_indexed _ (Py.join " ") _ tab); [done..|].
  intros t row Hrow.
  rewrite (comp_res_indexed _ id _ row).
  - by rewrite list_fmap_id.
  - by eapply (Forall_lookup_1 _ _ _ _ Hrows).
  - intros x c Hc. rewrite (getitem_Ok _ _ _ He Htab). simpl.
    rewrite getitem_nat, Hrow. simpl. by rewrite getitem_nat, Hc.
Qed.

Lemma table_shape (e : Z) tab :
  table g index_mapping e = Ok tab →
  length tab = Z.to_nat (nTimePoints g)
  ∧ Forall (λ r, length r = Z.to_nat (nSpatialSlices g)) tab.
Proof.
  intros H. split.
  - apply comp_res_length in H. by rewrite H, range_length.
  - apply comp_res_Ok in H. apply Forall_forall. intros r Hr.
    apply list_elem_of_lookup in Hr as [i Hi].
    destruct (Forall2_lookup_r _ _ _ _ _ H Hi) as (t&_&Ht).
    apply comp_res_length in Ht. by rewrite Ht, range_length.
Qed.

End ordering_outer.

Section ordering_echoes.
Context (g : Geometry) (index_mapping : gmap Z (list string)).
Context (me_dir : string).

Let init_plane : list (list string) :=
  replicate (length (Py.range (nTimePoints g)))
    (replicate (length (Py.range (nSpatialSlices g))) "").

Lemma init_plane_shape :
  length init_plane = Z.to_nat (nTimePoints g)
  ∧ Forall (λ r, length r = Z.to_nat (nSpatialSlices g)) init_plane.
Proof.
  unfold init_plane. rewrite length_replicate, !range_length. split; [done|].
  apply Forall_replicate. by rewrite length_replicate.
Qed.

(** lines 424-430 *)
Lemma echo_step_spec (e : nat) (o : Ordering) plane :
  concat_file_list o !! e = Some plane →
  length plane = Z.to_nat (nTimePoints g) →
  Forall (λ r, length r = Z.to_nat (nSpatialSlices g)) plane →
  (e < length (concat_files o))%nat →
  (e < length (infile_lists o))%nat →
  echo_step g index_mapping me_dir (Z.of_nat e) o =
  tab ← table g index_mapping (Z.of_nat e);
  Ok {| concat_file_list := <[e := tab]> (concat_file_list o);
        concat_files := <[e := Some (manifest_of tab)]> (concat_files o);
        infile_lists :=
          <[e := Some (infile_list_path me_dir (Z.of_nat e))]>
            (infile_lists o) |}.
Proof.
  intros Hplane Hs1 Hs2 Hcf Hil. unfold echo_step.
  rewrite (t_loop_spec g index_mapping _ _ plane);
    [|lia|by rewrite Nat2Z.id|done..].
  destruct (table g index_mapping (Z.of_nat e)) as [tab|] eqn:Htab;
    simpl; [|done].
  destruct (table_shape _ _ _ _ Htab) as [Ht1 Ht2].
  rewrite Nat2Z.id.
  rewrite (manifest_text_spec g _ _ tab); [|lia| |done..].
  2:{ rewrite Nat2Z.id. apply list_lookup_insert_eq.
      by eapply lookup_lt_Some. }
  simpl. by rewrite !setitem_nat by done.
Qed.

(** lines 423-430, from echo [length pre] on *)
Lemma e_loop_from (pre : list (list (list string))) (k : nat) :
  for_res (Z.of_nat <$> seq (length pre) k)
    (echo_step g index_mapping me_dir)
    {| concat_file_list := pre ++ replicate k init_plane;
       concat_files :=
         ((λ tab, Some (manifest_of tab)) <$> pre) ++ replicate k None;
       infile_lists :=
         ((λ e, Some (infile_list_path me_dir e))
            <$> (Z.of_nat <$> seq 0 (length pre))) ++ replicate k None |}
  = tabs ← comp_res (table g index_mapping)
             (Z.of_nat <$> seq (length pre) k);
    Ok (ordering_of me_dir (Z.of_nat <$> seq 0 (length pre + k))
          (pre ++ tabs)).
Proof.
  revert pre. induction k as [|k IH]; intros pre.
  - simpl. unfold ordering_of. by rewrite Nat.add_0_r, !app_nil_r.
  - rewrite !replicate_S. cbn [seq fmap list_fmap for_res comp_res].
    destruct init_plane_shape as [Hs1 Hs2].
    rewrite (echo_step_spec _ _ init_plane); cbn [concat_file_list concat_files infile_lists];
      [|by rewrite list_lookup_middle|done..| |].
    2,3: rewrite length_app, ?length_fmap, ?length_seq; simpl; lia.
    destruct (table g index_mapping (Z.of_nat (length pre))) as [tab|] eqn:Htab;
      simpl; [|done].
    rewrite insert_app_r_alt, Nat.sub_diag by lia.
    rewrite !(insert_app_r_alt _ _ (length pre))
      by (rewrite ?length_fmap, ?length_seq; lia).
    rewrite !length_fmap, ?length_seq, Nat.sub_diag. simpl.
    specialize (IH (pre ++ [tab])).
    rewrite length_app in IH. simpl in IH. rewrite Nat.add_1_r in IH.
    rewrite seq_S, !fmap_app in IH. simpl in IH.
    rewrite <-!app_assoc in IH. simpl in IH. unfold fmap in IH |- *.
    rewrite IH.
    destruct (comp_res _ _); simpl; [|done].
    by rewrite <-app_assoc, Nat.add_succ_r.
Qed.

(** lines 420-430: the loops with their assignments compute the
    comprehension [[table(e) for e in range(echoes)]]. *)
Lemma build_ordering_comprehension (echoes : Z) :
  build_ordering g index_mapping echoes me_dir =
  tabs ← comp_res (table g index_mapping) (Py.range echoes);
  Ok (ordering_of me_dir (Py.range echoes) tabs).
Proof.
  unfold build_ordering. rewrite range_length.
  exact (e_loop_from [] (Z.to_nat echoes)).
Qed.

End ordering_echoes.

(** ** The file-number pattern *)

Lemma span_app {A} (p : A → bool) (a b : list A) :
  Forall (λ x, p x = true) a →
  (∀ y b', b = y :: b' → p y = false) →
  Str.span p (a ++ b) = (a, b).
Proof.
  intros Ha Hb. induction Ha as [|x a Hx _ IH]; simpl.
  - destruct b as [|y b']; [done|]. simpl. by rewrite (Hb y b').
  - by rewrite Hx, IH.
Qed.

Lemma span_inv {A} (p : A → bool) (l a b : list A) :
  Str.span p l = (a, b) →
  l = a ++ b ∧ Forall (λ x, p x = true) a
  ∧ (∀ y b', b = y :: b' → p y = false).
Proof.
  revert a b. induction l as [|x l IH]; intros a b; simpl.
  - intros [= <- <-]. by split_and!.
  - destruct (p x) eqn:Hx.
    + destruct (Str.span p l) as [a' b'] eqn:Hl. intros [= <- <-].
      destruct (IH a' b' eq_refl) as (->&?&?). split_and!; [done| |done].
      by constructor.
    + intros [= <- <-]. split_and!; [done..|]. by intros ?? [= <- <-].
Qed.

Lemma chars_of_chars (l : list ascii) : Str.chars (Str.of_chars l) = l.
Proof. apply String.list_ascii_of_string_of_list_ascii. Qed.

Lemma of_chars_chars (s : string) : Str.of_chars (Str.chars s) = s.
Proof. apply String.string_of_list_ascii_of_string. Qed.

Lemma is_digit_alnum c : Str.is_digit c = true → Str.is_alnum c = true.
Proof. unfold Str.is_digit, Str.is_alnum. intros ->. done. Qed.

(** [FileNumbering.match_rev] decides the pattern and returns its group 1:
    the function used for [fileNumbering.match] is the regular expression
    of line 403. *)
Lemma match_rev_matches (f d : list ascii) :
  FileNumbering.match_rev (reverse f) = Some (reverse d)
  ↔ FileNumbering.matches f d.
Proof.
  split.
  - unfold FileNumbering.match_rev.
    assert (∀ r nl, reverse f = nl ++ r → (nl = [] ∨ nl = [Str.newline]) →
      match r with
      | m :: c :: d0 :: "."%char :: r1 =>
          if FileNumbering.is_m m && FileNumbering.is_c c
             && FileNumbering.is_d d0 then
            match Str.span Str.is_alnum r1 with
            | (_ :: _, "-"%char :: r2) =>
                match Str.span Str.is_digit r2 with
                | ((_ :: _) as digits, "-"%char :: r3) =>
                    if forallb (λ c, bool_decide (c ≠ Str.newline)) r3
                    then Some digits else None
                | _ => None
                end
            | _ => None
            end
          else None
      | _ => None
      end = Some (reverse d) → FileNumbering.matches f d) as Hmain.
    { intros r nl Hf Hnl.
      destruct r as [|m [|c [|d0 [|dot r1]]]]; try done.
      destruct (decide (dot = "."%char)) as [->|Hne].
      2:{ destruct dot as [[] [] [] [] [] [] [] []]; done. }
      destruct (FileNumbering.is_m m) eqn:Hm; [|done].
      destruct (FileNumbering.is_c c) eqn:Hc; [|done].
      destruct (FileNumbering.is_d d0) eqn:Hd; [|done]. simpl.
      destruct (Str.span Str.is_alnum r1) as [al r2'] eqn:Hal.
      destruct al as [|a0 al]; [done|].
      destruct r2' as [|dash r2]; [done|].
      destruct (decide (dash = "-"%char)) as [->|Hne].
      2:{ destruct dash as [[] [] [] [] [] [] [] []]; done. }
      destruct (Str.span Str.is_digit r2) as [dg r3'] eqn:Hdg.
      destruct dg as [|d1 dg]; [done|].
      destruct r3' as [|dash r3]; [done|].
      destruct (decide (dash = "-"%char)) as [->|Hne].
      2:{ destruct dash as [[] [] [] [] [] [] [] []]; done. }
      destruct (forallb _ r3) eqn:Hpre; [|done].
      intros [= Hrev].
      apply span_inv in Hal as (->&Hal&_).
      apply span_inv in Hdg as (->&Hdg&_).
      exists (reverse r3), (reverse (a0 :: al)), d0, c, m, (reverse nl).
      assert (d = reverse (d1 :: dg)) as ->.
      { by rewrite Hrev, reverse_involutive. }
      split_and!.
      - apply (inj reverse). rewrite Hf. rewrite !reverse_app.
        rewrite !reverse_involutive. simpl.
        rewrite !reverse_cons, !reverse_nil. simpl.
        by rewrite <-!app_assoc.
      - apply Forall_reverse. apply Forall_forall. intros x Hx.
        rewrite forallb_forall in Hpre. specialize (Hpre x).
        rewrite <-list_elem_of_In in Hpre. specialize (Hpre Hx).
        by apply bool_decide_eq_true in Hpre.
      - intros Heq%(f_equal length). rewrite length_reverse in Heq. done.
      - by apply Forall_reverse.
      - intros Heq%(f_equal length). rewrite length_reverse in Heq. done.
      - by apply Forall_reverse.
      - done.
      - done.
      - done.
      - destruct Hnl as [->| ->]; [by left|by right]. }
    destruct (reverse f) as [|c0 r'] eqn:Hf.
    { intros H. by apply (Hmain [] []). }
    destruct (decide (c0 = Str.newline)) as [->|Hne].
    + intros H. apply (Hmain r' [Str.newline]); [done|by right|done].
    + intros H. apply (Hmain (c0 :: r') []); [done|by left|done].
  - intros (pre&al&e1&e2&e3&nl&->&Hpre&Hd&Hdig&Hal&Halnum&He1&He2&He3&Hnl).
    rewrite !reverse_app. simpl. rewrite !reverse_cons, !reverse_nil. simpl.
    rewrite <-!app_assoc. simpl.
    assert (e3 ≠ Str.newline) as Hne.
    { intros ->. done. }
    unfold FileNumbering.match_rev.
    assert (∀ rest, match reverse nl ++ e3 :: rest with
                    | c :: r' => if decide (c = Str.newline) then r'
                                 else reverse nl ++ e3 :: rest
                    | [] => reverse nl ++ e3 :: rest
                    end = e3 :: rest) as Hstrip.
    { intros rest. destruct Hnl as [-> | ->]; simpl.
      - by rewrite decide_False.
      - done. }
    rewrite Hstrip. rewrite He3, He2, He1. simpl.
    rewrite (span_app _ (reverse al)); [|by apply Forall_reverse|].
    2:{ by intros ?? [= <- <-]. }
    destruct (reverse al) as [|a0 al'] eqn:Hral.
    { apply (f_equal length) in Hral. rewrite length_reverse in Hral.
      by destruct al. }
    rewrite (span_app _ (reverse d)); [|by apply Forall_reverse|].
    2:{ by intros ?? [= <- <-]. }
    destruct (reverse d) as [|d0 d'] eqn:Hrd.
    { apply (f_equal length) in Hrd. rewrite length_reverse in Hrd.
      by destruct d. }
    rewrite (proj2 (forallb_forall _ _)); [done|].
    intros x Hx%list_elem_of_In. rewrite elem_of_reverse in Hx.
    apply bool_decide_eq_true. rewrite Forall_forall in Hpre. by apply Hpre.
Qed.

Lemma int_digits_total (l : list ascii) (acc : Z) (b : bool) :
  Forall (λ c, Str.is_digit c = true) l →
  l ≠ [] ∨ b = true →
  is_Some (Str.int_digits acc b l).
Proof.
  intros Hl. revert acc b. induction Hl as [|c l Hc _ IH]; intros acc b Hb; simpl.
  - destruct Hb as [? | ->]; [done|]. by eexists.
  - rewrite Hc. apply IH. by right.
Qed.

Lemma digit_first_char (c : ascii) :
  Str.is_digit c = true →
  Ascii.is_space c = false ∧ c ≠ "-"%char ∧ c ≠ "+"%char.
Proof. destruct c as [[] [] [] [] [] [] [] []]; by intros [=]. Qed.

Lemma strip_digits (l : list ascii) :
  Forall (λ c, Str.is_digit c = true) l → Str.strip l = l.
Proof.
  intros Hl. unfold Str.strip.
  assert (∀ l', Forall (λ c, Str.is_digit c = true) l' →
                (Str.span Ascii.is_space l').2 = l') as Hspan.
  { intros [|c l'] H; [done|]. simpl.
    inversion H as [|?? Hc%digit_first_char]; subst.
    by destruct Hc as [-> _]. }
  rewrite (Hspan l Hl). rewrite Hspan by by apply Forall_reverse.
  apply reverse_involutive.
Qed.

(** [int] is defined on every non-empty string of digits. *)
Lemma int_digits_string (l : list ascii) :
  l ≠ [] → Forall (λ c, Str.is_digit c = true) l →
  is_Ok (Str.int (Str.of_chars l)).
Proof.
  intros Hne Hl. unfold Str.int. rewrite chars_of_chars, strip_digits by done.
  destruct (int_digits_total l 0 false Hl) as [n Hn]; [by left|].
  destruct l as [|c l']; [done|].
  inversion Hl as [|?? Hc%digit_first_char]; subst.
  destruct Hc as (_&Hm&Hp).
  assert (match c :: l' with
          | "-"%char :: r => (-1, r)
          | "+"%char :: r => (1, r)
          | cs => (1, cs)
          end = (1, c :: l')) as ->.
  { destruct c as [[] [] [] [] [] [] [] []]; done. }
  rewrite Hn. by eexists.
Qed.

Lemma match_rev_digits (r ds : list ascii) :
  FileNumbering.match_rev r = Some ds →
  ds ≠ [] ∧ Forall (λ c, Str.is_digit c = true) ds.
Proof.
  intros H.
  assert (FileNumbering.matches (reverse r) (reverse ds)) as Hm.
  { apply match_rev_matches. by rewrite !reverse_involutive. }
  destruct Hm as (?&?&?&?&?&?&_&_&Hne&Hd&_).
  split.
  - intros ->. done.
  - apply Forall_reverse in Hd. by rewrite reverse_involutive in Hd.
Qed.

(** The sort key is defined exactly on the paths that match. *)
Lemma fileNumberExtractor_Ok (f : string) :
  is_Ok (FileNumbering.fileNumberExtractor f)
  ↔ is_Some (FileNumbering.match_ f).
Proof.
  unfold FileNumbering.fileNumberExtractor, FileNumbering.match_.
  destruct (FileNumbering.match_rev _) as [ds|] eqn:Hm; simpl.
  - split; [by eexists|]. intros _.
    apply match_rev_digits in Hm as [Hne Hd].
    apply int_digits_string.
    + intros Heq%(f_equal length). rewrite length_reverse in Heq. by destruct ds.
    + by apply Forall_reverse.
  - split; [by intros [? ?]|by intros [? ?]].
Qed.

Lemma fileNumberExtractor_Raise (f : string) (e : exn) :
  FileNumbering.fileNumberExtractor f = Raise e →
  e = AttributeError_NoneType "group" ∧ FileNumbering.match_ f = None.
Proof.
  intros H. destruct (FileNumbering.match_ f) as [d|] eqn:Hm.
  - destruct (proj2 (fileNumberExtractor_Ok f)) as [n Hn]; [by rewrite Hm|].
    congruence.
  - unfold FileNumbering.fileNumberExtractor in H. rewrite Hm in H.
    by injection H as <-.
Qed.

(** ** [sorted] *)

Section sorted.
Context {A : Type} (key : A → Z).

Lemma insert_by_perm (x : A) (l : list A) : Py.insert_by key x l ≡ₚ x :: l.
Proof.
  induction l as [|y l IH]; simpl; [done|].
  destruct (decide _); [done|]. rewrite IH. apply Permutation_swap.
Qed.

Lemma sorted_by_perm (l : list A) : Py.sorted_by key l ≡ₚ l.
Proof.
  induction l as [|x l IH]; simpl; [done|].
  by rewrite insert_by_perm, IH.
Qed.

Lemma sorted_by_length (l : list A) :
  length (Py.sorted_by key l) = length l.
Proof. by rewrite sorted_by_perm. Qed.

Lemma insert_by_sorted (x : A) (l : list A) :
  StronglySorted (λ a b, key a ≤ key b) l →
  StronglySorted (λ a b, key a ≤ key b) (Py.insert_by key x l).
Proof.
  induction 1 as [|y l Hl IH Hy]; simpl.
  - repeat constructor.
  - destruct (decide (key x ≤ key y)) as [Hxy|Hxy].
    + constructor; [by constructor|].
      constructor; [done|]. eapply Forall_impl; [done|]. simpl. lia.
    + constructor; [done|]. rewrite insert_by_perm.
      constructor; [lia|done].
Qed.

Lemma sorted_by_sorted (l : list A) :
  StronglySorted (λ a b, key a ≤ key b) (Py.sorted_by key l).
Proof.
  induction l as [|x l IH]; simpl; [constructor|by apply insert_by_sorted].
Qed.

Lemma insert_by_decorate (x : A) (l : list A) :
  Py.insert_by fst (key x, x) ((λ y, (key y, y)) <$> l)
  = (λ y, (key y, y)) <$> Py.insert_by key x l.
Proof.
  induction l as [|y l IH]; simpl; [done|].
  destruct (decide _); simpl; [done|]. by f_equal.
Qed.

Lemma sorted_by_decorate (l : list A) :
  Py.sorted_by fst ((λ y, (key y, y)) <$> l)
  = (λ y, (key y, y)) <$> Py.sorted_by key l.
Proof.
  induction l as [|x l IH]; [done|].
  change (Py.sorted_by fst ((λ y, (key y, y)) <$> x :: l))
    with (Py.insert_by fst (key x, x)
            (Py.sorted_by fst ((λ y, (key y, y)) <$> l))).
  rewrite IH. apply insert_by_decorate.
Qed.

(** [sorted(l, key=k)] with a key that does not raise on [l]. *)
Lemma sorted_key_Ok (k : A → res Z) (l : list A) :
  Forall (λ x, k x = Ok (key x)) l →
  Py.sorted_key k l = Ok (Py.sorted_by key l).
Proof.
  intros Hl. unfold Py.sorted_key.
  assert (comp_res k l = Ok (key <$> l)) as ->.
  { apply comp_res_Ok. apply Forall2_fmap_r, Forall_Forall2_diag.
    by eapply Forall_impl. }
  simpl. f_equal.
  assert (zip (key <$> l) l = (λ y, (key y, y)) <$> l) as ->.
  { clear. induction l; simpl; [done|]. by f_equal. }
  rewrite sorted_by_decorate. rewrite <-list_fmap_compose.
  apply list_fmap_id.
Qed.

Lemma sorted_key_Raise (k : A → res Z) (l : list A) (e : exn) :
  Py.sorted_key k l = Raise e ↔ comp_res k l = Raise e.
Proof.
  unfold Py.sorted_key. destruct (comp_res k l); simpl; naive_solver.
Qed.

End sorted.

Lemma sorted_strict (l : list Z) :
  NoDup l → StronglySorted Z.lt (Py.sorted l).
Proof.
  intros Hnd. unfold Py.sorted.
  pose proof (sorted_by_sorted id l) as Hs.
  assert (NoDup (Py.sorted_by id l)) as Hnd'.
  { by rewrite sorted_by_perm. }
  induction Hs as [|x l' Hl' IH Hx]; [constructor|].
  inversion Hnd' as [|?? Hnin Hnd'']; subst.
  constructor; [by apply IH|].
  apply Forall_forall. intros y Hy.
  rewrite Forall_forall in Hx. specialize (Hx y Hy). simpl in Hx.
  assert (x ≠ y) by (by intros ->). unfold id in Hx. lia.
Qed.

Lemma elem_of_sorted (l : list Z) (x : Z) : x ∈ Py.sorted l ↔ x ∈ l.
Proof. unfold Py.sorted. by rewrite sorted_by_perm. Qed.

(** ** The index mapping (lines 395-408) *)

Lemma foldl_add_file_lookup (pairs : list (string * Z))
    (m : gmap Z (list string)) (i : Z) :
  foldl add_file m pairs !! i =
  match (filter (λ fi, fi.2 = i) pairs).*1 with
  | [] => m !! i
  | fs => Some (default [] (m !! i) ++ fs)
  end.
Proof.
  revert m. induction pairs as [|[f j] pairs IH]; intros m; [done|].
  simpl. rewrite IH. rewrite filter_cons. simpl.
  assert (add_file m (f, j) !! i =
          if decide (j = i) then Some (default [] (m !! i) ++ [f])
          else m !! i) as Hadd.
  { unfold add_file. simpl. destruct (decide (j = i)) as [->|Hne].
    - destruct (m !! i) as [fs|] eqn:Hm.
      + by rewrite lookup_insert_eq.
      + by rewrite lookup_insert_eq.
    - destruct (m !! j); by rewrite lookup_insert_ne. }
  rewrite Hadd. destruct (decide (j = i)) as [->|Hne]; simpl.
  - unfold fmap. destruct (list_fmap _ _ fst (filter _ pairs)); [done|].
    simpl. by rewrite <-app_assoc.
  - done.
Qed.

Lemma build_index_mapping_lookup dicom_list index_list (i : Z) :
  build_index_mapping dicom_list index_list !! i =
  match files_of dicom_list index_list i with
  | [] => None
  | fs => Some fs
  end.
Proof.
  unfold build_index_mapping, files_of. rewrite foldl_add_file_lookup.
  by rewrite lookup_empty.
Qed.

Lemma files_of_nonempty dicom_list index_list (i : Z) :
  length dicom_list = length index_list →
  files_of dicom_list index_list i ≠ [] ↔ i ∈ index_list.
Proof.
  intros Hlen. unfold files_of. split.
  - intros Hne.
    destruct (filter _ _) as [|[f j] l] eqn:Hf; [done|].
    assert ((f, j) ∈ filter (λ fi, fi.2 = i) (zip dicom_list index_list))
      as [Hj Hin]%list_elem_of_filter by (rewrite Hf; left).
    simpl in Hj. subst j. by eapply elem_of_zip_r.
  - intros Hi. apply list_elem_of_lookup in Hi as [n Hn].
    destruct (lookup_lt_is_Some_2 dicom_list n) as [f Hf].
    { rewrite Hlen. by eapply lookup_lt_Some. }
    assert ((f, i) ∈ filter (λ fi, fi.2 = i) (zip dicom_list index_list))
      as Hin.
    { apply list_elem_of_filter. split; [done|].
      apply list_elem_of_lookup. exists n.
      by rewrite lookup_zip_with, Hf, Hn. }
    intros Heq. apply fmap_nil_inv in Heq. rewrite Heq in Hin.
    by apply not_elem_of_nil in Hin.
Qed.

(** The keys of the mapping are the slice indices that occur. *)
Lemma build_index_mapping_dom dicom_list index_list (i : Z) :
  length dicom_list = length index_list →
  is_Some (build_index_mapping dicom_list index_list !! i)
  ↔ i ∈ index_list.
Proof.
  intros Hlen. rewrite build_index_mapping_lookup.
  rewrite <-(files_of_nonempty dicom_list index_list i Hlen).
  destruct (files_of _ _ _); split; try done; by intros [? ?].
Qed.

Lemma sorted_key_files (fs : list string) :
  all_match fs →
  Py.sorted_key FileNumbering.fileNumberExtractor fs
  = Ok (Py.sorted_by file_number fs).
Proof.
  intros Hfs. apply sorted_key_Ok. eapply Forall_impl; [exact Hfs|].
  intros f [n Hn]%fileNumberExtractor_Ok. unfold file_number. by rewrite Hn.
Qed.

Lemma sorted_key_files_Raise (fs : list string) :
  ¬ all_match fs →
  Py.sorted_key FileNumbering.fileNumberExtractor fs
  = Raise (AttributeError_NoneType "group").
Proof.
  intros Hfs.
  destruct (Py.sorted_key _ fs) as [l|e] eqn:Hs.
  - exfalso. apply Hfs. unfold Py.sorted_key in Hs.
    destruct (comp_res _ fs) as [ks|] eqn:Hks; [|done].
    apply comp_res_Ok in Hks. apply Forall_forall. intros f Hf.
    apply list_elem_of_lookup in Hf as [n Hn].
    destruct (Forall2_lookup_l _ _ _ _ _ Hks Hn) as (k&_&Hk).
    apply fileNumberExtractor_Ok. by eexists.
  - apply sorted_key_Raise, comp_res_Raise in Hs as (?&f&?&_&Hf&_).
    by apply fileNumberExtractor_Raise in Hf as [-> _].
Qed.

Lemma dict_get_Some (m : gmap Z (list string)) (k : Z) fs :
  m !! k = Some fs → dict_get m k = Ok fs.
Proof. unfold dict_get. by intros ->. Qed.

Lemma all_match_perm (fs fs' : list string) :
  fs ≡ₚ fs' → all_match fs → all_match fs'.
Proof. unfold all_match. by intros ->. Qed.

Lemma sort_loop_Ok (keys : list Z) (m : gmap Z (list string)) :
  (∀ k, k ∈ keys → is_Some (m !! k)) →
  good_mapping m →
  for_res keys
    (λ index m,
       fs ← dict_get m index;
       sorted ← Py.sorted_key FileNumbering.fileNumberExtractor fs;
       Ok (<[index := sorted]> m)) m
  = Ok (foldl (λ acc k, alter (Py.sorted_by file_number) k acc) m keys).
Proof.
  revert m. induction keys as [|k keys IH]; intros m Hdom Hgood; [done|].
  destruct (Hdom k) as [fs Hfs]; [left|].
  cbn [for_res foldl]. rewrite (dict_get_Some _ _ _ Hfs). simpl.
  rewrite sorted_key_files by (by eapply Hgood). simpl.
  assert (<[k := Py.sorted_by file_number fs]> m
          = alter (Py.sorted_by file_number) k m) as ->.
  { apply map_eq. intros j. destruct (decide (k = j)) as [->|].
    - by rewrite lookup_insert_eq, lookup_alter_eq, Hfs.
    - by rewrite lookup_insert_ne, lookup_alter_ne. }
  apply IH.
  - intros j Hj. destruct (decide (k = j)) as [->|].
    + rewrite lookup_alter_eq, Hfs. by eexists.
    + rewrite lookup_alter_ne by done. apply Hdom. by right.
  - intros j fs'. destruct (decide (k = j)) as [->|].
    + rewrite lookup_alter_eq, Hfs. intros [= <-].
      eapply all_match_perm; [symmetry; apply sorted_by_perm|].
      by eapply Hgood.
    + rewrite lookup_alter_ne by done. apply Hgood.
Qed.

Lemma foldl_alter_lookup {V} (h : V → V) (keys : list Z) (m : gmap Z V)
    (i : Z) :
  NoDup keys →
  foldl (λ acc k, alter h k acc) m keys !! i
  = if decide (i ∈ keys) then h <$> m !! i else m !! i.
Proof.
  intros Hnd. revert m. induction Hnd as [|k keys Hk _ IH]; intros m.
  - cbn [foldl]. case_decide as Hi; [|done]. by apply not_elem_of_nil in Hi.
  - cbn [foldl]. rewrite IH. destruct (decide (i = k)) as [->|Hne].
    + rewrite lookup_alter_eq. repeat case_decide; try done.
      exfalso. set_solver.
    + rewrite lookup_alter_ne by done.
      repeat case_decide; try done; exfalso; set_solver.
Qed.

(** lines 407-408 when every file name matches *)
Lemma sort_index_mapping_Ok (m : gmap Z (list string)) :
  good_mapping m →
  sort_index_mapping m = Ok (Py.sorted_by file_number <$> m).
Proof.
  intros Hgood. unfold sort_index_mapping. rewrite sort_loop_Ok; [|..|done].
  - f_equal. apply map_eq. intros i.
    rewrite foldl_alter_lookup by apply NoDup_fst_map_to_list.
    rewrite lookup_fmap. destruct (decide _) as [|Hi]; [done|].
    destruct (m !! i) as [fs|] eqn:Hm; [|done].
    exfalso. apply Hi. apply list_elem_of_fmap. exists (i, fs).
    split; [done|]. by apply elem_of_map_to_list.
  - intros k [[k' fs] [-> Hk]]%list_elem_of_fmap.
    apply elem_of_map_to_list in Hk. by eexists.
Qed.

Lemma sort_loop_Raise (keys : list Z) (m : gmap Z (list string)) :
  (∀ k, k ∈ keys → is_Some (m !! k)) →
  (∃ k fs, k ∈ keys ∧ m !! k = Some fs ∧ ¬ all_match fs) →
  for_res keys
    (λ index m,
       fs ← dict_get m index;
       sorted ← Py.sorted_key FileNumbering.fileNumberExtractor fs;
       Ok (<[index := sorted]> m)) m
  = Raise (AttributeError_NoneType "group").
Proof.
  revert m. induction keys as [|k keys IH]; intros m Hdom (kb&fb&Hkb&Hfb&Hbad).
  { by apply not_elem_of_nil in Hkb. }
  destruct (Hdom k) as [fs Hfs]; [left|].
  cbn [for_res]. rewrite (dict_get_Some _ _ _ Hfs). simpl.
  destruct (decide (all_match fs)) as [Hgood|Hnot].
  2:{ by rewrite sorted_key_files_Raise. }
  rewrite sorted_key_files by done. simpl.
  assert (kb ≠ k) as Hne by (intros ->; congruence).
  apply IH.
  - intros j Hj. destruct (decide (k = j)) as [->|].
    + rewrite lookup_insert_eq. by eexists.
    + rewrite lookup_insert_ne by done. apply Hdom. by right.
  - exists kb, fb. split_and!; [|by rewrite lookup_insert_ne|done].
    apply elem_of_cons in Hkb as [?|?]; done.
Qed.

(** lines 407-408 when some file name does not match *)
Lemma sort_index_mapping_Raise (m : gmap Z (list string)) :
  ¬ good_mapping m →
  sort_index_mapping m = Raise (AttributeError_NoneType "group").
Proof.
  intros Hbad. unfold sort_index_mapping. apply sort_loop_Raise.
  - intros k [[k' fs] [-> Hk]]%list_elem_of_fmap.
    apply elem_of_map_to_list in Hk. by eexists.
  - apply map_not_Forall in Hbad; [|apply _].
    destruct Hbad as (k&fs&Hk&Hfs). exists k, fs. split_and!; [|done..].
    apply list_elem_of_fmap. exists (k, fs). split; [done|].
    by apply elem_of_map_to_list.
Qed.

Lemma good_mapping_build dicom_list index_list :
  length dicom_list = length index_list →
  good_mapping (build_index_mapping dicom_list index_list)
  ↔ all_match dicom_list.
Proof.
  intros Hlen. unfold good_mapping, all_match. split.
  - intros Hgood. apply Forall_forall. intros f Hf.
    apply list_elem_of_lookup in Hf as [n Hn].
    destruct (lookup_lt_is_Some_2 index_list n) as [i Hi].
    { rewrite <-Hlen. by eapply lookup_lt_Some. }
    assert (f ∈ files_of dicom_list index_list i) as Hin.
    { unfold files_of. apply list_elem_of_fmap. exists (f, i). split; [done|].
      apply list_elem_of_filter. split; [done|].
      apply list_elem_of_lookup. exists n.
      by rewrite lookup_zip_with, Hn, Hi. }
    pose proof (build_index_mapping_lookup dicom_list index_list i) as Hl.
    destruct (files_of dicom_list index_list i) as [|f0 fs] eqn:Hfs.
    { by apply not_elem_of_nil in Hin. }
    specialize (Hgood i _ Hl). unfold all_match in Hgood.
    rewrite Forall_forall in Hgood. by apply Hgood.
  - intros Hall i fs Hfs. rewrite build_index_mapping_lookup in Hfs.
    assert (fs = files_of dicom_list index_list i) as ->.
    { by destruct (files_of _ _ _); simplify_eq. }
    apply Forall_forall. intros f Hf. rewrite Forall_forall in Hall.
    apply Hall. unfold files_of in Hf.
    apply list_elem_of_fmap in Hf as ([f' j]&->&Hin).
    apply list_elem_of_filter in Hin as [_ Hin]. by eapply elem_of_zip_l.
Qed.

(** ** The geometry (lines 411-418) *)

Lemma sorted_keys_length (m : gmap Z (list string)) :
  length (sorted_keys m) = size m.
Proof.
  unfold sorted_keys, Py.sorted.
  by rewrite sorted_by_length, length_fmap, length_map_to_list.
Qed.

Lemma sorted_keys_strict (m : gmap Z (list string)) :
  StronglySorted Z.lt (sorted_keys m).
Proof. apply sorted_strict, NoDup_fst_map_to_list. Qed.

Lemma elem_of_sorted_keys (m : gmap Z (list string)) (i : Z) :
  i ∈ sorted_keys m ↔ is_Some (m !! i).
Proof.
  unfold sorted_keys. rewrite elem_of_sorted, list_elem_of_fmap. split.
  - intros ([k fs]&->&H%elem_of_map_to_list). by eexists.
  - intros [fs Hfs]. exists (i, fs). split; [done|].
    by apply elem_of_map_to_list.
Qed.

Lemma range3_blocks (nSp echoes : Z) :
  0 < nSp → 0 < echoes →
  Py.range3 0 (nSp * echoes) nSp
  = Ok ((λ k : nat, Z.of_nat k * nSp) <$> seq 0 (Z.to_nat echoes)).
Proof.
  intros Hn He. unfold Py.range3, Py.range_len.
  rewrite decide_False by lia. rewrite decide_True by lia.
  replace ((nSp * echoes - 0 + nSp - 1) / nSp) with echoes.
  2:{ apply Z.div_unique with (r := nSp - 1); lia. }
  f_equal.
Qed.

Lemma slice_block (S : list Z) (nSp k : nat) :
  (k * nSp + nSp ≤ length S)%nat →
  Py.slice S (Z.of_nat k * Z.of_nat nSp)
             (Z.of_nat k * Z.of_nat nSp + Z.of_nat nSp)
  = block S nSp k.
Proof.
  intros Hle. unfold Py.slice, Py.clamp, Py.len, block.
  rewrite !decide_False by lia.
  rewrite !Z.min_l by lia. f_equal; [lia|]. f_equal. lia.
Qed.

(** lines 411-418 for a positive echo count with at least that many
    distinct slice indices *)
Lemma resolve_geometry_Ok (index_list : list Z)
    (m : gmap Z (list string)) (echoes : Z) :
  0 < echoes → echoes ≤ Z.of_nat (size m) →
  resolve_geometry index_list m echoes
  = Ok (geometry_of index_list m echoes).
Proof.
  intros He Hsz. unfold resolve_geometry, Py.floordiv, geometry_of.
  rewrite !decide_False by lia. simpl.
  assert (0 < Z.of_nat (size m) / echoes) as Hn.
  { apply Z.div_str_pos. lia. }
  rewrite decide_False by lia. simpl.
  rewrite range3_blocks by done. simpl. do 2 f_equal.
  rewrite <-list_fmap_compose. apply list_fmap_ext.
  intros i k Hk%lookup_seq. simpl.
  fold (sorted_keys m).
  rewrite <-(Z2Nat.id (Z.of_nat (size m) / echoes)) at 1 2 3 by lia.
  apply slice_block. rewrite sorted_keys_length.
  pose proof (Z.mul_div_le (Z.of_nat (size m)) echoes He). nia.
Qed.

(** lines 411-414: the only failures are divisions by zero. *)
Lemma resolve_geometry_Raise (index_list : list Z)
    (m : gmap Z (list string)) (echoes : Z) :
  echoes = 0 ∨ Z.of_nat (size m) / echoes = 0 →
  resolve_geometry index_list m echoes = Raise ZeroDivisionError.
Proof.
  intros H. unfold resolve_geometry, Py.floordiv.
  destruct (decide (echoes = 0)) as [|Hne]; [done|]. simpl.
  destruct H as [?|Hz]; [done|]. rewrite Hz.
  rewrite decide_True by lia. done.
Qed.

Lemma block_lookup (S : list Z) (nSp k x : nat) :
  (x < nSp)%nat → block S nSp k !! x = S !! (k * nSp + x)%nat.
Proof.
  intros Hx. unfold block. by rewrite lookup_take_lt, lookup_drop.
Qed.

Lemma block_length (S : list Z) (nSp k : nat) :
  (k * nSp + nSp ≤ length S)%nat → length (block S nSp k) = nSp.
Proof. intros H. unfold block. rewrite length_take, length_drop. lia. Qed.

Lemma block_strict (S : list Z) (nSp k : nat) :
  StronglySorted Z.lt S → StronglySorted Z.lt (block S nSp k).
Proof.
  intros HS. unfold block.
  rewrite <-(take_drop (k * nSp) S) in HS.
  apply StronglySorted_app_1_r in HS.
  rewrite <-(take_drop nSp (drop (k * nSp) S)) in HS.
  by apply StronglySorted_app_1_l in HS.
Qed.

Lemma comp_res_Raise_kind {A B} (f : A → res B) (l : list A) (e e0 : exn) :
  (∀ x e', x ∈ l → f x = Raise e' → e' = e0) →
  comp_res f l = Raise e → e = e0.
Proof.
  intros Hk (l1&x&l2&->&Hx&_)%comp_res_Raise.
  eapply Hk; [|done]. apply elem_of_app. right. left.
Qed.

Lemma comp_res_elem_Raise {A B} (f : A → res B) (l : list A) (x : A) :
  x ∈ l → is_Raise (f x) → is_Raise (comp_res f l).
Proof.
  intros Hx [e He]. destruct (comp_res f l) as [ys|e'] eqn:Hl; [|by eexists].
  apply comp_res_Ok in Hl. apply list_elem_of_lookup in Hx as [i Hi].
  destruct (Forall2_lookup_l _ _ _ _ _ Hl Hi) as (y&_&Hy). congruence.
Qed.

(** ** The cells of the ordering (lines 426-427) *)

Section cells.
Context (index_list : list Z) (m : gmap Z (list string)) (echoes : Z).
Context (Hechoes : 0 < echoes) (Hsize : echoes ≤ Z.of_nat (size m)).

Let g := geometry_of index_list m echoes.
Let nSp := Z.to_nat (nSpatialSlices g).

Lemma blocks_fit : (Z.to_nat echoes * nSp ≤ size m)%nat.
Proof.
  unfold nSp, g, geometry_of. simpl.
  pose proof (Z.mul_div_le (Z.of_nat (size m)) echoes Hechoes).
  assert (0 ≤ Z.of_nat (size m) / echoes) by (apply Z.div_pos; lia).
  nia.
Qed.

Lemma nSp_pos : (0 < nSp)%nat.
Proof.
  unfold nSp, g, geometry_of. simpl.
  assert (0 < Z.of_nat (size m) / echoes) by (apply Z.div_str_pos; lia).
  lia.
Qed.

Lemma cell_entry (e t x : nat) :
  (e < Z.to_nat echoes)%nat → (x < nSp)%nat →
  cell g m (Z.of_nat e) (Z.of_nat t) (Z.of_nat x)
  = match entry m nSp e t x with
    | Some f => Ok f
    | None => Raise IndexError_list_index
    end.
Proof.
  intros He Hx. unfold cell, entry.
  pose proof blocks_fit as Hfit.
  rewrite getitem_nat. unfold g at 1, geometry_of. cbn [slice_indices_by_echo].
  rewrite list_lookup_fmap, lookup_seq_lt by done. simpl.
  rewrite getitem_nat.
  fold g. fold nSp. rewrite block_lookup by done.
  destruct (lookup_lt_is_Some_2 (sorted_keys m) (e * nSp + x)) as [i Hi].
  { rewrite sorted_keys_length. nia. }
  rewrite Hi.
  change (sorted_keys m !! (e * nSp + x)%nat = Some i) in Hi.
  unfold nSp, g, geometry_of in Hi. cbn [nSpatialSlices] in Hi.
  simpl. rewrite Hi. simpl.
  assert (is_Some (m !! i)) as [fs Hfs].
  { apply elem_of_sorted_keys. by eapply list_elem_of_lookup_2. }
  rewrite (dict_get_Some _ _ _ Hfs), Hfs. simpl.
  apply getitem_nat.
Qed.

Lemma cell_Raise_kind (e t x : Z) (err : exn) :
  e ∈ Py.range echoes → t ∈ Py.range (nTimePoints g) →
  x ∈ Py.range (nSpatialSlices g) →
  cell g m e t x = Raise err → err = IndexError_list_index.
Proof.
  intros He%elem_of_range Ht%elem_of_range Hx%elem_of_range.
  rewrite <-(Z2Nat.id e), <-(Z2Nat.id t), <-(Z2Nat.id x) by lia.
  rewrite cell_entry by (unfold nSp; lia).
  destruct (entry _ _ _ _ _); [done|]. by intros [= <-].
Qed.

(** Lines 423-428 succeed exactly when every placed cell exists, and
    fail with a list index out of range otherwise. *)
Lemma tables_Raise_kind (err : exn) :
  comp_res (table g m) (Py.range echoes) = Raise err →
  err = IndexError_list_index.
Proof.
  apply comp_res_Raise_kind. intros e err1 He.
  apply comp_res_Raise_kind. intros t err2 Ht.
  apply comp_res_Raise_kind. intros x err3 Hx.
  by apply cell_Raise_kind.
Qed.

Lemma tables_Raise (e t x : nat) :
  (e < Z.to_nat echoes)%nat → (t < Z.to_nat (nTimePoints g))%nat →
  (x < nSp)%nat →
  entry m nSp e t x = None →
  comp_res (table g m) (Py.range echoes) = Raise IndexError_list_index.
Proof.
  intros He Ht Hx Hnone.
  assert (is_Raise (comp_res (table g m) (Py.range echoes))) as [err Herr].
  { apply (comp_res_elem_Raise _ _ (Z.of_nat e)); [apply elem_of_range; lia|].
    apply (comp_res_elem_Raise _ _ (Z.of_nat t)); [apply elem_of_range; lia|].
    apply (comp_res_elem_Raise _ _ (Z.of_nat x)).
    { apply elem_of_range. unfold nSp in Hx. lia. }
    rewrite cell_entry, Hnone by done. by eexists. }
  rewrite Herr. f_equal. by apply tables_Raise_kind.
Qed.

Lemma tables_Ok :
  (∀ e t x : nat,
     (e < Z.to_nat echoes)%nat → (t < Z.to_nat (nTimePoints g))%nat →
     (x < nSp)%nat → is_Some (entry m nSp e t x)) →
  ∃ tabs,
    comp_res (table g m) (Py.range echoes) = Ok tabs
    ∧ length tabs = Z.to_nat echoes
    ∧ ∀ (e : nat) tab, tabs !! e = Some tab →
        length tab = Z.to_nat (nTimePoints g)
        ∧ ∀ (t : nat) row, tab !! t = Some row →
            length row = nSp
            ∧ ∀ x : nat, (x < nSp)%nat →
                row !! x = entry m nSp e t x.
Proof.
  intros Hall.
  destruct (comp_res (table g m) (Py.range echoes)) as [tabs|err] eqn:Htabs.
  2:{ exfalso. apply comp_res_Raise in Htabs as (l1&e&l2&Hl&He&_).
      assert (e ∈ Py.range echoes) as Hein.
      { rewrite Hl. apply elem_of_app. right. left. }
      apply comp_res_Raise in He as (l1'&t&l2'&Hl'&Ht&_).
      assert (t ∈ Py.range (nTimePoints g)) as Htin.
      { rewrite Hl'. apply elem_of_app. right. left. }
      apply comp_res_Raise in Ht as (l1''&x&l2''&Hl''&Hx&_).
      assert (x ∈ Py.range (nSpatialSlices g)) as Hxin.
      { rewrite Hl''. apply elem_of_app. right. left. }
      apply elem_of_range in Hein, Htin, Hxin.
      rewrite <-(Z2Nat.id e), <-(Z2Nat.id t), <-(Z2Nat.id x) in Hx by lia.
      rewrite cell_entry in Hx by (unfold nSp; lia).
      destruct (Hall (Z.to_nat e) (Z.to_nat t) (Z.to_nat x)) as [f Hf];
        [unfold nSp; lia..|].
      by rewrite Hf in Hx. }
  exists tabs. split; [done|]. split.
  { apply comp_res_length in Htabs. by rewrite Htabs, range_length. }
  apply comp_res_Ok in Htabs.
  intros e tab Htab.
  destruct (Forall2_lookup_r _ _ _ _ _ Htabs Htab) as (e'&He'&Hte).
  assert (e < Z.to_nat echoes)%nat as He.
  { apply lookup_lt_Some in He'. by rewrite range_length in He'. }
  rewrite range_lookup in He' by done. simplify_eq.
  split.
  { apply comp_res_length in Hte. by rewrite Hte, range_length. }
  apply comp_res_Ok in Hte.
  intros t row Hrow.
  destruct (Forall2_lookup_r _ _ _ _ _ Hte Hrow) as (t'&Ht'&Htr).
  assert (t < Z.to_nat (nTimePoints g))%nat as Ht.
  { apply lookup_lt_Some in Ht'. by rewrite range_length in Ht'. }
  rewrite range_lookup in Ht' by done. simplify_eq.
  split.
  { apply comp_res_length in Htr. by rewrite Htr, range_length. }
  apply comp_res_Ok in Htr.
  intros x Hx.
  destruct (lookup_lt_is_Some_2 (Py.range (nSpatialSlices g)) x) as [x' Hx'].
  { by rewrite range_length. }
  destruct (Forall2_lookup_l _ _ _ _ _ Htr Hx') as (f&Hf&Hcell).
  rewrite range_lookup in Hx' by done. simplify_eq.
  rewrite cell_entry in Hcell by done. rewrite Hf.
  destruct (entry m nSp e t x); by simplify_eq.
Qed.

End cells.

(** ** The worker pool *)

Lemma completion_perm (pick : list nat → nat) (fuel : nat)
    (pending : list nat) :
  (length pending ≤ fuel)%nat →
  Pool.completion pick fuel pending ≡ₚ pending.
Proof.
  revert pending. induction fuel as [|fuel IH]; intros pending Hlen.
  - destruct pending; [done|simpl in Hlen; lia].
  - simpl. destruct pending as [|p pending']; [done|].
    set (l := p :: pending') in *.
    set (k := (pick l `mod` length l)%nat).
    assert (k < length l)%nat as Hk.
    { apply Nat.mod_upper_bound. done. }
    destruct (lookup_lt_is_Some_2 l k Hk) as [i Hi]. rewrite Hi.
    rewrite IH.
    + symmetry. by apply delete_Permutation.
    + rewrite length_delete by (by eexists). lia.
Qed.

Section pool.
Context {A B : Type} (f : A → res B) (xs : list A).

Lemma complete_failure (order : list nat) (st : Pool.state B) :
  Pool.failure (foldl (Pool.complete f xs) st order) = None
  ↔ Pool.failure st = None
    ∧ Forall (λ i, ∀ x, xs !! i = Some x → is_Ok (f x)) order.
Proof.
  revert st. induction order as [|i order IH]; intros st; simpl.
  - split; [by intros ?; split|by intros [? _]].
  - rewrite IH, Forall_cons. unfold Pool.complete.
    destruct (xs !! i) as [x|] eqn:Hx.
    + destruct (f x) as [y|e] eqn:Hfx; simpl.
      * split; intros (?&?); split_and!; try done.
        -- intros ? [= <-]. by eexists.
        -- tauto.
      * split; [by intros [? _]|].
        intros (_&Hx'&_). destruct (Hx' x eq_refl) as [? ?]. congruence.
    + split; intros (?&?); split_and!; try done. tauto.
Qed.

Lemma complete_slots (ys : list B) (order : list nat)
    (st : Pool.state B) (j : nat) :
  Forall2 (λ x y, f x = Ok y) xs ys →
  length (Pool.slots st) = length xs →
  Pool.slots (foldl (Pool.complete f xs) st order) !! j
  = if decide (j ∈ order) then Some <$> ys !! j
    else Pool.slots st !! j.
Proof.
  intros Hys. revert st. induction order as [|i order IH]; intros st Hlen.
  - cbn [foldl]. case_decide as Hj; [|done]. by apply not_elem_of_nil in Hj.
  - cbn [foldl].
    assert (Pool.slots (Pool.complete f xs st i)
            = match ys !! i with
              | Some y => <[i := Some y]> (Pool.slots st)
              | None => Pool.slots st
              end) as Hstep.
    { unfold Pool.complete. destruct (xs !! i) as [x|] eqn:Hx.
      - destruct (Forall2_lookup_l _ _ _ _ _ Hys Hx) as (y&Hy&Hfx).
        by rewrite Hfx, Hy.
      - assert (ys !! i = None) as ->; [|done].
        apply lookup_ge_None. rewrite <-(Forall2_length _ _ _ Hys).
        by apply lookup_ge_None. }
    rewrite IH.
    2:{ rewrite Hstep. destruct (ys !! i); [|done].
        by rewrite length_insert. }
    rewrite Hstep. destruct (decide (j = i)) as [->|Hne].
    + rewrite (decide_True (P := i ∈ i :: order)) by left.
      case_decide; [done|].
      destruct (ys !! i) as [y|] eqn:Hy; simpl.
      * apply list_lookup_insert_eq. rewrite Hlen.
        rewrite (Forall2_length _ _ _ Hys). by eapply lookup_lt_Some.
      * apply lookup_ge_None. rewrite Hlen.
        rewrite (Forall2_length _ _ _ Hys). by apply lookup_ge_None.
    + assert (j ∈ i :: order ↔ j ∈ order) as Hiff.
      { rewrite elem_of_cons. naive_solver. }
      repeat case_decide; try naive_solver.
      destruct (ys !! i); [|done]. by rewrite list_lookup_insert_ne.
Qed.

(** [pool.map(f, xs)] returns what the comprehension
    [[f(x) for x in xs]] returns, whatever the scheduler does. *)
Lemma pool_map_Ok (pick : list nat → nat) (ys : list B) :
  Pool.map pick f xs = Ok ys ↔ comp_res f xs = Ok ys.
Proof.
  assert (∀ ys, comp_res f xs = Ok ys → Pool.map pick f xs = Ok ys) as Hto.
  { clear ys. intros ys Hys%comp_res_Ok. unfold Pool.map.
    set (order := Pool.completion pick (length xs) (seq 0 (length xs))).
    assert (order ≡ₚ seq 0 (length xs)) as Hperm.
    { apply completion_perm. by rewrite length_seq. }
    set (st0 := {| Pool.slots := replicate (length xs) None;
                   Pool.failure := None |}).
    assert (Pool.failure (foldl (Pool.complete f xs) st0 order) = None)
      as ->.
    { apply complete_failure. split; [done|].
      apply Forall_forall. intros i _ x Hx.
      destruct (Forall2_lookup_l _ _ _ _ _ Hys Hx) as (y&_&Hy).
      by eexists. }
    assert (Pool.slots (foldl (Pool.complete f xs) st0 order)
            = Some <$> ys) as ->.
    { apply list_eq. intros j.
      rewrite (complete_slots ys);
        [|done|subst st0; simpl; by rewrite length_replicate].
      rewrite list_lookup_fmap. case_decide as Hj; [done|].
      simpl. rewrite Hperm, elem_of_seq in Hj.
      rewrite (proj2 (lookup_ge_None ys j)).
      - simpl. apply lookup_replicate_None. lia.
      - rewrite <-(Forall2_length _ _ _ Hys). lia. }
    by rewrite mapM_fmap_Some. }
  split; [|apply Hto].
  intros Hmap.
  destruct (comp_res f xs) as [ys'|e] eqn:Hc.
  { rewrite (Hto ys' eq_refl) in Hmap. done. }
  exfalso. unfold Pool.map in Hmap.
  set (order := Pool.completion pick (length xs) (seq 0 (length xs))) in *.
  assert (order ≡ₚ seq 0 (length xs)) as Hperm.
  { apply completion_perm. by rewrite length_seq. }
  destruct (Pool.failure _) eqn:Hfail; [done|].
  apply complete_failure in Hfail as [_ Hall].
  apply comp_res_Raise in Hc as (l1&x&l2&->&Hx&_).
  rewrite Forall_forall in Hall.
  destruct (Hall (length l1)) with (x := x) as [y Hy].
  - rewrite Hperm, elem_of_seq, length_app. simpl. lia.
  - by rewrite list_lookup_middle.
  - congruence.
Qed.

(** A failing pool re-raises the exception of one of the tasks. *)
Lemma pool_map_Raise (pick : list nat → nat) (e : exn) :
  Pool.map pick f xs = Raise e → is_Raise (comp_res f xs).
Proof.
  intros Hmap. destruct (comp_res f xs) as [ys|e'] eqn:Hc; [|by eexists].
  apply (pool_map_Ok pick) in Hc. congruence.
Qed.

End pool.

(** ** [arrange]: lines 389-430 case by case *)

Section arrange_cases.
Context (dicom_list : list string) (index_list : list Z).
Context (echoes : Z) (me_dir : string).
Context (Hlen : length dicom_list = length index_list).

Lemma arrange_zero_echoes :
  echoes = 0 →
  arrange dicom_list index_list echoes me_dir = Raise ZeroDivisionError.
Proof. intros ->. done. Qed.

(** lines 390-391 *)
Lemma arrange_not_divisible :
  echoes ≠ 0 → Py.len index_list `mod` echoes ≠ 0 →
  arrange dicom_list index_list echoes me_dir
  = Raise (IndexError_not_divisible (Py.len index_list) echoes).
Proof.
  intros He Hmod. unfold arrange, Py.mod_.
  rewrite decide_False by done. simpl. by rewrite decide_True.
Qed.

(** lines 403-408 *)
Lemma arrange_bad_name :
  echoes ≠ 0 → Py.len index_list `mod` echoes = 0 →
  ¬ all_match dicom_list →
  arrange dicom_list index_list echoes me_dir
  = Raise (AttributeError_NoneType "group").
Proof.
  intros He Hmod Hbad. unfold arrange, Py.mod_.
  rewrite decide_False by done. simpl. rewrite decide_False by tauto.
  rewrite sort_index_mapping_Raise; [done|].
  by rewrite good_mapping_build.
Qed.

Lemma size_index_mapping_of :
  size (index_mapping_of dicom_list index_list)
  = size (build_index_mapping dicom_list index_list).
Proof. unfold index_mapping_of. apply map_size_fmap. Qed.

(** lines 411-414 *)
Lemma arrange_few_indices :
  0 < echoes → Py.len index_list `mod` echoes = 0 →
  all_match dicom_list →
  Z.of_nat (size (index_mapping_of dicom_list index_list)) < echoes →
  arrange dicom_list index_list echoes me_dir = Raise ZeroDivisionError.
Proof.
  intros He Hmod Hgood Hfew. unfold arrange, Py.mod_.
  rewrite decide_False by lia. simpl. rewrite decide_False by tauto.
  rewrite sort_index_mapping_Ok by (by rewrite good_mapping_build).
  simpl. fold (index_mapping_of dicom_list index_list).
  rewrite resolve_geometry_Raise; [done|]. right.
  apply Z.div_small. lia.
Qed.

(** lines 411-430 *)
Lemma arrange_tables :
  0 < echoes → Py.len index_list `mod` echoes = 0 →
  all_match dicom_list →
  echoes ≤ Z.of_nat (size (index_mapping_of dicom_list index_list)) →
  let m := index_mapping_of dicom_list index_list in
  let g := geometry_of index_list m echoes in
  arrange dicom_list index_list echoes me_dir
  = tabs ← comp_res (table g m) (Py.range echoes);
    Ok (g, ordering_of me_dir (Py.range echoes) tabs).
Proof.
  intros He Hmod Hgood Hsz m g. unfold arrange, Py.mod_.
  rewrite decide_False by lia. simpl. rewrite decide_False by tauto.
  rewrite sort_index_mapping_Ok by (by rewrite good_mapping_build).
  simpl. fold (index_mapping_of dicom_list index_list). fold m.
  rewrite resolve_geometry_Ok by done. simpl. fold g.
  rewrite build_ordering_comprehension.
  by destruct (comp_res _ _).
Qed.

End arrange_cases.

(** ** [write_manifests] (lines 432-434) *)

Lemma write_manifests_from (me_dir : string)
    (tabs : list (list (list string))) (n : nat) (l : list nat) (w : World) :
  length tabs = n → Forall (λ i, i < n)%nat l →
  for_M (Z.of_nat <$> l)
    (λ nEcho _,
       path ← lift (Py.getitem
                      (infile_lists
                         (ordering_of me_dir (Z.of_nat <$> seq 0 n) tabs))
                      nEcho ≫= from_str);
       text ← lift (Py.getitem
                      (concat_files
                         (ordering_of me_dir (Z.of_nat <$> seq 0 n) tabs))
                      nEcho ≫= from_str);
       write_file path text) () w
  = (Ok (),
     write_all
       ((λ i : nat, (infile_list_path me_dir (Z.of_nat i),
                     manifest_of (default [] (tabs !! i)))) <$> l) w).
Proof.
  intros Htabs Hl. revert w. induction Hl as [|i l Hi _ IH]; intros w; [done|].
  cbn [fmap list_fmap for_M]. unfold mbind at 1, M_bind.
  destruct (lookup_lt_is_Some_2 tabs i) as [tab Htab]; [lia|].
  unfold mbind at 1, M_bind, lift at 1.
  rewrite getitem_nat. cbn [ordering_of infile_lists concat_files].
  rewrite !list_lookup_fmap, lookup_seq_lt by done. simpl.
  unfold mbind at 1, M_bind, lift at 1.
  rewrite getitem_nat, list_lookup_fmap, Htab. simpl.
  exact (IH _).
Qed.

Lemma write_manifests_spec (me_dir : string) (echoes : Z)
    (tabs : list (list (list string))) (w : World) :
  length tabs = Z.to_nat echoes →
  write_manifests (ordering_of me_dir (Py.range echoes) tabs) echoes w
  = (Ok (), write_all (manifests_of me_dir echoes tabs) w).
Proof.
  intros Hlen. unfold write_manifests, Py.range.
  rewrite (write_manifests_from me_dir tabs (Z.to_nat echoes)); [|done|].
  2:{ apply Forall_forall. intros i Hi%elem_of_seq. lia. }
  do 2 f_equal. unfold manifests_of, Py.range.
  apply list_eq. intros i.
  rewrite list_lookup_fmap, lookup_zip_with, !list_lookup_fmap.
  destruct (decide (i < Z.to_nat echoes)%nat) as [Hi|Hi].
  - rewrite lookup_seq_lt by done. simpl.
    destruct (lookup_lt_is_Some_2 tabs i) as [tab ->]; [lia|]. done.
  - rewrite lookup_seq_ge by lia. done.
Qed.

(** ** Paths *)

Lemma string_app_cons (x : ascii) (a b : string) :
  String x a +:+ b = String x (a +:+ b).
Proof. done. Qed.

Lemma string_app_assoc (a b c : string) : (a +:+ b) +:+ c = a +:+ b +:+ c.
Proof.
  induction a as [|x a IH]; [done|]. by rewrite !string_app_cons, IH.
Qed.

Lemma chars_app (a b : string) :
  Str.chars (a +:+ b) = Str.chars a ++ Str.chars b.
Proof.
  induction a as [|x a IH]; [done|]. rewrite string_app_cons. simpl.
  by rewrite IH.
Qed.

Lemma chars_inj (a b : string) : Str.chars a = Str.chars b → a = b.
Proof.
  intros H. by rewrite <-(of_chars_chars a), <-(of_chars_chars b), H.
Qed.

Lemma string_app_inj_r (a b t : string) : a +:+ t = b +:+ t → a = b.
Proof.
  intros H%(f_equal Str.chars). rewrite !chars_app in H.
  apply app_inv_tail in H. by apply chars_inj.
Qed.

Lemma prefix_app (p a b : string) :
  String.prefix (p +:+ a) (p +:+ b) = String.prefix a b.
Proof.
  induction p as [|x p IH]; [done|]. rewrite !string_app_cons. simpl.
  by destruct (ascii_dec x x).
Qed.

Lemma path_join_relative (a b : string) (c : ascii) (b' : string) :
  b = String c b' → c ≠ "/"%char →
  Str.path_join a b = dir_prefix a +:+ b.
Proof.
  intros -> Hc. unfold Str.path_join, dir_prefix. simpl.
  assert (match c with
          | "/"%char => String c b'
          | _ => if decide (a = "") then String c b'
                 else if Str.ends_with_slash a then a +:+ String c b'
                 else a +:+ "/" +:+ String c b'
          end = if decide (a = "") then String c b'
                else if Str.ends_with_slash a then a +:+ String c b'
                else a +:+ "/" +:+ String c b') as ->.
  { destruct c as [[] [] [] [] [] [] [] []]; done. }
  destruct (decide (a = "")); [done|].
  destruct (Str.ends_with_slash a); [done|].
  by rewrite string_app_assoc.
Qed.

Lemma infile_list_path_eq (me_dir : string) (k : Z) :
  infile_list_path me_dir k
  = dir_prefix me_dir +:+ "_me" +:+ Str.str k +:+ "_infilelist".
Proof.
  unfold infile_list_path. by erewrite path_join_relative.
Qed.

Lemma temp_dir_of_eq (me_dir : string) (k : Z) :
  temp_dir_of me_dir k = dir_prefix me_dir +:+ "temp_" +:+ Str.str k.
Proof.
  unfold temp_dir_of. by erewrite path_join_relative.
Qed.

(** Distinct echoes have distinct manifests. *)
Lemma infile_list_path_inj (me_dir : string) (j k : Z) :
  infile_list_path me_dir j = infile_list_path me_dir k → j = k.
Proof.
  rewrite !infile_list_path_eq. intros H.
  apply (inj (String.app _)) in H. apply (inj (String.app _)) in H.
  apply string_app_inj_r in H. unfold Str.str in H.
  by apply (inj pretty) in H.
Qed.

(** No manifest lies in a temporary directory. *)
Lemma infile_not_under_temp (me_dir : string) (j k : Z) :
  is_under (temp_dir_of me_dir j) (infile_list_path me_dir k) = false.
Proof.
  unfold is_under. rewrite temp_dir_of_eq, infile_list_path_eq.
  rewrite string_app_assoc, prefix_app. done.
Qed.

(** ** Writing the manifests *)

Lemma write_all_cons (p c : string) (l : list (string * string))
    (w : World) :
  write_all ((p, c) :: l) w = write_all l (write_file p c w).2.
Proof. done. Qed.

Lemma write_all_unchanged (l : list (string * string)) (w : World) :
  dirs (write_all l w) = dirs w ∧ procs (write_all l w) = procs w
  ∧ trace (write_all l w) = trace w ++ ((λ pc, EvWrite pc.1 pc.2) <$> l).
Proof.
  revert w. induction l as [|[p c] l IH]; intros w.
  - simpl. by rewrite app_nil_r.
  - rewrite write_all_cons. destruct (IH (write_file p c w).2) as (->&->&->).
    simpl. by rewrite <-app_assoc.
Qed.

Lemma write_all_other (l : list (string * string)) (w : World) (p : string) :
  p ∉ l.*1 → files (write_all l w) !! p = files w !! p.
Proof.
  revert w. induction l as [|[p' c] l IH]; intros w Hp; [done|].
  rewrite write_all_cons. rewrite fmap_cons, not_elem_of_cons in Hp.
  destruct Hp as [Hne Hp]. rewrite IH by done.
  simpl. by rewrite lookup_insert_ne.
Qed.

Lemma write_all_lookup (l : list (string * string)) (w : World)
    (p c : string) :
  NoDup l.*1 → (p, c) ∈ l → files (write_all l w) !! p = Some c.
Proof.
  revert w. induction l as [|[p' c'] l IH]; intros w Hnd Hin.
  { by apply not_elem_of_nil in Hin. }
  rewrite fmap_cons in Hnd. apply NoDup_cons in Hnd as [Hp' Hnd].
  rewrite write_all_cons. apply elem_of_cons in Hin as [[= <- <-]|Hin].
  - rewrite write_all_other by done. simpl. apply lookup_insert_eq.
  - by apply IH.
Qed.

Lemma manifests_of_NoDup (me_dir : string) (echoes : Z)
    (tabs : list (list (list string))) :
  NoDup (manifests_of me_dir echoes tabs).*1.
Proof.
  assert (∀ i p, (manifests_of me_dir echoes tabs).*1 !! i = Some p →
                 p = infile_list_path me_dir (Z.of_nat i)) as Hpath.
  { intros i p. unfold manifests_of.
    rewrite list_lookup_fmap, lookup_zip_with, !list_lookup_fmap.
    destruct (Py.range echoes !! i) as [k|] eqn:Hk; [|done].
    assert (i < Z.to_nat echoes)%nat as Hi.
    { apply lookup_lt_Some in Hk. by rewrite range_length in Hk. }
    rewrite range_lookup in Hk by done. simplify_eq. simpl.
    destruct (tabs !! i); simpl; [|done]. by intros [= <-]. }
  apply NoDup_alt. intros i j p Hi%Hpath Hj%Hpath. subst p.
  apply infile_list_path_inj in Hj. lia.
Qed.

Lemma manifests_of_lookup (me_dir : string) (echoes : Z)
    (tabs : list (list (list string))) (k : nat) tab :
  (k < Z.to_nat echoes)%nat → tabs !! k = Some tab →
  (infile_list_path me_dir (Z.of_nat k), manifest_of tab)
  ∈ manifests_of me_dir echoes tabs.
Proof.
  intros Hk Htab. apply list_elem_of_lookup. exists k.
  unfold manifests_of. rewrite lookup_zip_with, !list_lookup_fmap.
  by rewrite range_lookup, Htab.
Qed.

(** ** [order_files] (lines 357-434) step by step *)

Lemma order_files_unfold (env : Env) (scan_dir : string) (echoes : Z)
    (w : World) :
  let me_dir := Str.path_join scan_dir ME_SUBDIR in
  let dicom_list := glob env (Str.path_join scan_dir "*.dcm") in
  let w2 := log_event (EvPoolMap dicom_list) (os_mkdir me_dir w).2 in
  order_files env scan_dir echoes w =
  match extract_indices env dicom_list with
  | Raise e => (Raise e, w2)
  | Ok index_list =>
      match arrange dicom_list index_list echoes me_dir with
      | Raise e => (Raise e, w2)
      | Ok go =>
          match write_manifests go.2 echoes w2 with
          | (Ok _, w3) => (Ok go.2, w3)
          | (Raise e, w3) => (Raise e, w3)
          end
      end
  end.
Proof.
  intros me_dir dicom_list w2. unfold order_files.
  fold me_dir. fold dicom_list. unfold mbind, M_bind, lift.
  assert ((os_mkdir me_dir w).1 = Ok Created ∨ (os_mkdir me_dir w).1 = Ok FileExists)
    as Hmk.
  { unfold os_mkdir. destruct (decide _); auto. }
  destruct (os_mkdir me_dir w) as [r w1] eqn:Hw1. simpl in Hmk.
  subst w2. simpl.
  destruct Hmk as [-> | ->]; simpl;
    destruct (extract_indices env dicom_list) as [il|]; simpl; try done;
    destruct (arrange dicom_list il echoes me_dir) as [go|]; simpl; try done;
    destruct (write_manifests go.2 echoes _) as [[[]|] w3]; done.
Qed.

(** ** Loops with effects *)

(** The invariant rule: [I] holds before each iteration that starts, [E]
    holds in the world an exception leaves behind. *)
Lemma for_M_inv {A S} (I : S → World → Prop) (E : World → Prop)
    (l : list A) (body : A → S → M S) (s : S) (w : World) :
  (∀ a s w, a ∈ l → I s w →
     match body a s w with
     | (Ok s', w') => I s' w'
     | (Raise _, w') => E w'
     end) →
  I s w →
  match for_M l body s w with
  | (Ok s', w') => I s' w'
  | (Raise _, w') => E w'
  end.
Proof.
  revert s w. induction l as [|a l IH]; intros s w Hbody HI; [done|].
  cbn [for_M]. unfold mbind, M_bind.
  pose proof (Hbody a s w (list_elem_of_here _ _) HI) as Ha.
  destruct (body a s w) as [[s'|e] w']; [|done].
  apply IH; [|done]. intros. apply Hbody; [by right|done].
Qed.

Lemma since_refl (w : World) (P : list event → Prop) : P [] → since w w P.
Proof. intros HP. exists []. by rewrite app_nil_r. Qed.

Lemma since_log (w0 w : World) (ev : event) (P Q : list event → Prop) :
  since w0 w P → (∀ evs, P evs → Q (evs ++ [ev])) →
  since w0 (log_event ev w) Q.
Proof.
  intros (evs&Htr&HP) HQ. exists (evs ++ [ev]). split; [|by apply HQ].
  simpl. by rewrite Htr, <-app_assoc.
Qed.

Lemma since_same_trace (w0 w w' : World) (P : list event → Prop) :
  trace w' = trace w → since w0 w P → since w0 w' P.
Proof. intros Htr (evs&?&?). exists evs. by rewrite Htr. Qed.

Lemma waited_snoc (evs : list event) (ev : event) :
  is_rmtree ev = false →
  waited_before_removal evs → waited_before_removal (evs ++ [ev]).
Proof.
  intros Hev Hw j path Hj.
  destruct (decide (j < length evs)%nat) as [Hlt|Hge].
  - rewrite lookup_app_l in Hj by done.
    destruct (Hw j path Hj) as (h&i&pid&cmd&Hlt'&Hh&Hi).
    exists h, i, pid, cmd. split_and!; [lia|lia|..].
    + by rewrite lookup_app_l by lia.
    + by rewrite lookup_app_l by lia.
  - rewrite lookup_app_r in Hj by lia.
    destruct (j - length evs)%nat as [|n]; simpl in Hj; [|done].
    by simplify_eq.
Qed.

Lemma waited_communicate_rmtree (evs : list event) (pid h : nat)
    (command : list string) (path : string) :
  evs !! h = Some (EvPopen pid command path) →
  waited_before_removal evs →
  waited_before_removal (evs ++ [EvCommunicate pid] ++ [EvRmtree path]).
Proof.
  intros Hh Hw. rewrite app_assoc.
  intros j path' Hj.
  destruct (decide (j < length (evs ++ [EvCommunicate pid]))%nat)
    as [Hlt|Hge].
  - rewrite lookup_app_l in Hj by done.
    destruct (waited_snoc evs (EvCommunicate pid) eq_refl Hw j path' Hj)
      as (h'&i&pid'&cmd'&Hlt'&Hh'&Hi).
    exists h', i, pid', cmd'. split_and!; [lia|lia|..].
    + by rewrite lookup_app_l by lia.
    + by rewrite lookup_app_l by lia.
  - rewrite lookup_app_r in Hj by lia.
    rewrite length_app in Hge, Hj. simpl in Hge, Hj.
    destruct (j - (length evs + 1))%nat as [|n] eqn:Hn; simpl in Hj; [|done].
    simplify_eq.
    assert (h < length evs)%nat by (by eapply lookup_lt_Some).
    exists h, (length evs), pid, command. split_and!; [lia|lia|..].
    + rewrite lookup_app_l by (rewrite length_app; simpl; lia).
      by rewrite lookup_app_l by lia.
    + rewrite lookup_app_l by (rewrite length_app; simpl; lia).
      by rewrite list_lookup_middle.
Qed.

Lemma started_in_snoc (me_dir : string) (evs : list event) (ev : event)
    (dp : list (option nat)) :
  started_in me_dir evs dp → started_in me_dir (evs ++ [ev]) dp.
Proof.
  intros Hs k pid Hk. destruct (Hs k pid Hk) as (h&cmd&Hh).
  exists h, cmd. rewrite lookup_app_l; [done|]. by eapply lookup_lt_Some.
Qed.

(** ** The reconstructor processes (lines 448-485) *)

Lemma os_mkdir_since (w0 w : World) (path : string)
    (P : list event → Prop) :
  since w0 w P → (∀ evs ev, P evs → is_rmtree ev = false → P (evs ++ [ev])) →
  since w0 (os_mkdir path w).2 P.
Proof.
  intros Hs HP. unfold os_mkdir. destruct (decide _); simpl; [done|].
  eapply since_log; [|intros evs H; by apply HP].
  by eapply since_same_trace.
Qed.

Lemma dispatch_trace (o : Ordering) (scan_name me_dir : string)
    (echoes : Z) (w0 w : World) :
  since w0 w waited_before_removal →
  match dispatch o scan_name me_dir echoes w with
  | (Ok dp, w') =>
      since w0 w' (λ evs, waited_before_removal evs
                          ∧ started_in me_dir evs dp)
  | (Raise _, w') => since w0 w' waited_before_removal
  end.
Proof.
  intros Hw. unfold dispatch.
  apply (for_M_inv
           (λ dp w', since w0 w' (λ evs, waited_before_removal evs
                                         ∧ started_in me_dir evs dp))
           (λ w', since w0 w' waited_before_removal)).
  2:{ destruct Hw as (evs&Htr&Hevs). exists evs. split_and!; [done..|].
      intros k pid Hk. apply lookup_replicate in Hk as [? _]. done. }
  clear w Hw. intros a dp w Ha%elem_of_range HI.
  assert (since w0 w waited_before_removal) as Hw.
  { destruct HI as (evs&?&?&?). by exists evs. }
  set (inf := Py.getitem (infile_lists o) a ≫= from_str).
  unfold mbind, M_bind, lift.
  destruct (Str.int scan_name) as [n|]; [|done].
  pose proof (os_mkdir_since w0 w (temp_dir_of me_dir a) _ HI) as Hmk.
  destruct (os_mkdir (temp_dir_of me_dir a) w) as [[r|] w1] eqn:Hw1.
  2:{ unfold os_mkdir in Hw1. by destruct (decide _). }
  simpl in Hmk.
  assert (since w0 w1 (λ evs, waited_before_removal evs
                              ∧ started_in me_dir evs dp)) as HI1.
  { apply Hmk. intros evs ev [? ?] Hev. split.
    - by apply waited_snoc.
    - by apply started_in_snoc. }
  clear Hmk.
  destruct inf as [infile|].
  2:{ destruct HI1 as (evs&?&?&?). by exists evs. }
  unfold popen. cbn [fst snd].
  set (cmd := dimon_command _ _ _ _).
  set (w2 := log_event _ _).
  destruct (Py.setitem dp a (Some (length (procs w1)))) as [dp'|] eqn:Hset.
  - destruct HI1 as (evs&Htr&Hwait&Hst).
    exists (evs ++ [EvPopen (length (procs w1)) cmd (temp_dir_of me_dir a)]).
    split_and!.
    + subst w2. simpl. by rewrite Htr, <-app_assoc.
    + by apply waited_snoc.
    + unfold Py.setitem, Py.norm_index in Hset.
      destruct (decide (a < 0)) as [|_]; [lia|].
      destruct (decide (0 ≤ a < Py.len dp)) as [Hin|]; [|done].
      injection Hset as <-.
      intros k pid Hk.
      destruct (decide (k = Z.to_nat a)) as [->|Hne].
      * rewrite list_lookup_insert_eq in Hk by (unfold Py.len in Hin; lia).
        injection Hk as <-. exists (length evs), cmd.
        rewrite Z2Nat.id by lia. by rewrite list_lookup_middle.
      * rewrite list_lookup_insert_ne in Hk by done.
        by eapply (started_in_snoc _ _ _ _ Hst).
  - destruct HI1 as (evs&Htr&Hwait&Hst).
    exists (evs ++ [EvPopen (length (procs w1)) cmd (temp_dir_of me_dir a)]).
    split.
    + subst w2. simpl. by rewrite Htr, <-app_assoc.
    + by apply waited_snoc.
Qed.

Lemma wait_all_trace (dp : list (option nat)) (me_dir : string)
    (echoes : Z) (w0 w : World) :
  since w0 w (λ evs, waited_before_removal evs ∧ started_in me_dir evs dp) →
  since w0 (wait_all dp me_dir echoes w).2 waited_before_removal.
Proof.
  intros Hw. unfold wait_all.
  pose proof (for_M_inv
           (λ (_ : ()) w', since w0 w' (λ evs, waited_before_removal evs
                                         ∧ started_in me_dir evs dp))
           (λ w', since w0 w' waited_before_removal)
           (Py.range echoes)
           (λ nEcho _,
              p ← lift (Py.getitem dp nEcho);
              match p with
              | None => raise (AttributeError_NoneType "communicate")
              | Some pid =>
                  communicate pid;; rmtree (temp_dir_of me_dir nEcho)
              end) () w) as Hinv.
  destruct (for_M _ _ _ _) as [[[]|e] w'] eqn:Hfor; simpl.
  - destruct Hinv as (evs&?&?&?); [|done|by exists evs].
    clear w w' Hw Hfor. intros a [] w Ha%elem_of_range HI.
    assert (since w0 w waited_before_removal) as Hw.
    { destruct HI as (evs&?&?&?). by exists evs. }
    unfold mbind, M_bind, lift.
    destruct (Py.getitem dp a) as [[pid|]|] eqn:Hget; [|done..].
    unfold communicate, rmtree. cbn [fst snd].
    assert (dp !! Z.to_nat a = Some (Some pid)) as Hdp.
    { rewrite <-(Z2Nat.id a) in Hget by lia. rewrite getitem_nat in Hget.
      by destruct (dp !! Z.to_nat a); simplify_eq. }
    destruct HI as (evs&Htr&Hwait&Hst).
    destruct (Hst _ _ Hdp) as (h&cmd&Hh). rewrite Z2Nat.id in Hh by lia.
    destruct (decide _); simpl.
    + exists (evs ++ [EvCommunicate pid] ++ [EvRmtree (temp_dir_of me_dir a)]).
      split_and!.
      * cbn [trace log_event]. rewrite Htr. by rewrite <-!app_assoc.
      * by eapply waited_communicate_rmtree.
      * rewrite app_assoc. by do 2 apply started_in_snoc.
    + exists (evs ++ [EvCommunicate pid]). split.
      * cbn [trace log_event]. rewrite Htr. by rewrite <-!app_assoc.
      * by apply waited_snoc.
  - apply Hinv; [|done].
    clear w w' Hw Hfor Hinv. intros a [] w Ha%elem_of_range HI.
    assert (since w0 w waited_before_removal) as Hw.
    { destruct HI as (evs&?&?&?). by exists evs. }
    unfold mbind, M_bind, lift.
    destruct (Py.getitem dp a) as [[pid|]|] eqn:Hget; [|done..].
    unfold communicate, rmtree. cbn [fst snd].
    assert (dp !! Z.to_nat a = Some (Some pid)) as Hdp.
    { rewrite <-(Z2Nat.id a) in Hget by lia. rewrite getitem_nat in Hget.
      by destruct (dp !! Z.to_nat a); simplify_eq. }
    destruct HI as (evs&Htr&Hwait&Hst).
    destruct (Hst _ _ Hdp) as (h&cmd&Hh). rewrite Z2Nat.id in Hh by lia.
    destruct (decide _); simpl.
    + exists (evs ++ [EvCommunicate pid] ++ [EvRmtree (temp_dir_of me_dir a)]).
      split_and!.
      * cbn [trace log_event]. rewrite Htr. by rewrite <-!app_assoc.
      * by eapply waited_communicate_rmtree.
      * rewrite app_assoc. by do 2 apply started_in_snoc.
    + exists (evs ++ [EvCommunicate pid]). split.
      * cbn [trace log_event]. rewrite Htr. by rewrite <-!app_assoc.
      * by apply waited_snoc.
Qed.

(** ** [order_files] and [concatenate_scan] as a whole *)

Lemma arrange_ordering (dicom_list : list string) (index_list : list Z)
    (echoes : Z) (me_dir : string) (go : Geometry * Ordering) :
  arrange dicom_list index_list echoes me_dir = Ok go →
  go.2 = ordering_of me_dir (Py.range echoes) (concat_file_list go.2)
  ∧ length (concat_file_list go.2) = Z.to_nat echoes.
Proof.
  unfold arrange. destruct (Py.mod_ _ _) as [r|]; simpl; [|done].
  destruct (decide (r ≠ 0)); [done|].
  destruct (sort_index_mapping _) as [m|]; simpl; [|done].
  destruct (resolve_geometry _ _ _) as [g|]; simpl; [|done].
  rewrite build_ordering_comprehension.
  destruct (comp_res _ _) as [tabs|] eqn:Htabs; simpl; [|done].
  intros [= <-]. simpl. split; [done|].
  apply comp_res_length in Htabs. by rewrite Htabs, range_length.
Qed.

Lemma os_mkdir_frame (path : string) (w : World) :
  files (os_mkdir path w).2 = files w ∧ procs (os_mkdir path w).2 = procs w
  ∧ (os_mkdir path w).1 ≠ Raise (Exception_msg "")
  ∧ ∃ evs, trace (os_mkdir path w).2 = trace w ++ evs
           ∧ Forall (λ ev, ev = EvMkdir path) evs.
Proof.
  unfold os_mkdir. destruct (decide _); simpl; split_and!; try done.
  - exists []. by rewrite app_nil_r.
  - exists [EvMkdir path]. split; [done|]. by repeat constructor.
Qed.

(** The world [order_files] leaves: the directory made if it was missing,
    the headers read, and the planned manifests written; its result
    depends on the headers and names only. *)
Lemma order_files_world (env : Env) (scan_dir : string) (echoes : Z)
    (w : World) :
  let me_dir := Str.path_join scan_dir ME_SUBDIR in
  let dicom_list := glob env (Str.path_join scan_dir "*.dcm") in
  let w2 := log_event (EvPoolMap dicom_list) (os_mkdir me_dir w).2 in
  (order_files env scan_dir echoes w).2
  = write_all (planned_manifests env scan_dir echoes) w2
  ∧ (order_files env scan_dir echoes w).1
    = (go ← (index_list ← extract_indices env dicom_list;
             arrange dicom_list index_list echoes me_dir);
       Ok go.2).
Proof.
  intros me_dir dicom_list w2. rewrite order_files_unfold.
  unfold planned_manifests. fold me_dir dicom_list w2.
  destruct (extract_indices env dicom_list) as [il|]; simpl; [|done].
  destruct (arrange dicom_list il echoes me_dir) as [go|] eqn:Hgo; simpl;
    [|done].
  destruct (arrange_ordering _ _ _ _ _ Hgo) as [Ho Hlen].
  rewrite Ho at 1 3. rewrite write_manifests_spec by done. by simpl.
Qed.

Lemma waited_no_rmtree (evs : list event) :
  Forall (λ ev, is_rmtree ev = false) evs → waited_before_removal evs.
Proof.
  intros Hall j path Hj. rewrite Forall_forall in Hall.
  specialize (Hall _ (list_elem_of_lookup_2 _ _ _ Hj)). done.
Qed.

Lemma order_files_trace (env : Env) (scan_dir : string) (echoes : Z)
    (w : World) :
  since w (order_files env scan_dir echoes w).2
    (Forall (λ ev, is_rmtree ev = false ∧ is_popen ev = false)).
Proof.
  destruct (order_files_world env scan_dir echoes w) as [-> _].
  unfold since.
  destruct (write_all_unchanged (planned_manifests env scan_dir echoes)
              (log_event (EvPoolMap (glob env (Str.path_join scan_dir "*.dcm")))
                 (os_mkdir (Str.path_join scan_dir ME_SUBDIR) w).2))
    as (_&_&->).
  destruct (os_mkdir_frame (Str.path_join scan_dir ME_SUBDIR) w)
    as (_&_&_&evs&Htr&Hevs).
  cbn [trace log_event]. rewrite Htr. rewrite <-!app_assoc.
  eexists. split; [done|].
  rewrite !Forall_app. split_and!.
  - eapply Forall_impl; [done|]. by intros ? ->.
  - by repeat constructor.
  - apply Forall_fmap, Forall_true. done.
Qed.

Lemma run_dimon_trace (env : Env) (o : Ordering) (scan_dir : string)
    (echoes : Z) (w0 w : World) :
  since w0 w waited_before_removal →
  since w0 (run_dimon env o scan_dir echoes w).2 waited_before_removal.
Proof.
  intros Hw. unfold run_dimon, mbind, M_bind.
  pose proof (dispatch_trace o (Str.basename (abs_norm env scan_dir))
                (Str.path_join scan_dir ME_SUBDIR) echoes w0 w Hw) as Hd.
  destruct (dispatch _ _ _ _ _) as [[dp|e] w1]; [|done].
  by apply wait_all_trace.
Qed.

Lemma extract_indices_Ok (env : Env) (dicom_list : list string)
    (index_list : list Z) :
  extract_indices env dicom_list = Ok index_list ↔
  Forall2 (λ f i, get_slice_index env f = Ok i) dicom_list index_list.
Proof. unfold extract_indices. by rewrite pool_map_Ok, comp_res_Ok. Qed.

Lemma extract_indices_length (env : Env) (dicom_list : list string)
    (index_list : list Z) :
  extract_indices env dicom_list = Ok index_list →
  length dicom_list = length index_list.
Proof. intros H%extract_indices_Ok. by eapply Forall2_length. Qed.

(** [order_files] on a scan whose headers can be read, whose file count
    is a multiple of the echo count, whose file names match and which has
    at least as many distinct slice indices as echoes. *)
Lemma order_files_good (env : Env) (scan_dir : string) (echoes : Z)
    (w : World) (index_list : list Z) :
  let me_dir := Str.path_join scan_dir ME_SUBDIR in
  let dicom_list := glob env (Str.path_join scan_dir "*.dcm") in
  let w2 := log_event (EvPoolMap dicom_list) (os_mkdir me_dir w).2 in
  let m := index_mapping_of dicom_list index_list in
  let g := geometry_of index_list m echoes in
  extract_indices env dicom_list = Ok index_list →
  0 < echoes → Py.len index_list `mod` echoes = 0 →
  all_match dicom_list →
  echoes ≤ Z.of_nat (size m) →
  order_files env scan_dir echoes w =
  match comp_res (table g m) (Py.range echoes) with
  | Ok tabs => (Ok (ordering_of me_dir (Py.range echoes) tabs),
                write_all (manifests_of me_dir echoes tabs) w2)
  | Raise e => (Raise e, w2)
  end.
Proof.
  intros me_dir dicom_list w2 m g Hext He Hmod Hall Hsz.
  rewrite order_files_unfold. fold me_dir dicom_list w2. rewrite Hext.
  rewrite arrange_tables; [|by eapply extract_indices_length|done..].
  fold m g.
  destruct (comp_res (table g m) (Py.range echoes)) as [tabs|] eqn:Htabs;
    simpl; [|done].
  rewrite write_manifests_spec; [done|].
  apply comp_res_length in Htabs. by rewrite Htabs, range_length.
Qed.

(** [order_files] when line 389-430 raise: nothing is written. *)
Lemma order_files_Raise (env : Env) (scan_dir : string) (echoes : Z)
    (w : World) (index_list : list Z) (e : exn) :
  let me_dir := Str.path_join scan_dir ME_SUBDIR in
  let dicom_list := glob env (Str.path_join scan_dir "*.dcm") in
  let w2 := log_event (EvPoolMap dicom_list) (os_mkdir me_dir w).2 in
  extract_indices env dicom_list = Ok index_list →
  arrange dicom_list index_list echoes me_dir = Raise e →
  order_files env scan_dir echoes w = (Raise e, w2).
Proof.
  intros me_dir dicom_list w2 Hext Harr.
  rewrite order_files_unfold. fold me_dir dicom_list w2.
  by rewrite Hext, Harr.
Qed.

Lemma concatenate_scan_Raise (env : Env) (scan_dir : string) (echoes : Z)
    (w w' : World) (e : exn) :
  order_files env scan_dir echoes w = (Raise e, w') →
  concatenate_scan env scan_dir echoes w = (Raise e, w').
Proof. intros H. unfold concatenate_scan, mbind, M_bind. by rewrite H. Qed.

Lemma no_write_no_popen (path : string) (w : World)
    (dicom_list : list string) :
  let w2 := log_event (EvPoolMap dicom_list) (os_mkdir path w).2 in
  files w2 = files w ∧ procs w2 = procs w
  ∧ since w w2 (Forall (λ ev, is_write ev = false ∧ is_popen ev = false)).
Proof.
  intros w2. destruct (os_mkdir_frame path w) as (Hf&Hp&_&evs&Htr&Hevs).
  subst w2. split_and!; [done..|].
  exists (evs ++ [EvPoolMap dicom_list]). split.
  - cbn [trace log_event]. by rewrite Htr, <-app_assoc.
  - apply Forall_app. split; [|by repeat constructor].
    eapply Forall_impl; [done|]. by intros ? ->.
Qed.

(** ** Distinct slice indices and blocks *)

Lemma index_mapping_of_lookup dicom_list index_list (i : Z) :
  index_mapping_of dicom_list index_list !! i =
  match files_of dicom_list index_list i with
  | [] => None
  | fs => Some (Py.sorted_by file_number fs)
  end.
Proof.
  unfold index_mapping_of. rewrite lookup_fmap, build_index_mapping_lookup.
  by destruct (files_of _ _ _).
Qed.

Lemma index_mapping_of_dom dicom_list index_list :
  length dicom_list = length index_list →
  dom (index_mapping_of dicom_list index_list)
  = (list_to_set index_list : gset Z).
Proof.
  intros Hlen. apply set_eq. intros i.
  rewrite elem_of_dom, elem_of_list_to_set.
  unfold index_mapping_of. rewrite lookup_fmap, fmap_is_Some.
  by apply build_index_mapping_dom.
Qed.

(** The mapping has one key per distinct slice index. *)
Lemma index_mapping_of_size dicom_list index_list :
  length dicom_list = length index_list →
  size (index_mapping_of dicom_list index_list) = distinct_count index_list.
Proof.
  intros Hlen. unfold distinct_count.
  by rewrite <-(index_mapping_of_dom dicom_list), size_dom.
Qed.

Lemma concat_blocks (S : list Z) (nSp k : nat) :
  concat (block S nSp <$> seq 0 k) = take (k * nSp) S.
Proof.
  induction k as [|k IH]; [done|].
  rewrite seq_S, fmap_app, concat_app, IH. simpl. rewrite app_nil_r.
  unfold block. rewrite take_take_drop. f_equal. lia.
Qed.

(** ** Searching the ordering *)

Lemma find_in_row_Some (p : string) (row : list string) (x : nat) :
  find_in_row p row = Some x → row !! x = Some p.
Proof.
  revert x. induction row as [|c row IH]; intros x; simpl; [done|].
  destruct (decide (c = p)) as [->|Hne].
  - by intros [= <-].
  - destruct (find_in_row p row) as [x'|]; simpl; [|done].
    intros [= <-]. by apply IH.
Qed.

Lemma find_in_row_None (p : string) (row : list string) :
  find_in_row p row = None → p ∉ row.
Proof.
  induction row as [|c row IH]; simpl; [intros _; apply not_elem_of_nil|].
  destruct (decide (c = p)) as [->|Hne]; [done|].
  destruct (find_in_row p row); simpl; [done|]. intros _.
  apply not_elem_of_cons. split; [done|]. by apply IH.
Qed.

Lemma find_in_rows_Some (p : string) (rows : list (list string))
    (t x : nat) :
  find_in_rows p rows = Some (t, x) →
  ∃ row, rows !! t = Some row ∧ row !! x = Some p.
Proof.
  revert t. induction rows as [|row rows IH]; intros t; simpl; [done|].
  destruct (find_in_row p row) as [x'|] eqn:Hrow.
  - intros [= <- <-]. exists row. split; [done|]. by apply find_in_row_Some.
  - destruct (find_in_rows p rows) as [[t' x'']|]; simpl; [|done].
    intros [= <- <-]. by apply IH.
Qed.

Lemma find_in_rows_None (p : string) (rows : list (list string)) :
  find_in_rows p rows = None → ∀ row, row ∈ rows → p ∉ row.
Proof.
  induction rows as [|row rows IH]; simpl.
  - intros _ row Hrow. by apply not_elem_of_nil in Hrow.
  - destruct (find_in_row p row) as [x'|] eqn:Hrow; [done|].
    destruct (find_in_rows p rows); simpl; [done|]. intros _ row'.
    intros [->|Hin]%elem_of_cons; [by apply find_in_row_None|by apply IH].
Qed.

Lemma find_in_tables_Some (p : string) (tabs : list (list (list string)))
    (e t x : nat) :
  find_in_tables p tabs = Some (e, t, x) →
  ∃ rows row, tabs !! e = Some rows ∧ rows !! t = Some row
              ∧ row !! x = Some p.
Proof.
  revert e. induction tabs as [|rows tabs IH]; intros e; simpl; [done|].
  destruct (find_in_rows p rows) as [[t' x']|] eqn:Hrows.
  - intros [= <- <- <-]. apply find_in_rows_Some in Hrows as (row&?&?).
    by exists rows, row.
  - destruct (find_in_tables p tabs) as [[[e' t'] x']|]; simpl; [|done].
    intros [= <- <- <-]. by apply IH.
Qed.

Lemma find_in_tables_None (p : string) (tabs : list (list (list string))) :
  find_in_tables p tabs = None →
  ∀ rows row, rows ∈ tabs → row ∈ rows → p ∉ row.
Proof.
  induction tabs as [|rows tabs IH]; simpl.
  - intros _ rows row Hrows. by apply not_elem_of_nil in Hrows.
  - destruct (find_in_rows p rows) as [[t' x']|] eqn:Hrows; [done|].
    destruct (find_in_tables p tabs); simpl; [done|]. intros _ rows' row.
    intros [->|Hin]%elem_of_cons.
    + by apply find_in_rows_None.
    + by apply IH.
Qed.

Lemma cell_at_Some (o : Ordering) (e t x : nat) (p : string) :
  cell_at o e t x = Some p ↔
  ∃ rows row, concat_file_list o !! e = Some rows ∧ rows !! t = Some row
              ∧ row !! x = Some p.
Proof.
  unfold cell_at. split.
  - destruct (concat_file_list o !! e) as [rows|]; simpl; [|done].
    destruct (rows !! t) as [row|] eqn:Hrow; simpl; [|done].
    intros Hp. by exists rows, row.
  - intros (rows&row&->&Hrow&Hp). simpl. by rewrite Hrow.
Qed.

(** The search finds the coordinates of every path of the ordering when
    no path occurs twice. *)
Lemma coordinates_of_cell (o : Ordering) :
  (∀ e t x e' t' x' p, cell_at o e t x = Some p →
     cell_at o e' t' x' = Some p → (e, t, x) = (e', t', x')) →
  ∀ e t x p, cell_at o e t x = Some p ↔ coordinates_of o p = Some (e, t, x).
Proof.
  intros Hinj e t x p. unfold coordinates_of. split.
  - intros Hcell.
    destruct (find_in_tables p (concat_file_list o)) as [[[e' t'] x']|]
      eqn:Hfind.
    + apply find_in_tables_Some in Hfind. apply cell_at_Some in Hfind.
      f_equal. by eapply Hinj.
    + exfalso. apply cell_at_Some in Hcell as (rows&row&Hrows&Hrow&Hp).
      eapply (find_in_tables_None _ _ Hfind rows row).
      * by eapply list_elem_of_lookup_2.
      * by eapply list_elem_of_lookup_2.
      * by eapply list_elem_of_lookup_2.
  - intros Hfind%find_in_tables_Some. by apply cell_at_Some.
Qed.

(** ** The files of the index mapping are placed once *)

Lemma files_of_index dicom_list index_list (i j : Z) (f : string) :
  NoDup dicom_list →
  f ∈ files_of dicom_list index_list i →
  f ∈ files_of dicom_list index_list j → i = j.
Proof.
  intros Hnd Hi Hj. unfold files_of in Hi, Hj.
  apply list_elem_of_fmap in Hi as ([f1 i1]&->&Hi).
  apply list_elem_of_fmap in Hj as ([f2 j1]&Hf&Hj). simpl in Hf. subst f2.
  apply list_elem_of_filter in Hi as [Hi1 Hi], Hj as [Hj1 Hj].
  simpl in Hi1, Hj1. subst i1 j1.
  apply list_elem_of_lookup in Hi as [n Hn], Hj as [n' Hn'].
  rewrite lookup_zip_with in Hn, Hn'.
  destruct (dicom_list !! n) as [a|] eqn:Ha; simpl in Hn; [|done].
  destruct (index_list !! n) as [b|] eqn:Hb; simpl in Hn; [|done].
  destruct (dicom_list !! n') as [a'|] eqn:Ha'; simpl in Hn'; [|done].
  destruct (index_list !! n') as [b'|] eqn:Hb'; simpl in Hn'; [|done].
  simplify_eq.
  assert (n = n') by (by eapply NoDup_lookup). congruence.
Qed.

Lemma files_of_NoDup dicom_list index_list (i : Z) :
  NoDup dicom_list → NoDup (files_of dicom_list index_list i).
Proof.
  intros Hnd. unfold files_of.
  eapply (sublist_NoDup _ (zip dicom_list index_list).*1).
  - eapply sublist_NoDup; [done|].
    clear. revert index_list.
    induction dicom_list as [|f l IH]; intros [|i il]; simpl;
      try apply sublist_nil_l.
    apply sublist_skip, IH.
  - apply fmap_sublist, sublist_filter.
Qed.

Lemma index_mapping_of_files dicom_list index_list (i : Z) fs :
  index_mapping_of dicom_list index_list !! i = Some fs →
  fs ≡ₚ files_of dicom_list index_list i.
Proof.
  rewrite index_mapping_of_lookup.
  destruct (files_of dicom_list index_list i) as [|f l] eqn:Hfs; [done|].
  intros [= <-]. apply (sorted_by_perm file_number (f :: l)).
Qed.

Lemma entry_inj dicom_list index_list (nSp e t x e' t' x' : nat) (p : string) :
  NoDup dicom_list →
  (x < nSp)%nat → (x' < nSp)%nat →
  entry (index_mapping_of dicom_list index_list) nSp e t x = Some p →
  entry (index_mapping_of dicom_list index_list) nSp e' t' x' = Some p →
  (e, t, x) = (e', t', x').
Proof.
  intros Hnd Hx Hx' H1 H2. unfold entry in H1, H2.
  set (m := index_mapping_of dicom_list index_list) in *.
  destruct (sorted_keys m !! (e * nSp + x)%nat) as [i|] eqn:Hi;
    simpl in H1; [|done].
  destruct (sorted_keys m !! (e' * nSp + x')%nat) as [i'|] eqn:Hi';
    simpl in H2; [|done].
  destruct (m !! i) as [fs|] eqn:Hfs; simpl in H1; [|done].
  destruct (m !! i') as [fs'|] eqn:Hfs'; simpl in H2; [|done].
  pose proof (index_mapping_of_files _ _ _ _ Hfs) as Hperm.
  pose proof (index_mapping_of_files _ _ _ _ Hfs') as Hperm'.
  assert (i = i') as <-.
  { apply (files_of_index dicom_list index_list i i' p Hnd).
    - rewrite <-Hperm. by eapply list_elem_of_lookup_2.
    - rewrite <-Hperm'. by eapply list_elem_of_lookup_2. }
  assert (e * nSp + x = e' * nSp + x')%nat as Hpos.
  { eapply NoDup_lookup; [|exact Hi|exact Hi'].
    unfold sorted_keys, Py.sorted. rewrite sorted_by_perm.
    apply NoDup_fst_map_to_list. }
  assert (e = e') as <- by nia. assert (x = x') as <- by lia.
  simplify_eq.
  assert (t = t') as <-; [|done].
  eapply NoDup_lookup; [|exact H1|exact H2].
  rewrite Hperm. by apply files_of_NoDup.
Qed.

(** ** What a run leaves in the manifests *)

Lemma write_all_files (l : list (string * string)) (w w' : World) :
  files w = files w' → files (write_all l w) = files (write_all l w').
Proof.
  revert w w'. induction l as [|[p c] l IH]; intros w w' Hf; [done|].
  rewrite !write_all_cons. apply IH. simpl. by rewrite Hf.
Qed.

Lemma rmtree_files (path p : string) (w : World) :
  is_under path p = false →
  files (rmtree path w).2 !! p = files w !! p.
Proof.
  intros Hp. unfold rmtree. destruct (decide _); [|done]. simpl.
  apply option_eq. intros c. rewrite map_lookup_filter_Some. simpl.
  naive_solver.
Qed.

Lemma dispatch_files (o : Ordering) (scan_name me_dir : string)
    (echoes : Z) (w : World) :
  files (dispatch o scan_name me_dir echoes w).2 = files w.
Proof.
  unfold dispatch.
  pose proof (for_M_inv (λ (_ : list (option nat)) w', files w' = files w)
                (λ w', files w' = files w) (Py.range echoes)
                (λ nEcho dimon_proc,
                   n ← lift (Str.int scan_name);
                   let output_filename :=
                     "run" +:+ Str.format_0d 4 n +:+ ".e"
                       +:+ Str.format_0d 2 nEcho in
                   n ← lift (Str.int scan_name);
                   let gert_filename :=
                     "GERT_Reco_dicom_" +:+ Str.format_0d 3 n +:+ "_e"
                       +:+ Str.format_0d 2 nEcho in
                   let temp_dir := temp_dir_of me_dir nEcho in
                   os_mkdir temp_dir;;
                   infile_list ← lift (Py.getitem (infile_lists o) nEcho
                                        ≫= from_str);
                   pid ← popen (dimon_command infile_list gert_filename
                                  me_dir output_filename) temp_dir;
                   lift (Py.setitem dimon_proc nEcho (Some pid)))
                (replicate (length (Py.range echoes)) None) w) as Hinv.
  destruct (for_M _ _ _ _) as [[dp|e] w'] eqn:Hfor; simpl;
    (apply Hinv; [|done]); clear;
    intros a dp w1 _ Hw1;
    set (inf := Py.getitem (infile_lists o) a ≫= from_str);
    unfold mbind, M_bind, lift;
    (destruct (Str.int scan_name) as [n|]; [|done]);
    destruct (os_mkdir_frame (temp_dir_of me_dir a) w1) as (Hf&_);
    (destruct (os_mkdir (temp_dir_of me_dir a) w1) as [[r|] w2]; simpl in Hf;
     [|by rewrite Hf]);
    (destruct inf as [infile|]; [|by rewrite Hf]);
    unfold popen; cbn [fst snd];
    destruct (Py.setitem dp a _); simpl; by rewrite Hf.
Qed.

Lemma wait_all_files (dp : list (option nat)) (me_dir : string)
    (echoes : Z) (w : World) (p : string) :
  (∀ k, is_under (temp_dir_of me_dir k) p = false) →
  files (wait_all dp me_dir echoes w).2 !! p = files w !! p.
Proof.
  intros Hp. unfold wait_all.
  pose proof (for_M_inv (λ (_ : ()) w', files w' !! p = files w !! p)
                (λ w', files w' !! p = files w !! p) (Py.range echoes)
                (λ nEcho _,
                   q ← lift (Py.getitem dp nEcho);
                   match q with
                   | None => raise (AttributeError_NoneType "communicate")
                   | Some pid =>
                       communicate pid;; rmtree (temp_dir_of me_dir nEcho)
                   end) () w) as Hinv.
  destruct (for_M _ _ _ _) as [[[]|e] w'] eqn:Hfor; simpl;
    (apply Hinv; [|done]); clear -Hp;
    intros a [] w1 _ Hw1;
    unfold mbind, M_bind, lift;
    (destruct (Py.getitem dp a) as [[pid|]|]; [|done..]);
    unfold communicate; cbn [fst snd];
    set (w2 := log_event _ _);
    pose proof (rmtree_files (temp_dir_of me_dir a) p w2 (Hp a)) as Hrm;
    (destruct (rmtree (temp_dir_of me_dir a) w2) as [[[]|] w3];
     simpl in Hrm; by rewrite Hrm).
Qed.

Lemma run_dimon_files (env : Env) (o : Ordering) (scan_dir : string)
    (echoes : Z) (w : World) (p : string) :
  (∀ k, is_under (temp_dir_of (Str.path_join scan_dir ME_SUBDIR) k) p
        = false) →
  files (run_dimon env o scan_dir echoes w).2 !! p = files w !! p.
Proof.
  intros Hp. unfold run_dimon, mbind, M_bind.
  pose proof (dispatch_files o (Str.basename (abs_norm env scan_dir))
                (Str.path_join scan_dir ME_SUBDIR) echoes w) as Hd.
  destruct (dispatch _ _ _ _ _) as [[dp|e] w1]; simpl in Hd.
  - rewrite wait_all_files by done. by rewrite Hd.
  - simpl. by rewrite Hd.
Qed.

(** The manifests after a run are the planned ones, written over what
    was there. *)
Lemma concatenate_scan_files (env : Env) (scan_dir : string) (echoes : Z)
    (w : World) (p : string) :
  (∀ k, is_under (temp_dir_of (Str.path_join scan_dir ME_SUBDIR) k) p
        = false) →
  files (concatenate_scan env scan_dir echoes w).2 !! p
  = files (write_all (planned_manifests env scan_dir echoes) w) !! p.
Proof.
  intros Hp. unfold concatenate_scan, mbind, M_bind.
  destruct (order_files_world env scan_dir echoes w) as [Hw _].
  destruct (order_files env scan_dir echoes w) as [[o|e] w1]; simpl in Hw.
  - rewrite run_dimon_files by done. rewrite Hw.
    f_equal. apply write_all_files. simpl. apply os_mkdir_frame.
  - simpl. rewrite Hw. f_equal. apply write_all_files. simpl.
    apply os_mkdir_frame.
Qed.

Lemma planned_manifests_NoDup (env : Env) (scan_dir : string) (echoes : Z) :
  NoDup (planned_manifests env scan_dir echoes).*1.
Proof.
  unfold planned_manifests.
  destruct (extract_indices _ _); [|constructor].
  destruct (arrange _ _ _ _); [|constructor].
  apply manifests_of_NoDup.
Qed.

(** ** The completeness check (lines 195-261) *)

Lemma make_complete_world (env : Env) (exam_dir : string) (echoes : Z)
    (w : World) :
  (make_complete env exam_dir echoes w).2 = w.
Proof.
  unfold make_complete, mbind, M_bind, lift.
  destruct (list_of_gen (find_incomplete_dicom_sets _ _ _)); [|done].
  by destruct (list_of_gen (find_incomplete_concatenations _ _ _ _)).
Qed.

Lemma incomplete_among_complete (env : Env) (scan_dirs : list string) :
  Forall (complete env) scan_dirs →
  incomplete_among env scan_dirs = ([], None).
Proof.
  induction 1 as [|d ds (file0&info&sl&vol&Hf&Hr&Hs&Hv&Hprod) _ IH]; [done|].
  simpl. rewrite (getitem_Ok _ 0 file0) by done. simpl.
  unfold read_file. rewrite Hr. simpl. rewrite Hs, Hv. simpl.
  by rewrite bool_decide_false by (intros ?; done).
Qed.

(** Line 224: the first incomplete scan ends the enumeration with a
    [NameError]; nothing was yielded before, nothing is after. *)
Lemma incomplete_among_incomplete (env : Env) (done_ : list string)
    (d : string) (rest : list string) :
  Forall (complete env) done_ → incomplete env d →
  incomplete_among env (done_ ++ d :: rest) = ([], Some (NameError "scan")).
Proof.
  intros Hdone (file0&info&sl&vol&Hf&Hr&Hs&Hv&Hprod).
  induction Hdone as [|d' ds (f0&i0&s0&v0&Hf0&Hr0&Hs0&Hv0&Hp0) _ IH]; simpl.
  - rewrite (getitem_Ok _ 0 file0) by done. simpl.
    unfold read_file. rewrite Hr. simpl. rewrite Hs, Hv. simpl.
    by rewrite bool_decide_true.
  - rewrite (getitem_Ok _ 0 f0) by done. simpl.
    unfold read_file. rewrite Hr0. simpl. rewrite Hs0, Hv0. simpl.
    by rewrite bool_decide_false by (intros ?; done).
Qed.

Lemma for_M_world_unchanged {A} (l : list A) (body : A → () → M ())
    (w : World) :
  (∀ a s w, (body a s w).2 = w) → (for_M l body () w).2 = w.
Proof.
  intros Hbody. revert w. induction l as [|a l IH]; intros w; [done|].
  cbn [for_M]. unfold mbind, M_bind.
  pose proof (Hbody a () w) as Ha.
  destruct (body a () w) as [[[]|e] w']; simpl in Ha; subst w'; [|done].
  apply IH.
Qed.

(** * The claims *)

(** Decides a closed decidable proposition by evaluation. *)
Ltac by_compute := apply (bool_decide_unpack _); vm_compute; exact I.

(** C6. If the number of DICOM files of the scan is not a multiple of the
    echo count, the run raises before line 395: the exception is the
    [IndexError] of line 391 (a [ZeroDivisionError] for an echo count of
    zero, the exception of the header read if that failed first); no
    index mapping is built, no manifest written, no process started. *)
Theorem C6_file_count_not_divisible (env : Env) (scan_dir : string)
    (echoes : Z) (w : World) :
  let me_dir := Str.path_join scan_dir ME_SUBDIR in
  let dicom_list := glob env (Str.path_join scan_dir "*.dcm") in
  let w2 := log_event (EvPoolMap dicom_list) (os_mkdir me_dir w).2 in
  Py.len dicom_list `mod` echoes ≠ 0 →
  ∃ e, order_files env scan_dir echoes w = (Raise e, w2)
       ∧ concatenate_scan env scan_dir echoes w = (Raise e, w2)
       ∧ (is_Ok (extract_indices env dicom_list) →
          e = if decide (echoes = 0) then ZeroDivisionError
              else IndexError_not_divisible (Py.len dicom_list) echoes)
       ∧ files w2 = files w ∧ procs w2 = procs w
       ∧ since w w2 (Forall (λ ev, is_write ev = false
                                   ∧ is_popen ev = false)).
Proof.
  intros me_dir dicom_list w2 Hmod.
  assert (∃ e, order_files env scan_dir echoes w = (Raise e, w2)
               ∧ (is_Ok (extract_indices env dicom_list) →
                  e = if decide (echoes = 0) then ZeroDivisionError
                      else IndexError_not_divisible (Py.len dicom_list)
                             echoes)) as (e&Ho&He).
  { rewrite order_files_unfold. fold me_dir dicom_list w2.
    destruct (extract_indices env dicom_list) as [il|e] eqn:Hext.
    2:{ exists e. split; [done|]. by intros [? ?]. }
    pose proof (extract_indices_length _ _ _ Hext) as Hlen.
    assert (Py.len il = Py.len dicom_list) as Hlen'.
    { unfold Py.len. by rewrite Hlen. }
    destruct (decide (echoes = 0)) as [->|Hne].
    - exists ZeroDivisionError. by rewrite arrange_zero_echoes.
    - eexists. rewrite arrange_not_divisible by (by rewrite ?Hlen').
      by rewrite Hlen'. }
  exists e. split_and!; [done|by apply concatenate_scan_Raise|done|..];
    apply no_write_no_popen.
Qed.

Lemma C6_witness :
  let env := Sample.env "/exam/7" Sample.scan_3_files 1 3 in
  ∃ e, concatenate_scan env "/exam/7" 2 Sample.world0
       = (Raise e, log_event (EvPoolMap Sample.scan_3_files.*1)
                     (os_mkdir "/exam/7/medata" Sample.world0).2)
       ∧ (is_Ok (extract_indices env Sample.scan_3_files.*1) →
          e = IndexError_not_divisible 3 2).
Proof.
  intros env.
  destruct (C6_file_count_not_divisible env "/exam/7" 2 Sample.world0)
    as (e&_&Hc&He&_).
  - vm_compute. discriminate.
  - exists e. split; [exact Hc|exact He].
Defined.

(** The paths on which [fileNumbering.match] succeeds are those the
    regular expression of line 403 describes. *)
Lemma match_matches (f : string) :
  is_Some (FileNumbering.match_ f)
  ↔ ∃ d, FileNumbering.matches (Str.chars f) d.
Proof.
  unfold FileNumbering.match_. rewrite fmap_is_Some. split.
  - intros [ds Hds]. exists (reverse ds). apply match_rev_matches.
    by rewrite reverse_involutive.
  - intros [d Hd%match_rev_matches]. by eexists.
Qed.

(** C10, as the code has it. The sort key of line 404 is defined exactly
    on the paths that match the pattern of line 403 from their first
    character on (the whole path, not the base name: a line feed in a
    directory name makes the match fail). If every path of the scan
    matches, the key is defined on each and [sorted] returns, for any
    files of the scan, a permutation of them in ascending file number. If
    some path does not match, the run raises and writes no manifest. *)
Theorem C10_file_names (env : Env) (scan_dir : string) (echoes : Z)
    (w : World) :
  let me_dir := Str.path_join scan_dir ME_SUBDIR in
  let dicom_list := glob env (Str.path_join scan_dir "*.dcm") in
  let w2 := log_event (EvPoolMap dicom_list) (os_mkdir me_dir w).2 in
  (∀ f, is_Ok (FileNumbering.fileNumberExtractor f)
        ↔ ∃ d, FileNumbering.matches (Str.chars f) d)
  ∧ (all_match dicom_list →
     Forall (λ f, is_Ok (FileNumbering.fileNumberExtractor f)) dicom_list
     ∧ ∀ fs, fs ⊆ dicom_list →
         ∃ sorted,
           Py.sorted_key FileNumbering.fileNumberExtractor fs = Ok sorted
           ∧ sorted ≡ₚ fs
           ∧ StronglySorted (λ a b, file_number a ≤ file_number b) sorted)
  ∧ (¬ all_match dicom_list →
     ∃ e, order_files env scan_dir echoes w = (Raise e, w2)
          ∧ concatenate_scan env scan_dir echoes w = (Raise e, w2)
          ∧ files w2 = files w
          ∧ (is_Ok (extract_indices env dicom_list) → echoes ≠ 0 →
             Py.len dicom_list `mod` echoes = 0 →
             e = AttributeError_NoneType "group")).
Proof.
  intros me_dir dicom_list w2. split_and!.
  - intros f. by rewrite fileNumberExtractor_Ok, match_matches.
  - intros Hall. split.
    + eapply Forall_impl; [exact Hall|]. intros f.
      by rewrite fileNumberExtractor_Ok.
    + intros fs Hfs. exists (Py.sorted_by file_number fs). split_and!.
      * apply sorted_key_files. apply Forall_forall. intros f Hf.
        unfold all_match in Hall. rewrite Forall_forall in Hall. auto.
      * apply sorted_by_perm.
      * apply sorted_by_sorted.
  - intros Hbad.
    assert (∃ e, order_files env scan_dir echoes w = (Raise e, w2)
                 ∧ (is_Ok (extract_indices env dicom_list) → echoes ≠ 0 →
                    Py.len dicom_list `mod` echoes = 0 →
                    e = AttributeError_NoneType "group")) as (e&Ho&He).
    { rewrite order_files_unfold. fold me_dir dicom_list w2.
      destruct (extract_indices env dicom_list) as [il|e] eqn:Hext.
      2:{ exists e. split; [done|]. by intros [? ?]. }
      pose proof (extract_indices_length _ _ _ Hext) as Hlen.
      assert (Py.len il = Py.len dicom_list) as Hlen'.
      { unfold Py.len. by rewrite Hlen. }
      destruct (decide (echoes = 0)) as [->|Hne].
      { exists ZeroDivisionError. by rewrite arrange_zero_echoes. }
      destruct (decide (Py.len il `mod` echoes = 0)) as [Hmod|Hmod].
      - exists (AttributeError_NoneType "group").
        by rewrite arrange_bad_name.
      - eexists. rewrite arrange_not_divisible by done.
        split; [done|]. intros _ _ Hmod'. by rewrite Hlen' in Hmod. }
    exists e. split_and!; [done|by apply concatenate_scan_Raise| |done].
    apply no_write_no_popen.
Qed.

Lemma C10_witness :
  let env := Sample.env "/exam/7" Sample.scan_2x2x2 2 2 in
  let env' := Sample.env "/exam/7" Sample.scan_bad_name 1 1 in
  Forall (λ f, is_Ok (FileNumbering.fileNumberExtractor f))
    Sample.scan_2x2x2.*1
  ∧ ∃ e, concatenate_scan env' "/exam/7" 2 Sample.world0
         = (Raise e, log_event (EvPoolMap Sample.scan_bad_name.*1)
                       (os_mkdir "/exam/7/medata" Sample.world0).2)
         ∧ e = AttributeError_NoneType "group".
Proof.
  intros env env'. split.
  - destruct (C10_file_names env "/exam/7" 2 Sample.world0) as (_&Hgood&_).
    apply Hgood. by_compute.
  - destruct (C10_file_names env' "/exam/7" 2 Sample.world0) as (_&_&Hbad).
    destruct Hbad as (e&_&Hc&_&He).
    + by_compute.
    + exists e. split; [exact Hc|]. apply He.
      * vm_compute. by eexists.
      * discriminate.
      * by vm_compute.
Defined.

(** C10 as stated fails: every base name of this scan matches
    ['<anything>-<digits>-<alphanumeric>.dcm'], yet the sort key is
    undefined on its paths and the run raises, because the directory name
    holds a line feed, which [.*] does not cross. *)
Lemma C10_counterexample :
  let env := Sample.env Sample.line_feed_dir Sample.scan_line_feed 1 2 in
  Forall (λ f, is_Some (FileNumbering.match_ (Str.basename f)))
    Sample.scan_line_feed.*1
  ∧ Forall (λ f, FileNumbering.fileNumberExtractor f
                 = Raise (AttributeError_NoneType "group"))
      Sample.scan_line_feed.*1
  ∧ (order_files env Sample.line_feed_dir 2 Sample.world0).1
    = Raise (AttributeError_NoneType "group").
Proof.
  intros env. split_and!.
  - by_compute.
  - repeat constructor.
  - by vm_compute.
Qed.

(** C3, as the code has it. The only divisibility test is the one of line
    390, on the number of files: when that number is not a multiple of
    the echo count, line 391 raises. The number of distinct slice indices
    is not tested. With fewer distinct indices than echoes, line 414
    divides by zero. Otherwise the geometry is resolved whether or not
    the echo count divides the number of distinct indices: the number of
    spatial slices is the quotient rounded down, and the blocks hold the
    first [echoes * nSpatialSlices] sorted indices, which leaves the
    largest [distinct mod echoes] indices out of every echo. *)
Theorem C3_distinct_indices_unchecked (dicom_list : list string)
    (index_list : list Z) (echoes : Z) (me_dir : string) :
  let m := index_mapping_of dicom_list index_list in
  let g := geometry_of index_list m echoes in
  let distinct := Z.of_nat (distinct_count index_list) in
  length dicom_list = length index_list →
  0 < echoes →
  all_match dicom_list →
  (Py.len index_list `mod` echoes ≠ 0 →
   arrange dicom_list index_list echoes me_dir
   = Raise (IndexError_not_divisible (Py.len index_list) echoes))
  ∧ (Py.len index_list `mod` echoes = 0 → distinct < echoes →
     arrange dicom_list index_list echoes me_dir = Raise ZeroDivisionError)
  ∧ (Py.len index_list `mod` echoes = 0 → echoes ≤ distinct →
     resolve_geometry index_list m echoes = Ok g
     ∧ nSpatialSlices g = distinct / echoes
     ∧ length (slice_indices_by_echo g) = Z.to_nat echoes
     ∧ concat (slice_indices_by_echo g)
       = take (Z.to_nat (echoes * nSpatialSlices g)) (sorted_keys m)
     ∧ Z.of_nat (length (drop (Z.to_nat (echoes * nSpatialSlices g))
                           (sorted_keys m)))
       = distinct `mod` echoes).
Proof.
  intros m g distinct Hlen He Hall.
  assert (Z.of_nat (size m) = distinct) as Hsize.
  { unfold distinct, m. by rewrite index_mapping_of_size. }
  split_and!.
  - intros Hmod. apply arrange_not_divisible; [lia|done].
  - intros Hmod Hfew. apply arrange_few_indices; try done.
    fold m. lia.
  - intros Hmod Hsz. split_and!.
    + apply resolve_geometry_Ok; [done|lia].
    + unfold g, geometry_of. simpl. by rewrite Hsize.
    + unfold g, geometry_of. simpl. by rewrite length_fmap, length_seq.
    + unfold g, geometry_of. cbn [slice_indices_by_echo nSpatialSlices].
      rewrite concat_blocks. f_equal.
      assert (0 ≤ Z.of_nat (size m) / echoes) by (apply Z.div_pos; lia).
      rewrite Z2Nat.inj_mul by lia. done.
    + rewrite length_drop, sorted_keys_length.
      unfold g, geometry_of. cbn [nSpatialSlices]. rewrite Hsize.
      pose proof (Z.div_mod distinct echoes ltac:(lia)) as Hdm.
      pose proof (Z.mod_pos_bound distinct echoes He).
      assert (0 ≤ distinct / echoes) by (apply Z.div_pos; lia).
      assert (Z.of_nat (size m) = distinct) as Hs by done. lia.
Qed.

Lemma C3_witness :
  let dicom_list := Sample.scan_5_indices.*1 in
  let index_list := Sample.scan_5_indices.*2 in
  let m := index_mapping_of dicom_list index_list in
  Z.of_nat (distinct_count index_list) `mod` 2 ≠ 0
  ∧ resolve_geometry index_list m 2 = Ok (geometry_of index_list m 2)
  ∧ nSpatialSlices (geometry_of index_list m 2) = 5 / 2.
Proof.
  intros dicom_list index_list m.
  destruct (C3_distinct_indices_unchecked dicom_list index_list 2 "m")
    as (_&_&H).
  - reflexivity.
  - lia.
  - by_compute.
  - split; [by vm_compute|]. destruct H as (H1&H2&_).
    + by vm_compute.
    + by vm_compute.
    + split; [exact H1|exact H2].
Defined.

(** C3 as stated fails: this scan has five distinct slice indices, two
    echoes are declared, and the run goes through: two spatial slices per
    echo, the files of slice index 5 in no manifest. *)
Lemma C3_counterexample :
  let env := Sample.env "/exam/7" Sample.scan_5_indices 2 3 in
  let r := concatenate_scan env "/exam/7" 2 Sample.world0 in
  Z.of_nat (distinct_count Sample.scan_5_indices.*2) `mod` 2 ≠ 0
  ∧ r.1 = Ok ()
  ∧ map_to_list (files r.2)
    = [("/exam/7/medata/_me1_infilelist",
        "/exam/7/i-3-a.dcm /exam/7/i-4-a.dcm");
       ("/exam/7/medata/_me0_infilelist",
        "/exam/7/i-1-a.dcm /exam/7/i-2-a.dcm")].
Proof. intros env r. split_and!; by vm_compute. Qed.

(** C4, as the code has it. No test compares the number of files of a
    slice index with the number of time points. A slice index of an echo
    block with fewer files than time points makes line 427 raise
    [IndexError] (list index out of range) before any manifest is
    written. More files than time points raise nothing: when every slice
    index of the blocks has at least [nTimePoints] files the manifests
    are written, from the first [nTimePoints] files of each. *)
Theorem C4_repeats_unchecked (env : Env) (scan_dir : string) (echoes : Z)
    (w : World) (index_list : list Z) :
  let me_dir := Str.path_join scan_dir ME_SUBDIR in
  let dicom_list := glob env (Str.path_join scan_dir "*.dcm") in
  let w2 := log_event (EvPoolMap dicom_list) (os_mkdir me_dir w).2 in
  let m := index_mapping_of dicom_list index_list in
  let g := geometry_of index_list m echoes in
  let placed := take (Z.to_nat (echoes * nSpatialSlices g)) (sorted_keys m) in
  extract_indices env dicom_list = Ok index_list →
  0 < echoes → Py.len index_list `mod` echoes = 0 →
  all_match dicom_list →
  echoes ≤ Z.of_nat (distinct_count index_list) →
  ((∃ i fs, i ∈ placed ∧ m !! i = Some fs ∧ Py.len fs < nTimePoints g) →
   order_files env scan_dir echoes w = (Raise IndexError_list_index, w2)
   ∧ concatenate_scan env scan_dir echoes w
     = (Raise IndexError_list_index, w2)
   ∧ files w2 = files w)
  ∧ ((∀ i fs, i ∈ placed → m !! i = Some fs → nTimePoints g ≤ Py.len fs) →
     is_Ok (order_files env scan_dir echoes w).1).
Proof.
  intros me_dir dicom_list w2 m g placed Hext He Hmod Hall Hsz.
  pose proof (extract_indices_length _ _ _ Hext) as Hlen.
  assert (echoes ≤ Z.of_nat (size m)) as Hsz'.
  { unfold m. by rewrite index_mapping_of_size. }
  pose proof (order_files_good env scan_dir echoes w index_list
                Hext He Hmod Hall Hsz') as Ho.
  fold dicom_list me_dir w2 m g in Ho.
  set (nSp := Z.to_nat (nSpatialSlices g)).
  pose proof (nSp_pos index_list m echoes He Hsz') as HnSp. fold g nSp in HnSp.
  assert (0 ≤ nSpatialSlices g) as Hnn.
  { unfold g, geometry_of. simpl. apply Z.div_pos; lia. }
  assert (Z.to_nat (echoes * nSpatialSlices g) = (Z.to_nat echoes * nSp)%nat)
    as Hprod.
  { unfold nSp. rewrite Z2Nat.inj_mul by lia. done. }
  split.
  - intros (i&fs&Hi&Hfs&Hshort).
    assert (comp_res (table g m) (Py.range echoes)
            = Raise IndexError_list_index) as Htab.
    { apply list_elem_of_lookup in Hi as [n Hn].
      apply lookup_take_Some in Hn as [Hn Hlt]. rewrite Hprod in Hlt.
      assert (0 ≤ nTimePoints g) as HnT.
      { unfold g, geometry_of. simpl. apply Z.div_pos; [apply len_nonneg|].
        apply Z.mul_pos_pos; [lia|]. apply Z.div_str_pos. lia. }
      apply (tables_Raise index_list m echoes He Hsz'
               (n / nSp) (length fs) (n `mod` nSp)).
      - apply Nat.Div0.div_lt_upper_bound. lia.
      - fold g. unfold Py.len in Hshort. lia.
      - fold g nSp. apply Nat.mod_upper_bound. lia.
      - fold g nSp. unfold entry.
        replace (n / nSp * nSp + n `mod` nSp)%nat with n.
        2:{ pose proof (Nat.div_mod_eq n nSp). lia. }
        rewrite Hn. simpl. rewrite Hfs. simpl.
        by apply lookup_ge_None. }
    rewrite Htab in Ho. split_and!; [done|by apply concatenate_scan_Raise|].
    apply no_write_no_popen.
  - intros Hlong.
    destruct (tables_Ok index_list m echoes He Hsz') as (tabs&Htabs&_).
    2:{ fold g in Htabs. rewrite Htabs in Ho. rewrite Ho. by eexists. }
    fold g nSp. intros e t x Hlt_e Hlt_t Hlt_x. unfold entry.
    destruct (lookup_lt_is_Some_2 (sorted_keys m) (e * nSp + x)) as [i Hi].
    { rewrite sorted_keys_length.
      pose proof (blocks_fit index_list m echoes He Hsz') as Hfit.
      fold g nSp in Hfit. nia. }
    rewrite Hi. simpl.
    assert (is_Some (m !! i)) as [fs Hfs].
    { apply elem_of_sorted_keys. by eapply list_elem_of_lookup_2. }
    rewrite Hfs. simpl. apply lookup_lt_is_Some_2.
    assert (i ∈ placed) as Hin.
    { apply list_elem_of_lookup. exists (e * nSp + x)%nat.
      apply lookup_take_Some. split; [done|]. rewrite Hprod. nia. }
    specialize (Hlong i fs Hin Hfs). unfold Py.len in Hlong. lia.
Qed.

Lemma C4_witness :
  let env := Sample.env "/exam/7" Sample.scan_short 2 2 in
  concatenate_scan env "/exam/7" 2 Sample.world0
  = (Raise IndexError_list_index,
     log_event (EvPoolMap Sample.scan_short.*1)
       (os_mkdir "/exam/7/medata" Sample.world0).2).
Proof.
  intros env.
  destruct (C4_repeats_unchecked env "/exam/7" 2 Sample.world0
              Sample.scan_short.*2) as [H _].
  - by vm_compute.
  - lia.
  - by vm_compute.
  - by_compute.
  - by vm_compute.
  - destruct H as (_&H&_); [|exact H].
    exists 2, ["/exam/7/i-4-a.dcm"]. split_and!.
    + by_compute.
    + by vm_compute.
    + by vm_compute.
Defined.

(** C4 as stated fails: slice index 4 of this scan has three files where
    the geometry has one time point, and the run goes through; the files
    numbered 5 and 6 are in no manifest. *)
Lemma C4_counterexample :
  let env := Sample.env "/exam/7" Sample.scan_repeats 2 3 in
  let m := index_mapping_of Sample.scan_repeats.*1 Sample.scan_repeats.*2 in
  let g := geometry_of Sample.scan_repeats.*2 m 2 in
  let r := concatenate_scan env "/exam/7" 2 Sample.world0 in
  nTimePoints g = 1
  ∧ m !! 4 = Some ["/exam/7/i-4-a.dcm"; "/exam/7/i-5-a.dcm";
                   "/exam/7/i-6-a.dcm"]
  ∧ r.1 = Ok ()
  ∧ map_to_list (files r.2)
    = [("/exam/7/medata/_me1_infilelist",
        "/exam/7/i-3-a.dcm /exam/7/i-4-a.dcm");
       ("/exam/7/medata/_me0_infilelist",
        "/exam/7/i-1-a.dcm /exam/7/i-2-a.dcm")].
Proof. intros env m g r. split_and!; by vm_compute. Qed.

Lemma entry_inv (m : gmap Z (list string)) (nSp e t x : nat) (f : string) :
  (x < nSp)%nat →
  entry m nSp e t x = Some f ↔
  ∃ i fs, block (sorted_keys m) nSp e !! x = Some i
          ∧ m !! i = Some fs ∧ fs !! t = Some f.
Proof.
  intros Hx. unfold entry. rewrite block_lookup by done. split.
  - destruct (sorted_keys m !! _) as [i|]; simpl; [|done].
    destruct (m !! i) as [fs|] eqn:Hm; simpl; [|done]. intros Hf.
    by exists i, fs.
  - intros (i&fs&->&Hm&Hf). simpl. by rewrite Hm.
Qed.

(** C1. Take a scan whose headers can be read, whose file names match,
    whose number of files is a multiple of the echo count, whose number
    of distinct slice indices is a positive multiple of the echo count,
    and where every slice index has at least [nTimePoints] files. Then
    [order_files] returns, and for every echo [k] the file
    [_me<k>_infilelist] holds [manifest_of rows]: the lines of [rows]
    joined by line feeds, each line the paths of a row joined by spaces.
    [rows] has [nTimePoints] rows of [nSpatialSlices] paths, and the path
    in row [t], column [x] is [index_mapping[block[x]][t]], with [block]
    the [k]-th run of [nSpatialSlices] consecutive sorted slice indices,
    which is strictly ascending. *)
Theorem C1_manifest_layout (env : Env) (scan_dir : string) (echoes : Z)
    (w : World) (index_list : list Z) :
  let me_dir := Str.path_join scan_dir ME_SUBDIR in
  let dicom_list := glob env (Str.path_join scan_dir "*.dcm") in
  let m := index_mapping_of dicom_list index_list in
  let g := geometry_of index_list m echoes in
  let nSp := Z.to_nat (nSpatialSlices g) in
  let nT := Z.to_nat (nTimePoints g) in
  let distinct := Z.of_nat (distinct_count index_list) in
  extract_indices env dicom_list = Ok index_list →
  0 < echoes → Py.len index_list `mod` echoes = 0 →
  all_match dicom_list →
  0 < distinct → distinct `mod` echoes = 0 →
  (∀ i fs, m !! i = Some fs → nTimePoints g ≤ Py.len fs) →
  ∃ o w',
    order_files env scan_dir echoes w = (Ok o, w')
    ∧ ∀ k : nat, (k < Z.to_nat echoes)%nat →
        let block_k := block (sorted_keys m) nSp k in
        ∃ rows,
          files w' !! infile_list_path me_dir (Z.of_nat k)
          = Some (manifest_of rows)
          ∧ concat_file_list o !! k = Some rows
          ∧ length rows = nT
          ∧ length block_k = nSp
          ∧ StronglySorted Z.lt block_k
          ∧ ∀ (t : nat) row, rows !! t = Some row →
              length row = nSp
              ∧ ∀ x : nat, (x < nSp)%nat →
                  ∃ i fs f, block_k !! x = Some i ∧ m !! i = Some fs
                            ∧ fs !! t = Some f ∧ row !! x = Some f.
Proof.
  intros me_dir dicom_list m g nSp nT distinct Hext He Hmod Hall Hpos Hdiv
    Hlong.
  pose proof (extract_indices_length _ _ _ Hext) as Hlen.
  assert (Z.of_nat (size m) = distinct) as Hsize.
  { unfold distinct, m. by rewrite index_mapping_of_size. }
  assert (echoes ≤ Z.of_nat (size m)) as Hsz.
  { rewrite Hsize. pose proof (Z.div_mod distinct echoes ltac:(lia)) as Hq.
    rewrite Hdiv in Hq.
    assert (0 < distinct / echoes) by nia. nia. }
  pose proof (order_files_good env scan_dir echoes w index_list
                Hext He Hmod Hall Hsz) as Ho.
  fold dicom_list me_dir m g in Ho.
  pose proof (blocks_fit index_list m echoes He Hsz) as Hfit.
  fold g nSp in Hfit.
  destruct (tables_Ok index_list m echoes He Hsz) as (tabs&Htabs&Hlt&Hshape).
  { fold g nSp. intros e t x Hlt_e Hlt_t Hlt_x. unfold entry.
    destruct (lookup_lt_is_Some_2 (sorted_keys m) (e * nSp + x)) as [i Hi].
    { rewrite sorted_keys_length. nia. }
    rewrite Hi. simpl.
    assert (is_Some (m !! i)) as [fs Hfs].
    { apply elem_of_sorted_keys. by eapply list_elem_of_lookup_2. }
    rewrite Hfs. simpl. apply lookup_lt_is_Some_2.
    specialize (Hlong i fs Hfs). unfold Py.len in Hlong. lia. }
  fold g nSp in Htabs, Hshape. rewrite Htabs in Ho.
  eexists _, _. split; [exact Ho|].
  intros k Hk block_k.
  destruct (lookup_lt_is_Some_2 tabs k) as [rows Hrows]; [lia|].
  destruct (Hshape k rows Hrows) as [HnT Hrow].
  exists rows. split_and!.
  - apply write_all_lookup; [apply manifests_of_NoDup|].
    by apply manifests_of_lookup.
  - done.
  - done.
  - apply block_length. rewrite sorted_keys_length. nia.
  - apply block_strict, sorted_keys_strict.
  - intros t row Ht. destruct (Hrow t row Ht) as [Hlen_row Hcells].
    split; [done|]. intros x Hx.
    specialize (Hcells x Hx).
    assert (x < length row)%nat as Hx' by lia.
    destruct (lookup_lt_is_Some_2 row x Hx') as [f Hf].
    rewrite Hf in Hcells. symmetry in Hcells.
    apply entry_inv in Hcells as (i&fs&?&?&?); [|done].
    by exists i, fs, f.
Qed.

Lemma C1_witness :
  let env := Sample.env "/exam/7" Sample.scan_2x2x2 2 2 in
  ∃ o w',
    order_files env "/exam/7" 2 Sample.world0 = (Ok o, w')
    ∧ ∃ rows,
        files w' !! "/exam/7/medata/_me0_infilelist" = Some (manifest_of rows)
        ∧ length rows = 2%nat.
Proof.
  intros env.
  destruct (C1_manifest_layout env "/exam/7" 2 Sample.world0
              Sample.scan_2x2x2.*2) as (o&w'&Ho&Hk).
  - by vm_compute.
  - lia.
  - by vm_compute.
  - by_compute.
  - by vm_compute.
  - by vm_compute.
  - change (map_Forall
              (λ _ fs, nTimePoints
                 (geometry_of Sample.scan_2x2x2.*2
                    (index_mapping_of
                       (glob env (Str.path_join "/exam/7" "*.dcm"))
                       Sample.scan_2x2x2.*2) 2) ≤ Py.len fs)
              (index_mapping_of (glob env (Str.path_join "/exam/7" "*.dcm"))
                 Sample.scan_2x2x2.*2)).
    by_compute.
  - exists o, w'. split; [exact Ho|].
    destruct (Hk 0%nat) as (rows&Hfile&_&Hlen&_).
    + vm_compute. lia.
    + exists rows. split; [exact Hfile|exact Hlen].
Defined.

(** What the run writes for the sample scan of two echoes, two positions
    and two time points. *)
Example manifests_2x2x2 :
  let env := Sample.env "/exam/7" Sample.scan_2x2x2 2 2 in
  map_to_list (files (order_files env "/exam/7" 2 Sample.world0).2)
  = [("/exam/7/medata/_me1_infilelist",
      "/exam/7/i-3-a.dcm /exam/7/i-4-a.dcm" +:+ String Str.newline
        "/exam/7/i-7-a.dcm /exam/7/i-8-a.dcm");
     ("/exam/7/medata/_me0_infilelist",
      "/exam/7/i-1-a.dcm /exam/7/i-2-a.dcm" +:+ String Str.newline
        "/exam/7/i-5-a.dcm /exam/7/i-6-a.dcm")].
Proof. by vm_compute. Qed.

(** C5. On a scan as in C1 whose paths are pairwise distinct, the
    ordering built has a path at every coordinate triple (echo, time
    point, position) of the geometry, no path at two triples, and reading
    the coordinates of a path back from the layout gives the triple it was
    placed at, and only paths that were placed have coordinates. When
    every slice index has exactly [nTimePoints] files, every file of the
    scan has coordinates: triples and files are in bijection. *)
Theorem C5_coordinates_roundtrip (env : Env) (scan_dir : string)
    (echoes : Z) (w : World) (index_list : list Z) :
  let dicom_list := glob env (Str.path_join scan_dir "*.dcm") in
  let m := index_mapping_of dicom_list index_list in
  let g := geometry_of index_list m echoes in
  let nSp := Z.to_nat (nSpatialSlices g) in
  let nT := Z.to_nat (nTimePoints g) in
  let distinct := Z.of_nat (distinct_count index_list) in
  extract_indices env dicom_list = Ok index_list →
  0 < echoes → Py.len index_list `mod` echoes = 0 →
  all_match dicom_list →
  0 < distinct → distinct `mod` echoes = 0 →
  (∀ i fs, m !! i = Some fs → nTimePoints g ≤ Py.len fs) →
  NoDup dicom_list →
  ∃ o w',
    order_files env scan_dir echoes w = (Ok o, w')
    ∧ (∀ e t x : nat, (e < Z.to_nat echoes)%nat → (t < nT)%nat →
         (x < nSp)%nat → is_Some (cell_at o e t x))
    ∧ (∀ e t x e' t' x' p,
         cell_at o e t x = Some p → cell_at o e' t' x' = Some p →
         (e, t, x) = (e', t', x'))
    ∧ (∀ e t x p,
         cell_at o e t x = Some p ↔ coordinates_of o p = Some (e, t, x))
    ∧ ((∀ i fs, m !! i = Some fs → Py.len fs = nTimePoints g) →
       ∀ p, p ∈ dicom_list → is_Some (coordinates_of o p)).
Proof.
  intros dicom_list m g nSp nT distinct Hext He Hmod Hall Hpos Hdiv Hlong
    Hnd.
  pose proof (extract_indices_length _ _ _ Hext) as Hlen.
  assert (Z.of_nat (size m) = distinct) as Hsize.
  { unfold distinct, m. by rewrite index_mapping_of_size. }
  pose proof (Z.div_mod distinct echoes ltac:(lia)) as Hq.
  rewrite Hdiv in Hq.
  assert (0 < distinct / echoes) as Hqpos by nia.
  assert (echoes ≤ Z.of_nat (size m)) as Hsz by nia.
  pose proof (order_files_good env scan_dir echoes w index_list
                Hext He Hmod Hall Hsz) as Ho.
  fold dicom_list m g in Ho.
  pose proof (blocks_fit index_list m echoes He Hsz) as Hfit.
  fold g nSp in Hfit.
  assert (size m = Z.to_nat echoes * nSp)%nat as Hfull.
  { unfold nSp, g, geometry_of. cbn [nSpatialSlices]. rewrite Hsize. nia. }
  destruct (tables_Ok index_list m echoes He Hsz) as (tabs&Htabs&Hlt&Hshape).
  { fold g nSp. intros e t x Hlt_e Hlt_t Hlt_x. unfold entry.
    destruct (lookup_lt_is_Some_2 (sorted_keys m) (e * nSp + x)) as [i Hi].
    { rewrite sorted_keys_length. nia. }
    rewrite Hi. simpl.
    assert (is_Some (m !! i)) as [fs Hfs].
    { apply elem_of_sorted_keys. by eapply list_elem_of_lookup_2. }
    rewrite Hfs. simpl. apply lookup_lt_is_Some_2.
    specialize (Hlong i fs Hfs). unfold Py.len in Hlong. lia. }
  fold g nSp in Htabs, Hshape. rewrite Htabs in Ho.
  set (o := ordering_of _ _ tabs) in Ho.
  assert (∀ e t x p, cell_at o e t x = Some p ↔
            (e < Z.to_nat echoes)%nat ∧ (t < nT)%nat ∧ (x < nSp)%nat
            ∧ entry m nSp e t x = Some p) as Hcell.
  { intros e t x p. rewrite cell_at_Some. split.
    - intros (rows&row&Hrows&Hrow&Hp). simpl in Hrows.
      destruct (Hshape e rows Hrows) as [HnT Hr].
      destruct (Hr t row Hrow) as [HnSp Hx].
      assert (x < nSp)%nat as Hx'.
      { rewrite <-HnSp. by eapply lookup_lt_Some. }
      split_and!; [|unfold nT; rewrite <-HnT; by eapply lookup_lt_Some|done|].
      + rewrite <-Hlt. by eapply lookup_lt_Some.
      + by rewrite <-(Hx x Hx').
    - intros (He'&Ht&Hx&Hentry).
      destruct (lookup_lt_is_Some_2 tabs e) as [rows Hrows]; [lia|].
      destruct (Hshape e rows Hrows) as [HnT Hr].
      destruct (lookup_lt_is_Some_2 rows t) as [row Hrow]; [lia|].
      destruct (Hr t row Hrow) as [HnSp Hx'].
      exists rows, row. split_and!; [done..|]. by rewrite (Hx' x Hx). }
  assert (∀ e t x e' t' x' p,
            cell_at o e t x = Some p → cell_at o e' t' x' = Some p →
            (e, t, x) = (e', t', x')) as Hinj.
  { intros e t x e' t' x' p (_&_&Hx&H1)%Hcell (_&_&Hx'&H2)%Hcell.
    by eapply (entry_inj dicom_list index_list nSp). }
  eexists o, _. split; [exact Ho|]. split_and!.
  - intros e t x He' Ht Hx.
    destruct (lookup_lt_is_Some_2 tabs e) as [rows Hrows]; [lia|].
    destruct (Hshape e rows Hrows) as [HnT Hr].
    destruct (lookup_lt_is_Some_2 rows t) as [row Hrow]; [lia|].
    destruct (Hr t row Hrow) as [HnSp Hx'].
    destruct (lookup_lt_is_Some_2 row x) as [p Hp]; [lia|].
    exists p. apply cell_at_Some. by exists rows, row.
  - exact Hinj.
  - by apply coordinates_of_cell.
  - intros Hexact p Hp.
    apply list_elem_of_lookup in Hp as [n Hn].
    destruct (lookup_lt_is_Some_2 index_list n) as [i Hi].
    { rewrite <-Hlen. by eapply lookup_lt_Some. }
    assert (p ∈ files_of dicom_list index_list i) as Hin.
    { unfold files_of. apply list_elem_of_fmap. exists (p, i). split; [done|].
      apply list_elem_of_filter. split; [done|].
      apply list_elem_of_lookup. exists n.
      by rewrite lookup_zip_with, Hn, Hi. }
    assert (is_Some (m !! i)) as [fs Hfs].
    { unfold m. rewrite index_mapping_of_lookup.
      destruct (files_of dicom_list index_list i); [|by eexists].
      by apply not_elem_of_nil in Hin. }
    pose proof (index_mapping_of_files _ _ _ _ Hfs) as Hperm.
    rewrite <-Hperm in Hin. apply list_elem_of_lookup in Hin as [t Ht].
    assert (i ∈ sorted_keys m) as [k Hk]%list_elem_of_lookup.
    { apply elem_of_sorted_keys. by eexists. }
    pose proof (lookup_lt_Some _ _ _ Hk) as Hklt.
    rewrite sorted_keys_length, Hfull in Hklt.
    pose proof (nSp_pos index_list m echoes He Hsz) as HnSp.
    fold g nSp in HnSp.
    assert (cell_at o (k / nSp) t (k `mod` nSp) = Some p) as Hc.
    { apply Hcell. split_and!.
      - apply Nat.Div0.div_lt_upper_bound. lia.
      - pose proof (lookup_lt_Some _ _ _ Ht) as Htlt.
        specialize (Hexact i fs Hfs). unfold Py.len in Hexact. lia.
      - apply Nat.mod_upper_bound. lia.
      - unfold entry.
        replace (k / nSp * nSp + k `mod` nSp)%nat with k.
        2:{ pose proof (Nat.div_mod_eq k nSp). lia. }
        rewrite Hk. simpl. by rewrite Hfs. }
    apply (coordinates_of_cell o Hinj) in Hc. by eexists.
Qed.

Lemma C5_witness :
  let env := Sample.env "/exam/7" Sample.scan_2x2x2 2 2 in
  ∃ o w',
    order_files env "/exam/7" 2 Sample.world0 = (Ok o, w')
    ∧ coordinates_of o "/exam/7/i-7-a.dcm" = Some (1, 1, 0)%nat.
Proof.
  intros env.
  destruct (C5_coordinates_roundtrip env "/exam/7" 2 Sample.world0
              Sample.scan_2x2x2.*2) as (o&w'&Ho&_&_&Hrt&_).
  - by vm_compute.
  - lia.
  - by vm_compute.
  - by_compute.
  - by vm_compute.
  - by vm_compute.
  - change (map_Forall
              (λ _ fs, nTimePoints
                 (geometry_of Sample.scan_2x2x2.*2
                    (index_mapping_of
                       (glob env (Str.path_join "/exam/7" "*.dcm"))
                       Sample.scan_2x2x2.*2) 2) ≤ Py.len fs)
              (index_mapping_of (glob env (Str.path_join "/exam/7" "*.dcm"))
                 Sample.scan_2x2x2.*2)).
    by_compute.
  - by_compute.
  - exists o, w'. split; [exact Ho|]. apply Hrt.
    assert ((order_files env "/exam/7" 2 Sample.world0).1 = Ok o) as Ho'
      by (by rewrite Ho).
    vm_compute in Ho'. injection Ho' as <-. by vm_compute.
Defined.

(** C7. The slice indices [pool.map] returns are those of the files, in
    the order of the files, under every scheduler: the extraction
    succeeds under one scheduler exactly when it does under another, with
    the same list, the one that pairs each path with the slice index of
    its header. Which exception a failing extraction re-raises is the
    only thing the scheduler decides. *)
Theorem C7_extraction_deterministic (env : Env) (dicom_list : list string)
    (pick pick' : list nat → nat) :
  (∀ index_list,
     extract_indices (with_scheduler env pick) dicom_list = Ok index_list
     ↔ Forall2 (λ f i, get_slice_index env f = Ok i) dicom_list index_list)
  ∧ (∀ index_list,
       extract_indices (with_scheduler env pick) dicom_list = Ok index_list
       ↔ extract_indices (with_scheduler env pick') dicom_list
         = Ok index_list)
  ∧ (is_Raise (extract_indices (with_scheduler env pick) dicom_list)
     ↔ is_Raise (extract_indices (with_scheduler env pick') dicom_list)).
Proof.
  assert (∀ p il, extract_indices (with_scheduler env p) dicom_list = Ok il
                  ↔ Forall2 (λ f i, get_slice_index env f = Ok i)
                      dicom_list il) as Hext.
  { intros p il. by rewrite extract_indices_Ok. }
  split_and!.
  - apply Hext.
  - intros il. by rewrite !Hext.
  - assert (∀ p p', is_Raise (extract_indices (with_scheduler env p) dicom_list)
                    → is_Raise (extract_indices (with_scheduler env p')
                                  dicom_list)) as Hr.
    { intros p p' [e He].
      destruct (extract_indices (with_scheduler env p') dicom_list)
        as [il|e'] eqn:Hil; [|by eexists].
      apply Hext in Hil. apply (Hext p) in Hil. congruence. }
    split; apply Hr.
Qed.

Lemma C7_witness :
  let env := Sample.env "/exam/7" Sample.scan_2x2x2 2 2 in
  extract_indices (with_scheduler env (λ l, pred (length l)))
    Sample.scan_2x2x2.*1
  = Ok [1; 2; 3; 4; 1; 2; 3; 4].
Proof.
  intros env.
  destruct (C7_extraction_deterministic env Sample.scan_2x2x2.*1
              (λ _, 0%nat) (λ l, pred (length l))) as (_ & H & _).
  apply H. by vm_compute.
Defined.

(** Two schedulers on the sample scan: the tasks complete in opposite
    orders, the result is the same list. *)
Example schedulers_agree :
  let env := Sample.env "/exam/7" Sample.scan_2x2x2 2 2 in
  Pool.completion (λ _, 0%nat) 8 (seq 0 8) = [0; 1; 2; 3; 4; 5; 6; 7]%nat
  ∧ Pool.completion (λ l, pred (length l)) 8 (seq 0 8)
    = [7; 6; 5; 4; 3; 2; 1; 0]%nat
  ∧ extract_indices (with_scheduler env (λ _, 0%nat)) Sample.scan_2x2x2.*1
    = Ok [1; 2; 3; 4; 1; 2; 3; 4]
  ∧ extract_indices (with_scheduler env (λ l, pred (length l)))
      Sample.scan_2x2x2.*1
    = Ok [1; 2; 3; 4; 1; 2; 3; 4].
Proof. intros env. split_and!; by vm_compute. Qed.

(** With two unreadable files the exception re-raised depends on the
    scheduler. *)
Example schedulers_differ_on_failure :
  let env := Sample.env "/exam/7" Sample.scan_2x2x2 2 2 in
  extract_indices (with_scheduler env (λ _, 0%nat)) ["/x.dcm"; "/y.dcm"]
  = Raise (InvalidDicomError "/x.dcm")
  ∧ extract_indices (with_scheduler env (λ l, pred (length l)))
      ["/x.dcm"; "/y.dcm"]
    = Raise (InvalidDicomError "/y.dcm").
Proof. intros env. split; by vm_compute. Qed.

(** C8. Run [concatenate_scan] on a scan, then run it again on the world
    the first run left, the DICOM files, their headers and the echo count
    being the same: after the second run every manifest holds, byte for
    byte, what it held after the first. When the first run got as far as
    writing the manifests, that content is the text line 429 computed for
    the echo; [open(..., 'w')] replaced the file, it did not append. *)
Theorem C8_manifests_idempotent (env : Env) (scan_dir : string)
    (echoes : Z) (w : World) (k : Z) :
  let me_dir := Str.path_join scan_dir ME_SUBDIR in
  let w1 := (concatenate_scan env scan_dir echoes w).2 in
  let w2 := (concatenate_scan env scan_dir echoes w1).2 in
  files w2 !! infile_list_path me_dir k = files w1 !! infile_list_path me_dir k
  ∧ ∀ o w', order_files env scan_dir echoes w = (Ok o, w') →
            0 ≤ k < echoes →
            ∃ text, concat_files o !! Z.to_nat k = Some (Some text)
                    ∧ files w1 !! infile_list_path me_dir k = Some text
                    ∧ files w2 !! infile_list_path me_dir k = Some text.
Proof.
  intros me_dir w1 w2.
  set (p := infile_list_path me_dir k).
  set (l := planned_manifests env scan_dir echoes).
  assert (∀ j, is_under (temp_dir_of me_dir j) p = false) as Hp.
  { intros j. apply infile_not_under_temp. }
  assert (∀ w0, files (concatenate_scan env scan_dir echoes w0).2 !! p
                = files (write_all l w0) !! p) as Hrun.
  { intros w0. by apply concatenate_scan_files. }
  assert (NoDup l.*1) as Hnd by apply planned_manifests_NoDup.
  split.
  - unfold w2. rewrite Hrun. unfold w1 at 2. rewrite Hrun.
    destruct (decide (p ∈ l.*1)) as [Hin|Hnin].
    + apply list_elem_of_fmap in Hin as ([p' c]&Hp'&Hin). simpl in Hp'.
      subst p'. by rewrite !(write_all_lookup l _ p c).
    + rewrite (write_all_other l w1) by done. unfold w1. by rewrite Hrun.
  - intros o w' Ho Hk.
    destruct (order_files_world env scan_dir echoes w) as [_ Hres].
    rewrite Ho in Hres. simpl in Hres.
    destruct (extract_indices env _) as [il|] eqn:Hext; simpl in Hres;
      [|done].
    destruct (arrange _ il echoes _) as [go|] eqn:Hgo; simpl in Hres; [|done].
    injection Hres as Hres. subst o.
    destruct (arrange_ordering _ _ _ _ _ Hgo) as [Hord Hlen].
    destruct (lookup_lt_is_Some_2 (concat_file_list go.2) (Z.to_nat k))
      as [tab Htab]; [lia|].
    assert ((p, manifest_of tab) ∈ l) as Hin.
    { unfold l, planned_manifests. rewrite Hext, Hgo. unfold p, me_dir.
      rewrite <-(Z2Nat.id k) at 1 by lia.
      apply manifests_of_lookup; [lia|done]. }
    exists (manifest_of tab). split_and!.
    + rewrite Hord. simpl. by rewrite list_lookup_fmap, Htab.
    + unfold w1. rewrite Hrun. by apply write_all_lookup.
    + unfold w2. rewrite Hrun. by apply write_all_lookup.
Qed.

Lemma C8_witness :
  let env := Sample.env "/exam/7" Sample.scan_2x2x2 2 2 in
  let w1 := (concatenate_scan env "/exam/7" 2 Sample.world0).2 in
  let w2 := (concatenate_scan env "/exam/7" 2 w1).2 in
  ∃ text, files w1 !! "/exam/7/medata/_me1_infilelist" = Some text
          ∧ files w2 !! "/exam/7/medata/_me1_infilelist" = Some text.
Proof.
  intros env w1 w2.
  destruct (C8_manifests_idempotent env "/exam/7" 2 Sample.world0 1)
    as [_ H].
  destruct (order_files env "/exam/7" 2 Sample.world0) as [[o|e] w'] eqn:Ho.
  - destruct (H o w' eq_refl) as (text&_&H1&H2); [lia|].
    exists text. split; [exact H1|exact H2].
  - exfalso.
    assert ((order_files env "/exam/7" 2 Sample.world0).1 = Raise e) as Ho'
      by (by rewrite Ho).
    vm_compute in Ho'. discriminate.
Defined.

(** The second run of the sample scan starts from a world where
    [medata] exists and the manifests are there; it writes them again
    and leaves the same files. *)
Example second_run_2x2x2 :
  let env := Sample.env "/exam/7" Sample.scan_2x2x2 2 2 in
  let r1 := concatenate_scan env "/exam/7" 2 Sample.world0 in
  let r2 := concatenate_scan env "/exam/7" 2 r1.2 in
  r1.1 = Ok () ∧ r2.1 = Ok ()
  ∧ files r2.2 = files r1.2 ∧ dirs r2.2 = dirs r1.2
  ∧ length (filter (λ ev, is_write ev = true) (trace r1.2)) = 2%nat
  ∧ length (filter (λ ev, is_write ev = true) (trace r2.2)) = 4%nat.
Proof. intros env r1 r2. split_and!; by vm_compute. Qed.

(** C2, as the code has it. A scan with as many files as its header
    declares is not flagged: when every scan checked is complete the
    enumeration ends normally and yields nothing. The check gates
    nothing: [concatenate_scans] runs [concatenate_scan] on each scan
    directory first and [make_complete] afterwards, so the directories
    made, manifests written and processes started are those of running
    [concatenate_scan] on each scan in turn, complete or not. *)
Theorem C2_completeness_check (env : Env) (exam_dir : option string)
    (scan_dirs checked : list string) (echoes : Z) (w : World) :
  (get_scan_dirs env exam_dir scan_dirs true = Ok checked →
   Forall (complete env) checked →
   list_of_gen (find_incomplete_dicom_sets env exam_dir scan_dirs) = Ok [])
  ∧ (concatenate_scans env scan_dirs echoes w).2
    = (for_M scan_dirs (λ scan_dir _, concatenate_scan env scan_dir echoes)
         () w).2.
Proof.
  split.
  - intros Hdirs Hall. unfold find_incomplete_dicom_sets. rewrite Hdirs.
    by rewrite incomplete_among_complete.
  - unfold concatenate_scans, mbind, M_bind.
    destruct (for_M scan_dirs _ () w) as [[[]|e] w1]; [|done].
    simpl. apply for_M_world_unchanged. intros. apply make_complete_world.
Qed.

Lemma C2_witness :
  let env := Sample.env "/exam/7" Sample.scan_5_indices 2 3 in
  list_of_gen (find_incomplete_dicom_sets env None ["/exam/7"]) = Ok [].
Proof.
  intros env.
  destruct (C2_completeness_check env None ["/exam/7"] ["/exam/7"] 2
              Sample.world0) as [H _].
  apply H.
  - by vm_compute.
  - constructor; [|constructor].
    exists "/exam/7/i-1-a.dcm", (Sample.header 2 3 1), 2, 3.
    split_and!; by vm_compute.
Defined.

(** C2 as stated fails twice on this scan of four files declared with 2
    slices and 3 volumes. The enumeration does not yield the scan: it
    ends with the [NameError] of line 224. And the reconstruction is not
    held back: [concatenate_scans] starts one process per echo. *)
Lemma C2_counterexample :
  let env := Sample.env "/exam/7" Sample.scan_aborted 2 3 in
  let r := concatenate_scans env ["/exam/7"] 2 Sample.world0 in
  incomplete env "/exam/7"
  ∧ list_of_gen (find_incomplete_dicom_sets env None ["/exam/7"])
    = Raise (NameError "scan")
  ∧ (find_incomplete_dicom_sets env None ["/exam/7"]).1 = []
  ∧ r.1 = Ok ()
  ∧ length (filter (λ ev, is_popen ev = true) (trace r.2)) = 2%nat.
Proof.
  intros env r. split_and!; try by vm_compute.
  exists "/exam/7/i-1-a.dcm", (Sample.header 2 3 1), 2, 3.
  split_and!; by vm_compute.
Qed.

(** C9. Whatever the scan and the echo count, among the events one run of
    [concatenate_scan] adds, each [shutil.rmtree] of a directory comes
    after a [communicate] on a process that the run started in that
    directory: an echo's temporary directory is removed only once that
    echo's reconstructor has terminated. *)
Theorem C9_wait_before_rmtree (env : Env) (scan_dir : string) (echoes : Z)
    (w : World) :
  since w (concatenate_scan env scan_dir echoes w).2 waited_before_removal.
Proof.
  unfold concatenate_scan, mbind, M_bind.
  pose proof (order_files_trace env scan_dir echoes w) as Ho.
  destruct (order_files env scan_dir echoes w) as [[o|e] w1]; simpl in Ho.
  - apply run_dimon_trace. destruct Ho as (evs&Htr&Hevs).
    exists evs. split; [done|]. apply waited_no_rmtree.
    eapply Forall_impl; [done|]. by intros ? [? _].
  - destruct Ho as (evs&Htr&Hevs).
    exists evs. split; [done|]. apply waited_no_rmtree.
    eapply Forall_impl; [done|]. by intros ? [? _].
Qed.

(** On the sample scan the run starts two processes, waits for each and
    removes each temporary directory after the wait. *)
Example trace_2x2x2 :
  let env := Sample.env "/exam/7" Sample.scan_2x2x2 2 2 in
  let w := (concatenate_scan env "/exam/7" 2 Sample.world0).2 in
  length (filter (λ ev, is_popen ev = true) (trace w)) = 2%nat
  ∧ length (filter (λ ev, is_rmtree ev = true) (trace w)) = 2%nat.
Proof. intros env w. split; by vm_compute. Qed.

(** * Further properties of the code *)

(** ** Discovery (lines 61-159) *)

Lemma find_scans_in_among (env : Env) (dirpath : string)
    (dirnames : list string) :
  find_scans_in env dirpath dirnames
  = scan_among env (Str.path_join dirpath
                      <$> filter (λ d, Str.isdigit d = true) dirnames).
Proof.
  induction dirnames as [|d ds IH]; [done|].
  cbn [find_scans_in].
  destruct (Str.isdigit d) eqn:Hd; cbn [negb].
  - rewrite filter_cons_True by done. rewrite fmap_cons. cbn [scan_among].
    by rewrite IH.
  - rewrite filter_cons_False by (by rewrite Hd). done.
Qed.

Lemma scan_among_app (env : Env) (a b : list string) :
  scan_among env (a ++ b)
  = match scan_among env a with
    | (ys, Some e) => (ys, Some e)
    | (ys, None) => let '(zs, e) := scan_among env b in (ys ++ zs, e)
    end.
Proof.
  induction a as [|c a IH]; simpl.
  - by destruct (scan_among env b).
  - destruct (is_scan_ME env c) as [[]|]; [| |done].
    + rewrite IH. destruct (scan_among env a) as [ys [e|]]; [done|].
      by destruct (scan_among env b).
    + rewrite IH. by destruct (scan_among env a) as [ys [e|]].
Qed.

Lemma find_scans_among (env : Env) (exam_dir : string) :
  find_scans env exam_dir
  = scan_among env (numbered_dirs (os_walk env exam_dir)).
Proof.
  unfold find_scans, numbered_dirs.
  induction (os_walk env exam_dir) as [|[dp dns] walk IH]; [done|].
  cbn [find_scans_walk]. rewrite bind_cons, scan_among_app. simpl.
  rewrite find_scans_in_among, IH.
  by destruct (scan_among env (Str.path_join dp <$> _)) as [ys [e|]].
Qed.

Lemma scan_among_Ok (env : Env) (cands : list string) :
  Forall (λ d, is_Ok (is_scan_ME env d)) cands →
  scan_among env cands = (filter (is_ME env) cands, None).
Proof.
  induction 1 as [|c cs [b Hb] _ IH]; [done|].
  cbn [scan_among]. rewrite Hb, IH. destruct b.
  - by rewrite filter_cons_True.
  - rewrite filter_cons_False; [done|]. unfold is_ME. by rewrite Hb.
Qed.

Lemma scan_among_Raise (env : Env) (pre : list string) (d : string)
    (suf : list string) (e : exn) :
  Forall (λ d, is_Ok (is_scan_ME env d)) pre →
  is_scan_ME env d = Raise e →
  scan_among env (pre ++ d :: suf) = (filter (is_ME env) pre, Some e).
Proof.
  intros Hpre Hd. rewrite scan_among_app, scan_among_Ok by done.
  cbn [scan_among]. rewrite Hd. by rewrite app_nil_r.
Qed.

Lemma scan_among_elem (env : Env) (cands : list string) (d : string) :
  d ∈ (scan_among env cands).1 → d ∈ cands ∧ is_ME env d.
Proof.
  induction cands as [|c cs IH]; simpl; [by intros ?%not_elem_of_nil|].
  destruct (is_scan_ME env c) as [[]|] eqn:Hc; simpl.
  - destruct (scan_among env cs) as [ys e]. simpl in *.
    intros [->|Hd]%elem_of_cons.
    + split; [left|done].
    + destruct (IH Hd). split; [by right|done].
  - intros Hd. destruct (IH Hd). split; [by right|done].
  - by intros ?%not_elem_of_nil.
Qed.

(** X1. [find_scans] is the comprehension its loops spell out: it looks
    at the all-digit subdirectories of every directory of the walk, in
    walk order, and yields those [is_scan_ME] accepts. When every header
    it reads can be read, it yields exactly those. When one cannot, the
    generator ends with that exception, having yielded the accepted
    directories that come before. *)
Theorem X1_find_scans (env : Env) (exam_dir : string) :
  let cands := numbered_dirs (os_walk env exam_dir) in
  (Forall (λ d, is_Ok (is_scan_ME env d)) cands →
   find_scans env exam_dir = (filter (is_ME env) cands, None))
  ∧ (∀ pre d suf e,
       cands = pre ++ d :: suf →
       Forall (λ d, is_Ok (is_scan_ME env d)) pre →
       is_scan_ME env d = Raise e →
       find_scans env exam_dir = (filter (is_ME env) pre, Some e)).
Proof.
  intros cands. rewrite find_scans_among. fold cands. split.
  - apply scan_among_Ok.
  - intros pre d suf e -> Hpre Hd. by apply scan_among_Raise.
Qed.

Lemma X1_witness :
  find_scans SampleExam.env "/exam" = (["/exam/7"], None).
Proof.
  destruct (X1_find_scans SampleExam.env "/exam") as [H _].
  rewrite H; [by vm_compute|].
  repeat constructor; vm_compute; by eexists.
Defined.










Lemma filter_ME_Ok (env : Env) (scan_dirs r : list string) :
  filter_ME env scan_dirs = Ok r →
  r = filter (is_ME env) scan_dirs
  ∧ Forall (λ d, is_Ok (is_scan_ME env d)) scan_dirs.
Proof.
  revert r. induction scan_dirs as [|d ds IH]; intros r; simpl.
  - intros [= <-]. by split.
  - destruct (is_scan_ME env d) as [b|e] eqn:Hd; [|done]. simpl.
    destruct (filter_ME env ds) as [ys|e] eqn:Hds; [|done]. simpl.
    intros [= <-]. destruct (IH ys eq_refl) as [-> Hall]. split.
    + destruct b.
      * by rewrite filter_cons_True.
      * rewrite filter_cons_False; [done|]. unfold is_ME. by rewrite Hd.
    + constructor; [by eexists|done].
Qed.

Lemma filter_ME_total (env : Env) (scan_dirs : list string) :
  Forall (λ d, is_Ok (is_scan_ME env d)) scan_dirs →
  filter_ME env scan_dirs = Ok (filter (is_ME env) scan_dirs).
Proof.
  induction 1 as [|d ds [b Hb] _ IH]; [done|]. simpl. rewrite Hb, IH. simpl.
  destruct b.
  - by rewrite filter_cons_True.
  - rewrite filter_cons_False; [done|]. unfold is_ME. by rewrite Hb.
Qed.

Lemma len_zero {A} (l : list A) : Py.len l = 0 ↔ l = [].
Proof. unfold Py.len. destruct l; simpl; split; (done || lia). Qed.

(** X3. With filtering on, [get_scan_dirs] returns multi-echo scan
    directories only. Given a list of directories it returns those of
    the list [is_scan_ME] accepts, in the order of the list, and does not
    look at [exam_dir]. Given none it needs an [exam_dir], and returns
    what [find_scans] yields there, sorted. *)
Theorem X3_get_scan_dirs (env : Env) (exam_dir : option string)
    (scan_dirs r : list string) :
  get_scan_dirs env exam_dir scan_dirs true = Ok r →
  Forall (is_ME env) r
  ∧ (scan_dirs ≠ [] →
     r = filter (is_ME env) scan_dirs
     ∧ get_scan_dirs env None scan_dirs true = Ok r)
  ∧ (scan_dirs = [] →
     ∃ d ys, exam_dir = Some d ∧ find_scans env d = (ys, None)
             ∧ r ≡ₚ ys ∧ StronglySorted String.le r).
Proof.
  unfold get_scan_dirs. destruct (decide (Py.len scan_dirs = 0)) as [H0|H0].
  - apply len_zero in H0 as ->. destruct exam_dir as [d|]; [|done].
    destruct (find_scans env d) as [ys [e|]] eqn:Hf; [done|].
    unfold list_of_gen. simpl. intros [= <-]. split_and!; [|done|].
    + apply Forall_forall. intros x Hx.
      rewrite merge_sort_Permutation in Hx.
      assert (x ∈ (find_scans env d).1) as Hx' by by rewrite Hf.
      rewrite find_scans_among in Hx'.
      by apply scan_among_elem in Hx' as [_ ?].
    + intros _. exists d, ys. split_and!; [done..| |].
      * apply merge_sort_Permutation.
      * apply StronglySorted_merge_sort; apply _.
  - intros [-> Hall]%filter_ME_Ok. split_and!.
    + apply Forall_forall. by intros x [? _]%list_elem_of_filter.
    + intros _. split; [done|]. by apply filter_ME_total.
    + intros ->. done.
Qed.

Lemma X3_witness :
  get_scan_dirs SampleExam.env None ["/exam/12"; "/exam/7"] true
  = Ok ["/exam/7"].
Proof.
  destruct (X3_get_scan_dirs SampleExam.env (Some "/exam")
              ["/exam/12"; "/exam/7"] ["/exam/7"]) as (_&H&_).
  - by vm_compute.
  - destruct H as [_ H]; [done|exact H].
Defined.

(** ** The completeness check (lines 161-261) *)

Lemma incomplete_among_nil (env : Env) (scan_dirs : list string) :
  (incomplete_among env scan_dirs).1 = [].
Proof.
  induction scan_dirs as [|d ds IH]; [done|]. cbn [incomplete_among].
  match goal with |- context [match ?c with _ => _ end] => destruct c as [[]|] end;
    done.
Qed.

(** X4. [find_incomplete_dicom_sets] never yields a scan: its only
    [yield] (line 224) reads a name that is not bound. At the first scan
    whose file count differs from the product its header declares, the
    scans before it being complete, the enumeration ends with
    [NameError]. *)
Theorem X4_incomplete_never_yielded (env : Env) (exam_dir : option string)
    (scan_dirs : list string) :
  (find_incomplete_dicom_sets env exam_dir scan_dirs).1 = []
  ∧ ∀ pre d suf,
      get_scan_dirs env exam_dir scan_dirs true = Ok (pre ++ d :: suf) →
      Forall (complete env) pre → incomplete env d →
      list_of_gen (find_incomplete_dicom_sets env exam_dir scan_dirs)
      = Raise (NameError "scan").
Proof.
  unfold find_incomplete_dicom_sets. split.
  - destruct (get_scan_dirs _ _ _ _); [|done]. apply incomplete_among_nil.
  - intros pre d suf -> Hpre Hd.
    by rewrite (incomplete_among_incomplete env pre d suf).
Qed.

Lemma X4_witness :
  let env := Sample.env "/exam/7" Sample.scan_aborted 2 3 in
  list_of_gen (find_incomplete_dicom_sets env None ["/exam/7"])
  = Raise (NameError "scan").
Proof.
  intros env.
  destruct (X4_incomplete_never_yielded env None ["/exam/7"]) as [_ H].
  apply (H [] "/exam/7" []).
  - by vm_compute.
  - constructor.
  - exists "/exam/7/i-1-a.dcm", (Sample.header 2 3 1), 2, 3.
    split_and!; by vm_compute.
Defined.

Lemma find_incomplete_concatenations_nil (env : Env)
    (exam_dir : option string) (scan_dirs : list string) (echoes : Z) :
  (find_incomplete_concatenations env exam_dir scan_dirs echoes).1 = [].
Proof.
  unfold find_incomplete_concatenations.
  destruct (get_scan_dirs _ _ _ _); [|done].
  destruct (list_of_gen _); [|done].
  destruct exam_dir as [d|]; [|done].
  by destruct (find_scans env d) as [[|? ?] ?].
Qed.

(** X5. [make_complete] changes nothing, and it returns normally exactly
    when [find_scans] finds no multi-echo scan under [exam_dir] (and
    raises nothing): with one scan found, either the completeness
    enumeration raises, or the loop of lines 190-193 reads the unbound
    name [scan] at its first iteration. [find_incomplete_concatenations]
    never yields a scan. *)
Theorem X5_make_complete (env : Env) (exam_dir : string) (echoes : Z)
    (w : World) :
  (make_complete env exam_dir echoes w).2 = w
  ∧ ((make_complete env exam_dir echoes w).1 = Ok ()
     ↔ find_scans env exam_dir = ([], None))
  ∧ (∀ exam_dir' scan_dirs,
       (find_incomplete_concatenations env exam_dir' scan_dirs echoes).1
       = []).
Proof.
  split_and!.
  - apply make_complete_world.
  - unfold make_complete, mbind, M_bind, lift.
    unfold find_incomplete_concatenations, find_incomplete_dicom_sets.
    unfold get_scan_dirs. rewrite decide_True by done.
    destruct (find_scans env exam_dir) as [ys [e|]] eqn:Hf.
    { unfold list_of_gen at 1. simpl. split; [done|]. by intros [= _]. }
    unfold list_of_gen. simpl.
    destruct ys as [|y ys].
    + by vm_compute.
    + split; [|by intros [=]].
      by destruct (incomplete_among env _) as [l [e|]].
  - intros. apply find_incomplete_concatenations_nil.
Qed.

(** ** [concatenate_scans] and [concatenate_subject] (lines 318-329) *)

Lemma for_M_app {A S} (l1 l2 : list A) (body : A → S → M S) (s : S)
    (w : World) :
  for_M (l1 ++ l2) body s w
  = match for_M l1 body s w with
    | (Ok s', w') => for_M l2 body s' w'
    | (Raise e, w') => (Raise e, w')
    end.
Proof.
  revert s w. induction l1 as [|a l1 IH]; intros s w; [done|].
  simpl. unfold mbind, M_bind. destruct (body a s w) as [[s'|e] w']; [|done].
  apply IH.
Qed.

(** X6. No exception is caught between the scans: when
    [concatenate_scan] raises on a scan, the scans before it having gone
    through, [concatenate_scans] ends there with that exception; the
    scans after it are not touched and [make_complete] is not called. *)
Theorem X6_first_failure_stops (env : Env) (pre : list string) (d : string)
    (rest : list string) (echoes : Z) (w w1 w2 : World) (e : exn) :
  for_M pre (λ scan_dir _, concatenate_scan env scan_dir echoes) () w
  = (Ok (), w1) →
  concatenate_scan env d echoes w1 = (Raise e, w2) →
  concatenate_scans env (pre ++ d :: rest) echoes w = (Raise e, w2).
Proof.
  intros Hpre Hd. unfold concatenate_scans.
  unfold mbind at 1, M_bind at 1. rewrite for_M_app, Hpre.
  cbn [for_M]. unfold mbind at 1, M_bind at 1. by rewrite Hd.
Qed.

Lemma X6_witness :
  let env := Sample.env "/exam/7" Sample.scan_3_files 1 3 in
  ∃ e w2,
    concatenate_scans env ["/exam/7"; "/exam/8"] 2 Sample.world0
    = (Raise e, w2).
Proof.
  intros env.
  destruct (concatenate_scan env "/exam/7" 2 Sample.world0)
    as [[[]|e] w2] eqn:Hd.
  - exfalso. assert ((concatenate_scan env "/exam/7" 2 Sample.world0).1
                     = Ok ()) as H by (by rewrite Hd).
    vm_compute in H. discriminate.
  - exists e, w2.
    apply (X6_first_failure_stops env [] "/exam/7" ["/exam/8"] 2
             Sample.world0 Sample.world0 w2 e); [reflexivity|exact Hd].
Defined.

(** X7. A subject directory in which [find_scans] finds no multi-echo
    scan is left as it was: [concatenate_subject] creates nothing, starts
    nothing and returns normally. When the search itself raises, so does
    [concatenate_subject], before touching anything. *)
Theorem X7_subject_without_scans (env : Env) (subject_dir : string)
    (echoes : Z) (w : World) :
  (find_scans env subject_dir = ([], None) →
   concatenate_subject env subject_dir echoes w = (Ok (), w))
  ∧ (∀ ys e, find_scans env subject_dir = (ys, Some e) →
       concatenate_subject env subject_dir echoes w = (Raise e, w)).
Proof.
  unfold concatenate_subject, get_scan_dirs, mbind, M_bind, lift.
  rewrite decide_True by done. split.
  - intros ->. by vm_compute.
  - intros ys e ->. done.
Qed.

Lemma X7_witness :
  concatenate_subject SampleExam.env "/exam/notes" 3 Sample.world0
  = (Ok (), Sample.world0).
Proof.
  destruct (X7_subject_without_scans SampleExam.env "/exam/notes" 3
              Sample.world0) as [H _].
  apply H. by vm_compute.
Defined.

(** ** Paths of the temporary directories *)












(** ** Loops that go through *)



Lemma os_mkdir_spec (path : string) (w : World) :
  ∃ r w', os_mkdir path w = (Ok r, w')
    ∧ files w' = files w ∧ procs w' = procs w
    ∧ (∀ d, d ∈ dirs w' ↔ d = path ∨ d ∈ dirs w)
    ∧ ∃ evs, trace w' = trace w ++ evs
             ∧ Forall (λ ev, ev = EvMkdir path) evs.
Proof.
  unfold os_mkdir. destruct (decide (path ∈ dirs w)) as [Hin|Hnin].
  - exists FileExists, w. split_and!; [done..| |].
    + intros d. split; [by right|]. by intros [->|?].
    + exists []. by rewrite app_nil_r.
  - eexists Created, _. split_and!; [done..| |].
    + intros d. simpl. set_solver.
    + exists [EvMkdir path]. split; [done|]. by repeat constructor.
Qed.

(** ** The reconstructors, step by step (lines 448-485) *)

Section run.
Context (o : Ordering) (scan_name me_dir : string) (echoes num : Z).
Hypothesis Hlists :
  infile_lists o
  = (λ e, Some (infile_list_path me_dir e)) <$> Py.range echoes.
Hypothesis Hnum : Str.int scan_name = Ok num.



End run.

(** ** The phases of a run *)

Lemma since_app (w0 w1 w2 : World) (P Q : list event → Prop) :
  since w0 w1 P → since w1 w2 Q →
  since w0 w2 (λ evs, ∃ a b, evs = a ++ b ∧ P a ∧ Q b).
Proof.
  intros (a&Ha&HP) (b&Hb&HQ). exists (a ++ b). split.
  - by rewrite Hb, Ha, <-app_assoc.
  - by exists a, b.
Qed.

Lemma since_Forall_snoc (w0 w : World) (ev : event) (p : event → bool) :
  since w0 w (Forall (λ ev, p ev = true)) → p ev = true →
  since w0 (log_event ev w) (Forall (λ ev, p ev = true)).
Proof.
  intros Hs Hev. eapply since_log; [exact Hs|].
  intros evs Hevs. apply Forall_app. split; [done|]. by repeat constructor.
Qed.

Lemma os_mkdir_Forall (w0 w : World) (path : string) (p : event → bool) :
  (∀ q, p (EvMkdir q) = true) →
  since w0 w (Forall (λ ev, p ev = true)) →
  since w0 (os_mkdir path w).2 (Forall (λ ev, p ev = true)).
Proof.
  intros Hp Hs. unfold os_mkdir. destruct (decide _); simpl; [done|].
  apply since_Forall_snoc; [|done]. by eapply since_same_trace.
Qed.

Lemma order_files_setup (env : Env) (scan_dir : string) (echoes : Z)
    (w : World) :
  since w (order_files env scan_dir echoes w).2
    (Forall (λ ev, is_setup ev = true)).
Proof.
  destruct (order_files_world env scan_dir echoes w) as [-> _].
  destruct (write_all_unchanged (planned_manifests env scan_dir echoes)
              (log_event (EvPoolMap (glob env (Str.path_join scan_dir "*.dcm")))
                 (os_mkdir (Str.path_join scan_dir ME_SUBDIR) w).2))
    as (_&_&Htr).
  assert (since w (log_event
                     (EvPoolMap (glob env (Str.path_join scan_dir "*.dcm")))
                     (os_mkdir (Str.path_join scan_dir ME_SUBDIR) w).2)
            (Forall (λ ev, is_setup ev = true))) as (evs&Hevs&Hall).
  { apply since_Forall_snoc; [|done]. apply os_mkdir_Forall; [done|].
    by apply since_refl. }
  eexists. split.
  - rewrite Htr, Hevs, <-app_assoc. done.
  - apply Forall_app. split; [done|]. apply Forall_fmap, Forall_true. done.
Qed.

Lemma dispatch_start (o : Ordering) (scan_name me_dir : string)
    (echoes : Z) (w : World) :
  since w (dispatch o scan_name me_dir echoes w).2
    (Forall (λ ev, is_start ev = true)).
Proof.
  unfold dispatch.
  pose proof (for_M_inv
           (λ (_ : list (option nat)) w',
              since w w' (Forall (λ ev, is_start ev = true)))
           (λ w', since w w' (Forall (λ ev, is_start ev = true)))
           (Py.range echoes)) as H.
  match goal with |- context [for_M _ ?body ?s w] =>
    specialize (H body s w) end.
  match type of H with ?A → ?B → _ =>
    assert A as HA; [|assert B as HB; [by apply since_refl|]] end.
  2:{ specialize (H HA HB).
      by destruct (for_M _ _ _ w) as [[?|?] ?]. }
  clear H. intros a dp w' _ HI.
  set (inf := Py.getitem (infile_lists o) a ≫= from_str).
  unfold mbind, M_bind, lift.
  destruct (Str.int scan_name) as [n|]; [|done].
  pose proof (os_mkdir_Forall w w' (temp_dir_of me_dir a) is_start
                (λ _, eq_refl) HI) as Hmk.
  destruct (os_mkdir (temp_dir_of me_dir a) w') as [[r|] w1] eqn:Hw1.
  2:{ unfold os_mkdir in Hw1. by destruct (decide _). }
  simpl in Hmk. destruct inf as [infile|]; [|done].
  unfold popen. cbn [fst snd].
  assert (∀ c, since w (log_event (EvPopen (length (procs w1)) c
                                     (temp_dir_of me_dir a))
                          {| dirs := dirs w1; files := files w1;
                             procs := procs w1 ++
                               [{| proc_command := c;
                                   proc_cwd := temp_dir_of me_dir a;
                                   proc_terminated := false |}];
                             trace := trace w1 |})
                 (Forall (λ ev, is_start ev = true))) as Hp.
  { intros c. apply since_Forall_snoc; [|done]. by eapply since_same_trace. }
  by destruct (Py.setitem dp a _).
Qed.

Lemma wait_all_wait (dp : list (option nat)) (me_dir : string)
    (echoes : Z) (w : World) :
  since w (wait_all dp me_dir echoes w).2
    (Forall (λ ev, is_wait ev = true)).
Proof.
  unfold wait_all.
  pose proof (for_M_inv
           (λ (_ : ()) w', since w w' (Forall (λ ev, is_wait ev = true)))
           (λ w', since w w' (Forall (λ ev, is_wait ev = true)))
           (Py.range echoes)) as H.
  match goal with |- context [for_M _ ?body ?s w] =>
    specialize (H body s w) end.
  match type of H with ?A → ?B → _ =>
    assert A as HA; [|assert B as HB; [by apply since_refl|]] end.
  2:{ specialize (H HA HB).
      by destruct (for_M _ _ _ w) as [[?|?] ?]. }
  clear H. intros a [] w' _ HI.
  unfold mbind, M_bind, lift.
  destruct (Py.getitem dp a) as [[pid|]|]; [|done..].
  unfold communicate, rmtree. cbn [fst snd].
  set (w1 := log_event (EvCommunicate pid) _).
  assert (since w w1 (Forall (λ ev, is_wait ev = true))) as H1.
  { apply since_Forall_snoc; [|done]. by eapply since_same_trace. }
  destruct (decide (temp_dir_of me_dir a ∈ dirs w1)); [|done].
  apply since_Forall_snoc; [|done]. by eapply since_same_trace.
Qed.

(** ** [order_files] went through *)



Lemma range_nonpos (n : Z) : n ≤ 0 → Py.range n = [].
Proof.
  intros Hn. unfold Py.range. by replace (Z.to_nat n) with 0%nat by lia.
Qed.



(** ** How a run of [concatenate_scan] ends (lines 335-487) *)


Lemma run_dimon_no_echo (env : Env) (o : Ordering) (scan_dir : string)
    (echoes : Z) (w : World) :
  echoes ≤ 0 → run_dimon env o scan_dir echoes w = (Ok (), w).
Proof.
  intros He. unfold run_dimon, dispatch, wait_all.
  by rewrite range_nonpos.
Qed.





(** The commands of the two reconstructors of the sample scan. *)
Example reconstructors_2x2x2 :
  proc_command (reconstructor 7 "/exam/7/medata" true 1)
  = ["Dimon"; "-infile_list"; "/exam/7/medata/_me1_infilelist";
     "-GERT_Reco"; "-gert_filename"; "GERT_Reco_dicom_007_e01";
     "-gert_create_dataset"; "-gert_outdir"; "/exam/7/medata";
     "-gert_to3d_prefix"; "run0007.e01"; "-gert_write_as_nifti"; "-quit"]
  ∧ proc_cwd (reconstructor 7 "/exam/7/medata" true 1)
    = "/exam/7/medata/temp_1".
Proof. split; by vm_compute. Qed.



(** X11. Whatever the scan and however the run ends, what it does comes
    in three phases: first the output directory, the header reads and
    the manifests; then the temporary directories and the process
    starts; then the waits and the removals. Every manifest is written
    before the first reconstructor is started, and every reconstructor
    is started before the first one is waited for. *)
Theorem X11_phases (env : Env) (scan_dir : string) (echoes : Z)
    (w : World) :
  ∃ setup start wait,
    trace (concatenate_scan env scan_dir echoes w).2
    = trace w ++ setup ++ start ++ wait
    ∧ Forall (λ ev, is_setup ev = true) setup
    ∧ Forall (λ ev, is_start ev = true) start
    ∧ Forall (λ ev, is_wait ev = true) wait.
Proof.
  unfold concatenate_scan, mbind, M_bind.
  pose proof (order_files_setup env scan_dir echoes w) as (a&Ha&Hsetup).
  destruct (order_files env scan_dir echoes w) as [[o|e] w1]; simpl in Ha.
  2:{ exists a, [], []. simpl. rewrite !app_nil_r. by split_and!. }
  unfold run_dimon, mbind, M_bind.
  set (scan_name := Str.basename (abs_norm env scan_dir)).
  set (me_dir := Str.path_join scan_dir ME_SUBDIR).
  pose proof (dispatch_start o scan_name me_dir echoes w1) as (b&Hb&Hstart).
  destruct (dispatch o scan_name me_dir echoes w1) as [[dp|e] w2];
    simpl in Hb.
  2:{ exists a, b, []. simpl. rewrite !app_nil_r, Hb, Ha, <-app_assoc.
      by split_and!. }
  pose proof (wait_all_wait dp me_dir echoes w2) as (c&Hc&Hwait).
  exists a, b, c. rewrite Hc, Hb, Ha, <-!app_assoc. by split_and!.
Qed.

Example phases_2x2x2 :
  let env := Sample.env "/exam/7" Sample.scan_2x2x2 4 2 in
  is_setup <$> trace (concatenate_scan env "/exam/7" 2 Sample.world0).2
  = [true; true; true; true; true; false; true; false; false; false;
     false; false]
  ∧ is_wait <$> trace (concatenate_scan env "/exam/7" 2 Sample.world0).2
    = [false; false; false; false; false; false; false; false; true; true;
       true; true].
Proof. intros env. split; by vm_compute. Qed.

(** ** Degenerate inputs of [concatenate_scan] *)

Lemma extract_indices_nil (env : Env) : extract_indices env [] = Ok [].
Proof. done. Qed.

Lemma arrange_nil (echoes : Z) (me_dir : string) :
  arrange [] [] echoes me_dir = Raise ZeroDivisionError.
Proof.
  destruct (decide (echoes = 0)) as [->|He].
  { by apply arrange_zero_echoes. }
  unfold arrange, Py.mod_. rewrite decide_False by done. simpl.
  change (build_index_mapping [] []) with (∅ : gmap Z (list string)).
  rewrite sort_index_mapping_Ok by apply map_Forall_empty.
  rewrite fmap_empty. simpl.
  rewrite resolve_geometry_Raise; [done|]. right.
  rewrite map_size_empty. by apply Z.div_0_l.
Qed.

(** X12. A scan directory without [.dcm] files makes [concatenate_scan]
    raise [ZeroDivisionError], whatever the echo count: the test of line
    390 lets zero files pass (or divides by a zero echo count), and line
    414 then divides by zero spatial slices. [medata] has been created;
    nothing is written and no process is started. *)
Theorem X12_empty_scan_dir (env : Env) (scan_dir : string) (echoes : Z)
    (w : World) :
  let me_dir := Str.path_join scan_dir ME_SUBDIR in
  let w2 := log_event (EvPoolMap []) (os_mkdir me_dir w).2 in
  glob env (Str.path_join scan_dir "*.dcm") = [] →
  concatenate_scan env scan_dir echoes w = (Raise ZeroDivisionError, w2)
  ∧ files w2 = files w ∧ procs w2 = procs w ∧ me_dir ∈ dirs w2.
Proof.
  intros me_dir w2 Hglob. split_and!.
  - apply concatenate_scan_Raise. rewrite order_files_unfold.
    rewrite Hglob, extract_indices_nil, arrange_nil. done.
  - apply (no_write_no_popen me_dir w []).
  - apply (no_write_no_popen me_dir w []).
  - destruct (os_mkdir_spec me_dir w) as (r&wm&Hmk&_&_&Hdirs&_).
    unfold w2. rewrite Hmk. simpl. apply Hdirs. by left.
Qed.

Lemma X12_witness :
  concatenate_scan SampleExam.env "/exam/12" 3 Sample.world0
  = (Raise ZeroDivisionError,
     log_event (EvPoolMap []) (os_mkdir "/exam/12/medata" Sample.world0).2).
Proof.
  destruct (X12_empty_scan_dir SampleExam.env "/exam/12" 3 Sample.world0)
    as [H _]; [reflexivity|exact H].
Defined.

Lemma range3_negative_step (nSp echoes : Z) :
  nSp < 0 → echoes < 0 → Py.range3 0 (nSp * echoes) nSp = Ok [].
Proof.
  intros HnSp He. unfold Py.range3, Py.range_len.
  rewrite decide_False by lia. rewrite decide_False by lia.
  assert ((0 - nSp * echoes - nSp - 1) / - nSp < 0) as Hneg.
  { apply Z.div_lt_upper_bound; nia. }
  by replace (Z.to_nat _) with 0%nat by lia.
Qed.

Lemma arrange_negative_echoes (dicom_list : list string)
    (index_list : list Z) (echoes : Z) (me_dir : string) :
  length dicom_list = length index_list → dicom_list ≠ [] →
  echoes < 0 → Py.len index_list `mod` echoes = 0 →
  all_match dicom_list →
  ∃ g, arrange dicom_list index_list echoes me_dir
       = Ok (g, ordering_of me_dir [] []).
Proof.
  intros Hlen Hne He Hmod Hall. unfold arrange, Py.mod_.
  rewrite decide_False by lia. simpl. rewrite decide_False by (by intros H).
  rewrite sort_index_mapping_Ok by (by apply good_mapping_build).
  simpl. fold (index_mapping_of dicom_list index_list).
  set (m := index_mapping_of dicom_list index_list).
  assert (0 < Z.of_nat (size m)) as Hsize.
  { unfold m, index_mapping_of. rewrite map_size_fmap.
    destruct dicom_list as [|f fs]; [done|].
    destruct index_list as [|i il]; [done|].
    assert (is_Some (build_index_mapping (f :: fs) (i :: il) !! i))
      as [v Hv].
    { apply build_index_mapping_dom; [done|]. left. }
    assert (size (build_index_mapping (f :: fs) (i :: il)) ≠ 0%nat); [|lia].
    intros H0%map_size_empty_inv. by rewrite H0, lookup_empty in Hv. }
  unfold resolve_geometry, Py.floordiv.
  rewrite decide_False by lia. simpl. rewrite decide_False by lia. simpl.
  assert (Z.of_nat (size m) / echoes < 0) as HnSp.
  { rewrite <-Z.div_opp_opp by lia. apply Z.div_lt_upper_bound; lia. }
  rewrite decide_False by nia. simpl.
  rewrite range3_negative_step by done. simpl.
  rewrite build_ordering_comprehension.
  rewrite range_nonpos by lia. simpl. by eexists.
Qed.

(** X13. The echo count is not tested for its sign. With a negative
    echo count that divides the number of files (of a scan that has
    files, with readable headers and matching names) the run raises
    nothing and does nothing beyond creating [medata]: every loop over
    [range(echoes)] is empty, so no manifest is written and no
    reconstructor started, and [concatenate_scan] returns normally. *)
Theorem X13_negative_echoes (env : Env) (scan_dir : string) (echoes : Z)
    (w : World) (index_list : list Z) :
  let me_dir := Str.path_join scan_dir ME_SUBDIR in
  let dicom_list := glob env (Str.path_join scan_dir "*.dcm") in
  let w2 := log_event (EvPoolMap dicom_list) (os_mkdir me_dir w).2 in
  extract_indices env dicom_list = Ok index_list →
  dicom_list ≠ [] → echoes < 0 →
  Py.len index_list `mod` echoes = 0 →
  all_match dicom_list →
  concatenate_scan env scan_dir echoes w = (Ok (), w2)
  ∧ files w2 = files w ∧ procs w2 = procs w.
Proof.
  intros me_dir dicom_list w2 Hext Hne He Hmod Hall.
  pose proof (extract_indices_length _ _ _ Hext) as Hlen.
  destruct (arrange_negative_echoes dicom_list index_list echoes me_dir
              Hlen Hne He Hmod Hall) as [g Hg].
  split_and!; [|apply no_write_no_popen..].
  unfold concatenate_scan, mbind, M_bind.
  rewrite order_files_unfold. fold me_dir dicom_list w2.
  rewrite Hext, Hg. cbn [snd].
  unfold write_manifests. rewrite range_nonpos by lia. simpl.
  by rewrite run_dimon_no_echo by lia.
Qed.

Lemma X13_witness :
  let env := Sample.env "/exam/7" Sample.scan_2x2x2 4 2 in
  concatenate_scan env "/exam/7" (-2) Sample.world0
  = (Ok (), log_event (EvPoolMap Sample.scan_2x2x2.*1)
              (os_mkdir "/exam/7/medata" Sample.world0).2).
Proof.
  intros env.
  destruct (X13_negative_echoes env "/exam/7" (-2) Sample.world0
              Sample.scan_2x2x2.*2) as [H _].
  - by vm_compute.
  - done.
  - lia.
  - by vm_compute.
  - by_compute.
  - exact H.
Defined.

(** ** The index mapping keeps every file (lines 395-400) *)

Lemma foldl_add_file_perm (pairs : list (string * Z))
    (m : gmap Z (list string)) :
  mjoin (map_to_list (foldl add_file m pairs)).*2
  ≡ₚ mjoin (map_to_list m).*2 ++ pairs.*1.
Proof.
  revert m. induction pairs as [|[f i] pairs IH]; intros m.
  { by rewrite app_nil_r. }
  cbn [foldl]. rewrite IH. rewrite fmap_cons. cbn [fst].
  rewrite (cons_middle f), app_assoc. f_equiv.
  unfold add_file. cbn [fst snd].
  destruct (m !! i) as [fs|] eqn:Hm.
  - rewrite <-insert_delete_eq.
    rewrite map_to_list_insert by apply lookup_delete_eq.
    rewrite <-(map_to_list_delete m i fs Hm).
    rewrite !fmap_cons. cbn [snd mjoin list_join].
    rewrite <-!app_assoc. f_equiv. apply Permutation_app_comm.
  - rewrite map_to_list_insert by done.
    rewrite fmap_cons. cbn [snd mjoin list_join].
    rewrite (Permutation_app_comm _ [f]). done.
Qed.

(** X14. The index mapping of lines 395-400 neither loses nor repeats a
    file: its lists, taken together, are a rearrangement of the files of
    the scan. The list of a slice index holds the files whose header has
    that index, in the order [glob] listed them, and is never empty. *)
Theorem X14_index_mapping_partition (dicom_list : list string)
    (index_list : list Z) :
  let m := build_index_mapping dicom_list index_list in
  length dicom_list = length index_list →
  mjoin (map_to_list m).*2 ≡ₚ dicom_list
  ∧ ∀ i fs, m !! i = Some fs →
      fs ≠ [] ∧ fs `sublist_of` dicom_list
      ∧ ∀ f, f ∈ fs ↔ ∃ n, dicom_list !! n = Some f
                           ∧ index_list !! n = Some i.
Proof.
  intros m Hlen. split.
  - unfold m, build_index_mapping. rewrite foldl_add_file_perm.
    rewrite map_to_list_empty. simpl. by rewrite fst_zip by lia.
  - intros i fs Hfs. unfold m in Hfs.
    rewrite build_index_mapping_lookup in Hfs.
    assert (fs = files_of dicom_list index_list i ∧ fs ≠ []) as [-> Hne].
    { destruct (files_of _ _ _); [done|]. by injection Hfs as <-. }
    split_and!; [done| |].
    + unfold files_of.
      rewrite <-(fst_zip dicom_list index_list) at 2 by lia.
      apply fmap_sublist, sublist_filter.
    + intros f. unfold files_of. rewrite list_elem_of_fmap. split.
      * intros ([f' j]&->&[Hj Hin]%list_elem_of_filter). simpl in *.
        subst j. apply list_elem_of_lookup in Hin as [n Hn].
        exists n. rewrite lookup_zip_with in Hn.
        destruct (dicom_list !! n) as [f0|]; [|done]. simpl in Hn.
        destruct (index_list !! n) as [i0|]; [|done]. simpl in Hn.
        by injection Hn as -> ->.
      * intros (n&Hf&Hi). exists (f, i). split; [done|].
        apply list_elem_of_filter. split; [done|].
        apply list_elem_of_lookup. exists n.
        by rewrite lookup_zip_with, Hf, Hi.
Qed.

Lemma X14_witness :
  let m := build_index_mapping Sample.scan_repeats.*1
             Sample.scan_repeats.*2 in
  mjoin (map_to_list m).*2 ≡ₚ Sample.scan_repeats.*1.
Proof.
  intros m.
  destruct (X14_index_mapping_partition Sample.scan_repeats.*1
              Sample.scan_repeats.*2) as [H _]; [reflexivity|exact H].
Defined.

(** ** Headers that cannot be read (lines 332-333, 381-382) *)

Lemma complete_failure_Some {A B} (f : A → res B) (xs : list A)
    (order : list nat) (st : Pool.state B) (e : exn) :
  Pool.failure (foldl (Pool.complete f xs) st order) = Some e →
  Pool.failure st = Some e ∨ ∃ x, x ∈ xs ∧ f x = Raise e.
Proof.
  revert st. induction order as [|i order IH]; intros st; [by left|].
  cbn [foldl]. intros [Hst|Hx]%IH; [|by right].
  unfold Pool.complete in Hst.
  destruct (xs !! i) as [x|] eqn:Hxi; [|by left].
  destruct (f x) as [y|e'] eqn:Hfx; [by left|]. simpl in Hst.
  destruct (Pool.failure st) as [e0|]; simpl in Hst; [by left|].
  injection Hst as <-. right. exists x. split; [|done].
  by eapply list_elem_of_lookup_2.
Qed.

(** A failing [pool.map] re-raises the exception one of its tasks
    raised. *)
Lemma pool_map_Raise_elem {A B} (f : A → res B) (xs : list A)
    (pick : list nat → nat) (e : exn) :
  Pool.map pick f xs = Raise e → ∃ x, x ∈ xs ∧ f x = Raise e.
Proof.
  intros Hmap. pose proof Hmap as Hr%pool_map_Raise.
  unfold Pool.map in Hmap.
  destruct (Pool.failure _) as [e'|] eqn:Hfail.
  - injection Hmap as ->.
    by apply complete_failure_Some in Hfail as [?|?].
  - exfalso. apply complete_failure in Hfail as [_ Hall].
    destruct Hr as [e' Hr].
    apply comp_res_Raise in Hr as (l1&x&l2&->&Hx&_).
    rewrite Forall_forall in Hall.
    destruct (Hall (length l1)) with (x := x) as [y Hy].
    + rewrite completion_perm by (by rewrite length_seq).
      rewrite elem_of_seq, length_app. simpl. lia.
    + by rewrite list_lookup_middle.
    + congruence.
Qed.

(** X15. One DICOM file that cannot be parsed, or whose header has no
    slice index (tag 0019,10a2), makes the run fail at line 382, before
    the divisibility test: [concatenate_scan] raises the exception of
    such a file ([InvalidDicomError], or the [AttributeError] of
    [None.value]), with [medata] created, nothing written and no process
    started. *)
Theorem X15_unreadable_header (env : Env) (scan_dir : string)
    (echoes : Z) (w : World) :
  let me_dir := Str.path_join scan_dir ME_SUBDIR in
  let dicom_list := glob env (Str.path_join scan_dir "*.dcm") in
  let w2 := log_event (EvPoolMap dicom_list) (os_mkdir me_dir w).2 in
  Exists (λ f, is_Raise (get_slice_index env f)) dicom_list →
  ∃ f e, f ∈ dicom_list ∧ get_slice_index env f = Raise e
         ∧ (e = InvalidDicomError f ∨ e = AttributeError_NoneType "value")
         ∧ concatenate_scan env scan_dir echoes w = (Raise e, w2)
         ∧ files w2 = files w ∧ procs w2 = procs w.
Proof.
  intros me_dir dicom_list w2 Hbad.
  destruct (extract_indices env dicom_list) as [il|e] eqn:Hext.
  { apply extract_indices_Ok in Hext.
    apply Exists_exists in Hbad as (f&Hf&[e He]).
    apply list_elem_of_lookup in Hf as [n Hn].
    destruct (Forall2_lookup_l _ _ _ _ _ Hext Hn) as (i&_&Hi). congruence. }
  pose proof Hext as (f&Hf&He)%pool_map_Raise_elem.
  exists f, e. split_and!; [done|done| | |apply no_write_no_popen..].
  - unfold get_slice_index in He. destruct (dcmread env f) as [ds|].
    + destruct (tag_0019_10a2 ds); [done|]. right. by injection He.
    + left. by injection He.
  - apply concatenate_scan_Raise. rewrite order_files_unfold.
    fold dicom_list me_dir w2. by rewrite Hext.
Qed.

Lemma X15_witness :
  let env := Sample.env "/exam/7" [("/exam/7/i-1-a.dcm", 1)] 1 1 in
  let env' := {| glob := λ _, ["/exam/7/i-1-a.dcm"; "/exam/7/i-2-a.dcm"];
                 dcmread := dcmread env; os_walk := os_walk env;
                 abs_norm := abs_norm env; pool_pick := pool_pick env |} in
  ∃ e w', concatenate_scan env' "/exam/7" 2 Sample.world0 = (Raise e, w')
          ∧ files w' = ∅.
Proof.
  intros env env'.
  destruct (X15_unreadable_header env' "/exam/7" 2 Sample.world0)
    as (f&e&_&_&_&Hc&Hf&_).
  - right. left. vm_compute. by eexists.
  - exists e. eexists. split; [exact Hc|exact Hf].
Defined.

(** ** What a run does not depend on, and does not touch *)





(** ** The text of a manifest (line 429) *)

Lemma split_on_nosep (sep : ascii) (a : list ascii) :
  Forall (λ c, c ≠ sep) a → split_on sep a = [a].
Proof.
  induction 1 as [|c a Hc _ IH]; [done|]. simpl.
  by rewrite decide_False, IH.
Qed.

Lemma split_on_app (sep : ascii) (a r : list ascii) :
  Forall (λ c, c ≠ sep) a →
  split_on sep (a ++ sep :: r) = a :: split_on sep r.
Proof.
  induction 1 as [|c a Hc _ IH]; simpl.
  - by rewrite decide_True.
  - by rewrite decide_False, IH.
Qed.

Lemma join_cons_cons (sep s s' : string) (l : list string) :
  Py.join sep (s :: s' :: l) = s +:+ sep +:+ Py.join sep (s' :: l).
Proof. done. Qed.

(** Splitting at the separator undoes [join], when no element holds the
    separator. *)
Lemma split_join (sep : ascii) (l : list string) :
  l ≠ [] → Forall (λ s, Forall (λ c, c ≠ sep) (Str.chars s)) l →
  split_on sep (Str.chars (Py.join (String sep "") l)) = Str.chars <$> l.
Proof.
  intros Hne Hl. induction Hl as [|s l Hs Hl IH]; [done|].
  destruct l as [|s' l].
  - simpl. by apply split_on_nosep.
  - rewrite join_cons_cons, !chars_app. cbn [Str.chars app].
    rewrite split_on_app by done. rewrite IH by done. done.
Qed.

Lemma join_inj (sep : ascii) (l l' : list string) :
  l ≠ [] → l' ≠ [] →
  Forall (λ s, Forall (λ c, c ≠ sep) (Str.chars s)) l →
  Forall (λ s, Forall (λ c, c ≠ sep) (Str.chars s)) l' →
  Py.join (String sep "") l = Py.join (String sep "") l' → l = l'.
Proof.
  intros Hne Hne' Hl Hl' Heq.
  assert (Str.chars <$> l = Str.chars <$> l') as H.
  { rewrite <-(split_join sep l), <-(split_join sep l') by done.
    by rewrite Heq. }
  revert H. clear. revert l'.
  induction l as [|s l IH]; intros [|s' l'] H; try done.
  rewrite !fmap_cons in H. injection H as Hs Hl.
  apply chars_inj in Hs as ->. f_equal. by apply IH.
Qed.

Lemma join_chars (sep : ascii) (l : list string) (P : ascii → Prop) :
  P sep → Forall (λ s, Forall P (Str.chars s)) l →
  Forall P (Str.chars (Py.join (String sep "") l)).
Proof.
  intros Hsep Hl. induction Hl as [|s l Hs Hl IH]; [constructor|].
  destruct l as [|s' l]; [done|].
  rewrite join_cons_cons, !chars_app. cbn [Str.chars].
  rewrite !Forall_app. split; [done|]. split; [by repeat constructor|done].
Qed.

Lemma join_nonempty (sep s : string) (l : list string) :
  s ≠ "" → Py.join sep (s :: l) ≠ "".
Proof.
  intros Hs. destruct l as [|s' l]; [done|].
  rewrite join_cons_cons. by destruct s.
Qed.

Lemma plain_row_line (row : list string) :
  row ≠ [] → Forall plain_path row →
  Py.join " " row ≠ ""
  ∧ Forall (λ c, c ≠ Str.newline) (Str.chars (Py.join " " row)).
Proof.
  intros Hne Hrow. split.
  - destruct row as [|p row]; [done|]. apply join_nonempty.
    by inversion Hrow as [|?? [? _]].
  - apply (join_chars " "%char); [done|].
    eapply Forall_impl; [exact Hrow|]. intros p [_ Hp].
    eapply Forall_impl; [exact Hp|]. by intros c [_ ?].
Qed.

(** X18. The text of a manifest determines the table it was made from,
    as long as no path is empty or holds a space or a line feed and no
    row is empty: two such tables with the same text are the same table.
    (A path with a space in it breaks this: the text no longer tells
    where one path ends.) *)
Theorem X18_manifest_injective (rows rows' : list (list string)) :
  plain_table rows → plain_table rows' →
  manifest_of rows = manifest_of rows' → rows = rows'.
Proof.
  unfold manifest_of. intros Hrows Hrows' Heq.
  assert (∀ rs, plain_table rs →
            Forall (λ s, Forall (λ c, c ≠ Str.newline) (Str.chars s))
              (Py.join " " <$> rs)) as Hlines.
  { intros rs Hrs. apply Forall_fmap. eapply Forall_impl; [exact Hrs|].
    intros row [Hne Hrow]. simpl. by apply plain_row_line. }
  assert (∀ r rs, plain_table (r :: rs) →
            Py.join (String Str.newline "") (Py.join " " <$> r :: rs) ≠ "")
    as Hnonempty.
  { intros r rs Hrs. rewrite fmap_cons. apply join_nonempty.
    inversion Hrs as [|?? [Hne Hrow]]; subst. by apply plain_row_line. }
  assert (Py.join " " <$> rows = Py.join " " <$> rows') as Hl.
  { destruct rows as [|r rs], rows' as [|r' rs']; [done|..].
    - symmetry in Heq. by apply Hnonempty in Heq.
    - by apply Hnonempty in Heq.
    - apply (join_inj Str.newline); [done|done|by apply Hlines..|done]. }
  clear Heq Hlines Hnonempty. revert rows' Hrows' Hl.
  induction Hrows as [|r rs [Hne Hr] Hrs IH]; intros [|r' rs'] Hrows' Hl;
    try done.
  rewrite !fmap_cons in Hl. injection Hl as Hrow Hrest.
  inversion Hrows' as [|?? [Hne' Hr'] Hrs']; subst.
  f_equal; [|by apply IH].
  apply (join_inj " "%char); [done|done| | |done].
  - eapply Forall_impl; [exact Hr|]. intros p [_ Hp].
    eapply Forall_impl; [exact Hp|]. by intros c [? _].
  - eapply Forall_impl; [exact Hr'|]. intros p [_ Hp].
    eapply Forall_impl; [exact Hp|]. by intros c [? _].
Qed.

Lemma X18_witness :
  let rows := [["/exam/7/i-1-a.dcm"; "/exam/7/i-2-a.dcm"];
               ["/exam/7/i-5-a.dcm"; "/exam/7/i-6-a.dcm"]] in
  let rows' := (λ t, (λ x, "/exam/7/i-" +:+ Str.str (4 * t + x) +:+ "-a.dcm")
                       <$> [1; 2]) <$> [0; 1] in
  rows' = rows.
Proof.
  intros rows rows'.
  apply (X18_manifest_injective rows' rows).
  - by_compute.
  - by_compute.
  - by vm_compute.
Defined.

(** With a space in a path, two tables have the same text. *)
Example manifest_ambiguous :
  manifest_of [["/exam/7/a b.dcm"]] = manifest_of [["/exam/7/a"; "b.dcm"]].
Proof. reflexivity. Qed.

(** ** A header without the pulse-sequence tag (lines 153-154) *)

Lemma is_scan_ME_missing_tag (env : Env) (d f : string) (fs : list string)
    (ds : Dataset) :
  glob env (Str.path_join d "*.dcm") = f :: fs →
  dcmread env f = Some ds → tag_0019_109c ds = None →
  is_scan_ME env d = Raise (KeyError_tag 0x0019 0x109c).
Proof.
  intros Hglob Hread Htag. unfold is_scan_ME. rewrite Hglob.
  rewrite decide_False by (unfold Py.len; simpl; lia).
  rewrite (getitem_Ok _ 0 f) by done. simpl.
  unfold read_file. rewrite Hread. simpl. by rewrite Htag.
Qed.

(** X19. [is_scan_ME] does not answer [False] for a directory whose
    first DICOM file has no pulse-sequence tag (0019,109c): line 154
    raises [KeyError]. One such numbered directory under a subject, the
    numbered directories before it being readable, makes
    [concatenate_subject] raise that [KeyError] during the search: no
    scan of the subject is concatenated, not even those found before. *)
Theorem X19_missing_tag_blocks_subject (env : Env) (subject_dir : string)
    (echoes : Z) (w : World) (pre : list string) (d : string)
    (suf : list string) (f : string) (fs : list string) (ds : Dataset) :
  numbered_dirs (os_walk env subject_dir) = pre ++ d :: suf →
  Forall (λ d, is_Ok (is_scan_ME env d)) pre →
  glob env (Str.path_join d "*.dcm") = f :: fs →
  dcmread env f = Some ds → tag_0019_109c ds = None →
  is_scan_ME env d = Raise (KeyError_tag 0x0019 0x109c)
  ∧ concatenate_subject env subject_dir echoes w
    = (Raise (KeyError_tag 0x0019 0x109c), w).
Proof.
  intros Hwalk Hpre Hglob Hread Htag.
  pose proof (is_scan_ME_missing_tag env d f fs ds Hglob Hread Htag) as Hd.
  split; [done|].
  unfold concatenate_subject, get_scan_dirs, mbind, M_bind, lift.
  rewrite decide_True by done.
  rewrite find_scans_among, Hwalk.
  by rewrite (scan_among_Raise env pre d suf _ Hpre Hd).
Qed.

Lemma X19_witness :
  let env := {| glob := λ pattern,
                  if decide (pattern = "/exam/3/*.dcm")
                  then ["/exam/3/i-1-a.dcm"] else glob SampleExam.env pattern;
                dcmread := λ path,
                  if decide (path = "/exam/3/i-1-a.dcm")
                  then Some {| tag_0019_109c := None;
                               tag_0019_10a2 := Some 1;
                               tag_0020_1002 := Some 1;
                               tag_0020_0105 := Some 1 |}
                  else dcmread SampleExam.env path;
                os_walk := λ top,
                  if decide (top = "/exam")
                  then [("/exam", ["12"; "7"; "3"])] else [];
                abs_norm := λ path, path;
                pool_pick := λ pending, 0%nat |} in
  concatenate_subject env "/exam" 3 Sample.world0
  = (Raise (KeyError_tag 0x0019 0x109c), Sample.world0).
Proof.
  intros env.
  destruct (X19_missing_tag_blocks_subject env "/exam" 3 Sample.world0
              ["/exam/12"; "/exam/7"] "/exam/3" [] "/exam/3/i-1-a.dcm" []
              {| tag_0019_109c := None; tag_0019_10a2 := Some 1;
                 tag_0020_1002 := Some 1; tag_0020_0105 := Some 1 |})
    as [_ H].
  - reflexivity.
  - repeat constructor; vm_compute; by eexists.
  - reflexivity.
  - reflexivity.
  - reflexivity.
  - exact H.
Defined.

(** ** Scans that the search found *)




(** ** A regular scan, end to end *)


